(** * Canvas layout editing in [spo page clientsidewebpart add]

    A shallow embedding of [SpoPageClientSideWebPartAddCommand]
    (validation, the promise chain of [commandAction] and the in-memory
    editing of [CanvasContent1]) together with the properties of the
    layout editor. *)

From Stdlib Require Import ZArith List Bool String Ascii Lia Permutation Sorted.
From Stdlib Require Import DecimalString.
Import ListNotations.
Local Open Scope string_scope.
Local Open Scope list_scope.
Local Open Scope Z_scope.

(** ** JavaScript array and value helpers *)

Module Js.

(** [arr[i]] : [None] stands for [undefined]. *)
Definition index {A} (arr : list A) (i : Z) : option A :=
  if i <? 0 then None else nth_error arr (Z.to_nat i).

(** [arr.findIndex(p)] : [-1] when no element satisfies [p]. *)
Fixpoint findIndex {A} (p : A -> bool) (arr : list A) : Z :=
  match arr with
  | [] => -1
  | x :: r => if p x then 0
              else let i := findIndex p r in if i <? 0 then -1 else i + 1
  end.

(** [arr.indexOf(v)] on numbers. *)
Definition indexOf (v : Z) (arr : list Z) : Z := findIndex (Z.eqb v) arr.

(** [arr.filter((value, index, array) => p value index)]. *)
Fixpoint filteri_from {A} (i : Z) (p : A -> Z -> bool) (arr : list A) : list A :=
  match arr with
  | [] => []
  | x :: r => if p x i then x :: filteri_from (i + 1) p r
              else filteri_from (i + 1) p r
  end.

Definition filteri {A} (p : A -> Z -> bool) (arr : list A) : list A :=
  filteri_from 0 p arr.

(** [arr.sort((a, b) => a - b)] : a stable numeric sort. *)
Fixpoint insert_num (x : Z) (l : list Z) : list Z :=
  match l with
  | [] => [x]
  | y :: r => if x <=? y then x :: y :: r else y :: insert_num x r
  end.

Fixpoint sort_num (l : list Z) : list Z :=
  match l with
  | [] => []
  | x :: r => insert_num x (sort_num r)
  end.

(** [arr.pop()] : the removed last element, [None] on an empty array. *)
Definition pop {A} (arr : list A) : option A :=
  match rev arr with
  | [] => None
  | x :: _ => Some x
  end.

(** [arr.splice(start, deleteCount, ...items)] : the array afterwards.
    A negative [start] counts from the end, and both are clamped. *)
Definition splice {A} (start deleteCount : Z) (items arr : list A) : list A :=
  let len := Z.of_nat (List.length arr) in
  let from := if start <? 0 then Z.max (len + start) 0 else Z.min start len in
  let del := Z.min (Z.max deleteCount 0) (len - from) in
  firstn (Z.to_nat from) arr ++ items ++ skipn (Z.to_nat (from + del)) arr.

(** Truthiness of an optional number and of an optional string. *)
Definition truthy (o : option Z) : bool :=
  match o with
  | Some z => negb (z =? 0)
  | None => false
  end.

Definition truthy_str (o : option string) : bool :=
  match o with
  | Some s => negb (s =? "")%string
  | None => false
  end.

(** [o || d] on an optional number. *)
Definition or_default (o : option Z) (d : Z) : Z :=
  match o with
  | Some z => if z =? 0 then d else z
  | None => d
  end.

(** [s.indexOf(sub)] on strings. *)
Fixpoint str_indexOf (sub s : string) : Z :=
  if String.prefix sub s then 0
  else match s with
       | EmptyString => -1
       | String _ r => let i := str_indexOf sub r in
                       if i <? 0 then -1 else i + 1
       end.

(** The decimal digits of a natural number. *)
Definition decimal (z : Z) : string := NilZero.string_of_int (Z.to_int z).

(** The Number nearest to a natural number [m] (ties to even), as the
    integer it is; [None] is [Infinity]. *)
Definition toDouble (m : Z) : option Z :=
  let bits := Z.log2 m + 1 in
  let r :=
    if bits <=? 53 then m
    else
      let sh := bits - 53 in
      let q := Z.shiftr m sh in
      let rest := m - Z.shiftl q sh in
      let half := Z.shiftl 1 (sh - 1) in
      let q' := if (half <? rest) || ((rest =? half) && Z.odd q) then q + 1 else q in
      Z.shiftl q' sh in
  if r <? 2 ^ 1024 then Some r else None.

Definition isDouble (m x : Z) : bool :=
  match toDouble m with
  | Some y => y =? x
  | None => false
  end.

(** The [k]-digit numbers [s] with [s * 10^(n-k)] rounding to [x], each
    with its [n]. *)
Definition roundTrips (x k n : Z) : list (Z * Z) :=
  if n <? k then []
  else
    let p := 10 ^ (n - k) in
    let lo := x / p in
    map (fun s => (s, n))
        (filter (fun s => (10 ^ (k - 1) <=? s) && (s <? 10 ^ k) && isDouble (s * p) x)
                [lo; lo + 1]).

(** Of several candidates the one nearest to [x], an even one on a tie. *)
Fixpoint nearest (x k : Z) (best : Z * Z) (rest : list (Z * Z)) : Z * Z :=
  match rest with
  | [] => best
  | c :: r =>
      let d := Z.abs (fst c * 10 ^ (snd c - k) - x) in
      let b := Z.abs (fst best * 10 ^ (snd best - k) - x) in
      if (d <? b) || ((d =? b) && Z.even (fst c)) then nearest x k c r
      else nearest x k best r
  end.

(** The shortest digits that name the Number [x] : [(s, k, n)] with [k] as
    small as possible, looked for up to the 17 digits that always do. *)
Fixpoint shortest (fuel : nat) (x d k : Z) : Z * Z * Z :=
  match fuel with
  | O => (x, d, d)
  | S f =>
      match roundTrips x k d ++ roundTrips x k (d + 1) with
      | [] => shortest f x d (k + 1)
      | c :: r => let b := nearest x k c r in (fst b, k, snd b)
      end
  end.

Fixpoint zeros (n : nat) : string :=
  match n with
  | O => ""
  | S m => String "0" (zeros m)
  end.

(** [Number::toString] of a positive Number that is an integer. *)
Definition show_double (x : Z) : string :=
  let d := Z.of_nat (String.length (decimal x)) in
  match shortest 17 x d 1 with
  | (s, k, n) =>
      if n <=? 21 then (decimal s ++ zeros (Z.to_nat (n - k)))%string
      else
        match decimal s with
        | String a EmptyString => (String a "e+" ++ decimal (n - 1))%string
        | String a r => (String a (String "." r) ++ "e+" ++ decimal (n - 1))%string
        | EmptyString => EmptyString
        end
  end.

(** Interpolation of a number in a template string: the value is the
    Number nearest to the integer. *)
Definition show_num (z : Z) : string :=
  if z =? 0 then "0"
  else
    let sign := if z <? 0 then "-" else "" in
    match toDouble (Z.abs z) with
    | Some x => (sign ++ show_double x)%string
    | None => (sign ++ "Infinity")%string
    end.

Definition show_opt (o : option Z) : string :=
  match o with
  | Some z => show_num z
  | None => "undefined"
  end.

(** A decimal digit. *)
Definition digit (a : ascii) : option Z :=
  let n := Z.of_nat (nat_of_ascii a) in
  if (48 <=? n) && (n <=? 57) then Some (n - 48) else None.

Fixpoint digits (acc : Z) (s : string) : option Z :=
  match s with
  | EmptyString => Some acc
  | String a r =>
      match digit a with
      | Some d => digits (10 * acc + d) r
      | None => None
      end
  end.

(** The array index a property name is: the name is the decimal form of
    an integer from 0 to 2^32 - 2. *)
Definition arrayIndex (k : string) : option Z :=
  match digits 0 k with
  | Some n => if (decimal n =? k)%string && (n <=? 4294967294) then Some n else None
  | None => None
  end.

(** White space and line terminators, of the characters a [string] has
    (code units below 256). *)
Definition isWhiteSpace (a : ascii) : bool :=
  let n := Z.of_nat (nat_of_ascii a) in
  ((9 <=? n) && (n <=? 13)) || (n =? 32) || (n =? 160).

Fixpoint trimStart (s : string) : string :=
  match s with
  | String a r => if isWhiteSpace a then trimStart r else s
  | EmptyString => s
  end.

Fixpoint reverse (acc s : string) : string :=
  match s with
  | EmptyString => acc
  | String a r => reverse (String a acc) r
  end.

Definition trim (s : string) : string :=
  reverse "" (trimStart (reverse "" (trimStart s))).

(** The decimal digits [s] starts with: how many, their value, the rest. *)
Fixpoint takeDigits (s : string) (count acc : Z) : Z * Z * string :=
  match s with
  | EmptyString => (count, acc, s)
  | String a r =>
      match digit a with
      | Some d => takeDigits r (count + 1) (10 * acc + d)
      | None => (count, acc, s)
      end
  end.

(** [ExponentPart], when there is one: nothing else may follow. *)
Definition exponentPart (s : string) : option Z :=
  match s with
  | EmptyString => Some 0
  | String a r =>
      if (Ascii.eqb a "e" || Ascii.eqb a "E")%bool then
        let signed :=
          match r with
          | String "+" t => (false, t)
          | String "-" t => (true, t)
          | _ => (false, r)
          end in
        match takeDigits (snd signed) 0 0 with
        | (c, x, EmptyString) =>
            if 0 <? c then Some (if fst signed then - x else x) else None
        | _ => None
        end
      else None
  end.

(** [StrUnsignedDecimalLiteral] other than [Infinity] : [(m, e)] stands
    for [m * 10^e]. *)
Definition unsignedDecimal (s : string) : option (Z * Z) :=
  match takeDigits s 0 0 with
  | (c1, m1, String "." r) =>
      match takeDigits r 0 0 with
      | (c2, m2, rest) =>
          if c1 + c2 =? 0 then None
          else
            match exponentPart rest with
            | Some x => Some (m1 * 10 ^ c2 + m2, x - c2)
            | None => None
            end
      end
  | (c1, m1, rest) =>
      if c1 =? 0 then None
      else
        match exponentPart rest with
        | Some x => Some (m1, x)
        | None => None
        end
  end.

Definition radixDigit (radix : Z) (a : ascii) : option Z :=
  let n := Z.of_nat (nat_of_ascii a) in
  let d :=
    if (48 <=? n) && (n <=? 57) then n - 48
    else if (97 <=? n) && (n <=? 102) then n - 87
    else if (65 <=? n) && (n <=? 70) then n - 55
    else 16 in
  if d <? radix then Some d else None.

Fixpoint radixDigits (radix acc : Z) (s : string) : option Z :=
  match s with
  | EmptyString => Some acc
  | String a r =>
      match radixDigit radix a with
      | Some d => radixDigits radix (radix * acc + d) r
      | None => None
      end
  end.

(** [NonDecimalIntegerLiteral] : [0x], [0o] or [0b] and at least one
    digit. *)
Definition nonDecimal (s : string) : option (option Z) :=
  match s with
  | String "0" (String p r) =>
      let radix :=
        if (Ascii.eqb p "x" || Ascii.eqb p "X")%bool then 16
        else if (Ascii.eqb p "o" || Ascii.eqb p "O")%bool then 8
        else if (Ascii.eqb p "b" || Ascii.eqb p "B")%bool then 2
        else 0 in
      if radix =? 0 then None
      else
        match r with
        | EmptyString => Some None
        | _ => Some (radixDigits radix 0 r)
        end
  | _ => None
  end.

(** [floor (log2 (n / d))] for positive [n] and [d]. *)
Definition floorLog2 (n d : Z) : Z :=
  let e := Z.log2 n - Z.log2 d in
  if (if 0 <=? e then n <? d * 2 ^ e else n * 2 ^ (- e) <? d) then e - 1 else e.

Definition roundHalfEven (a b : Z) : Z :=
  let q := a / b in
  let r := a mod b in
  if (b <? 2 * r) || ((2 * r =? b) && Z.odd q) then q + 1 else q.

(** The Number nearest to [n / d] (ties to even) when it is an integer
    from 0 to 2^32 - 1, for [0 <= n] and [0 < d]. Below 2^32 a Number is
    a multiple [k * 2^u] of the spacing at its size, and [u] is
    negative. *)
Definition ratioToLength (n d : Z) : option Z :=
  if n =? 0 then Some 0
  else if d * 2 ^ 32 <=? n then None
  else
    let u := Z.max (floorLog2 n d) (-1022) - 52 in
    let k := roundHalfEven (n * 2 ^ (- u)) d in
    if (k mod 2 ^ (- u) =? 0) && (k / 2 ^ (- u) <=? 4294967295)
    then Some (k / 2 ^ (- u))
    else None.

Definition decimalToLength (negative : bool) (s : string) : option Z :=
  match unsignedDecimal s with
  | Some (m, e) =>
      let value := if 0 <=? e then ratioToLength (m * 10 ^ e) 1
                   else ratioToLength m (10 ^ (- e)) in
      if negative then
        match value with
        | Some 0 => Some 0
        | _ => None
        end
      else value
  | None => None
  end.

(** What assigning the string [s] to the [length] of an array makes of
    it: [StringToNumber] of [s] when that is an integer from 0 to
    2^32 - 1 ([-0] counts as 0), [None] for the [RangeError] of every
    other value, [NaN] and the infinities included. *)
Definition stringToLength (s : string) : option Z :=
  match trim s with
  | EmptyString => Some 0
  | String "+" r => decimalToLength false r
  | String "-" r => decimalToLength true r
  | t =>
      match nonDecimal t with
      | Some (Some n) => if n <=? 4294967295 then Some n else None
      | Some None => None
      | None => decimalToLength false t
      end
  end.

End Js.

(** ** Data model *)

(** Parsed JSON values: the payloads carried through the editor. *)
Inductive JsValue : Type :=
| JsNull
| JsBool (b : bool)
| JsNum (z : Z)
| JsStr (s : string)
| JsArr (items : JsItems)
| JsObj (fields : JsFields)
with JsItems : Type :=
| INil
| ICons (v : JsValue) (r : JsItems)
with JsFields : Type :=
| FNil
| FCons (k : string) (v : JsValue) (r : JsFields).

Definition JsObject : Type := JsFields.

(** Modelled from the spec: the declaration of [ControlPosition] in
    [./canvasContent] is not part of the sources; the spec gives its five
    fields, all integers. *)
Record Position : Type := mkPosition {
  zoneIndex : Z;
  sectionIndex : Z;
  sectionFactor : Z;
  layoutIndex : Z;
  controlIndex : Z
}.

(** Modelled from the spec: the declaration of [Control] in
    [./canvasContent] is not part of the sources; the fields are the ones
    the command reads or writes, [others] holds whatever else an entry
    carries (such as [pageSettingsSlice]). *)
Record Control : Type := mkControl {
  controlType : option Z;
  displayMode : option Z;
  id : option JsValue;
  position : option Position;
  webPartId : option JsValue;
  emphasis : option JsObject;
  webPartData : option JsObject;
  others : JsObject
}.

Definition Layout : Type := list Control.

(** The web part resolved by [getWebPart]. *)
Record WebPart : Type := mkWebPart {
  wp_id : option JsValue;
  wp_webPartData : JsObject;
  wp_webPartId : JsValue
}.

Record Options : Type := mkOptions {
  pageName : string;
  webUrl : string;
  standardWebPart : option string;
  opt_webPartData : option string;
  opt_webPartId : option string;
  webPartProperties : option string;
  section : option Z;
  column : option Z;
  order : option Z
}.

Definition set_section (s : option Z) (o : Options) : Options :=
  mkOptions (pageName o) (webUrl o) (standardWebPart o) (opt_webPartData o)
    (opt_webPartId o) (webPartProperties o) s (column o) (order o).

Definition set_column (c : option Z) (o : Options) : Options :=
  mkOptions (pageName o) (webUrl o) (standardWebPart o) (opt_webPartData o)
    (opt_webPartId o) (webPartProperties o) (section o) c (order o).

Definition set_order (n : option Z) (o : Options) : Options :=
  mkOptions (pageName o) (webUrl o) (standardWebPart o) (opt_webPartData o)
    (opt_webPartId o) (webPartProperties o) (section o) (column o) n.

(** What a rejected promise carries: the message text. *)
Definition Result (A : Type) : Type := (string + A)%type.

Definition Ok {A} (a : A) : Result A := inr a.
Definition Rejected {A} (msg : string) : Result A := inl msg.

(** ** The layout editor (third [then] of [commandAction]) *)

Module Editor.

(** The synthetic one-column section of a page without sections. *)
Definition defaultSection : Control :=
  mkControl None (Some 2) None
    (Some (mkPosition 1 1 12 1 1))
    None (Some FNil) None FNil.

(** [if (canvasContent.length === 1) canvasContent.unshift(defaultSection)]. *)
Definition ensureDefaultSection (canvasContent : Layout) : Layout :=
  if Nat.eqb (List.length canvasContent) 1
  then defaultSection :: canvasContent
  else canvasContent.

(** [.filter(c => c.position).map(c => c.position.zoneIndex)]. *)
Fixpoint zonesOf (canvasContent : Layout) : list Z :=
  match canvasContent with
  | [] => []
  | c :: r => match position c with
              | Some p => zoneIndex p :: zonesOf r
              | None => zonesOf r
              end
  end.

Definition zoneIndices (canvasContent : Layout) : list Z :=
  let all := zonesOf canvasContent in
  Js.sort_num (Js.filteri (fun value index => Js.indexOf value all =? index) all).

Definition invalidSection (section : Z) : string :=
  ("Invalid section '" ++ Js.show_num section ++ "'")%string.

Definition invalidColumn (column : option Z) : string :=
  ("Invalid column '" ++ Js.show_opt column ++ "'")%string.

(** The section number, defaulted to the last section, and the
    [zoneIndex] it stands for ([None] is [undefined]). *)
Definition resolveSection (canvasContent : Layout) (requestedSection : option Z)
  : Result (option Z) :=
  let zs := zoneIndices canvasContent in
  let n := Z.of_nat (List.length zs) in
  let section := Js.or_default requestedSection n in
  if section >? n then Rejected (invalidSection section)
  else Ok (Js.index zs (section - 1)).

(** [c.position && c.position.zoneIndex === zoneIndex &&
     c.position.sectionIndex === column]. *)
Definition inColumn (zone : option Z) (column : Z) (c : Control) : bool :=
  match position c, zone with
  | Some p, Some z => (zoneIndex p =? z) && (sectionIndex p =? column)
  | _, _ => false
  end.

(** The same test with [&& c.position.controlIndex === controlIndex]. *)
Definition atIndex (zone : option Z) (column : Z) (ci : option Z) (c : Control) : bool :=
  inColumn zone column c &&
  match position c, ci with
  | Some p, Some i => controlIndex p =? i
  | _, _ => false
  end.

(** Position in the array of the first control of the column. *)
Definition resolveColumn (canvasContent : Layout) (zone : option Z)
           (requestedColumn : option Z) : Result Z :=
  let column := Js.or_default requestedColumn 1 in
  let i := Js.findIndex (inColumn zone column) canvasContent in
  if i =? -1 then Rejected (invalidColumn requestedColumn) else Ok i.

(** [this.extend({controlType: 3, displayMode: 2, id, position, webPartId,
    emphasis: {}}, webPart)] : the own properties of [webPart]
    ([id], [webPartData], [webPartId]) are copied over the literal. *)
Definition webPartControl (anchor : Control) (webPart : WebPart) : Control :=
  mkControl (Some 3) (Some 2) (wp_id webPart) (position anchor)
    (Some (wp_webPartId webPart)) (Some FNil) (Some (wp_webPartData webPart)) FNil.

Definition setControlIndex (i : Z) (c : Control) : Control :=
  mkControl (controlType c) (displayMode c) (id c)
    (match position c with
     | Some p => Some (mkPosition (zoneIndex p) (sectionIndex p)
                         (sectionFactor p) (layoutIndex p) i)
     | None => None
     end)
    (webPartId c) (emphasis c) (webPartData c) (others c).

(** [let i = 1; webPartsInColumn.forEach(w => w.position.controlIndex = i++)]
    seen on the whole array: the controls of the column are numbered in
    array order, the others are left alone. *)
Fixpoint renumber (zone : option Z) (column : Z) (i : Z) (canvasContent : Layout) : Layout :=
  match canvasContent with
  | [] => []
  | c :: r => if inColumn zone column c
              then setControlIndex i c :: renumber zone column (i + 1) r
              else c :: renumber zone column i r
  end.

(** [c.position.controlIndex as number] of a control with a position. *)
Definition ciOf (c : Control) : Z :=
  match position c with
  | Some p => controlIndex p
  | None => 0
  end.

(** [canvasContent.filter(c => c.position && ... zoneIndex ... column)]. *)
Definition columnControls (zone : option Z) (column : Z) (canvasContent : Layout)
  : list Control :=
  filter (inColumn zone column) canvasContent.

(** The sorted [controlIndex] values of the column. *)
Definition controlIndices (zone : option Z) (column : Z) (canvasContent : Layout) : list Z :=
  Js.sort_num (map ciOf (columnControls zone column canvasContent)).

(** The branch on [control.controlType] with both of its arms;
    [anchorIndex] is what [findIndex] returned, so the entry exists. *)
Definition insert (canvasContent : Layout) (zone : option Z) (column : Z)
           (anchorIndex : Z) (order : option Z) (webPart : WebPart) : Layout :=
  match Js.index canvasContent anchorIndex with
  | None => canvasContent
  | Some control =>
      let new := webPartControl control webPart in
      if negb (Js.truthy (controlType control)) then
        Js.splice anchorIndex 1 [setControlIndex 1 new] canvasContent
      else
        let cis := controlIndices zone column canvasContent in
        let placed :=
          if negb (Js.truthy order)
             || (Js.or_default order 0 >? Z.of_nat (List.length cis)) then
            let ci := Js.pop cis in
            let webPartIndex := Js.findIndex (atIndex zone column ci) canvasContent in
            Js.splice (webPartIndex + 1) 0 [new] canvasContent
          else
            let ci := Js.index cis (Js.or_default order 0 - 1) in
            let webPartIndex := Js.findIndex (atIndex zone column ci) canvasContent in
            Js.splice webPartIndex 0 [new] canvasContent in
        renumber zone column 1 placed
  end.

(** The whole step: default section, section, column, insertion. *)
Definition editLayout (fetched : Layout) (options : Options) (webPart : WebPart)
  : Result Layout :=
  let canvasContent := ensureDefaultSection fetched in
  match resolveSection canvasContent (section options) with
  | inl msg => Rejected msg
  | inr zone =>
      let col := Js.or_default (column options) 1 in
      match resolveColumn canvasContent zone (column options) with
      | inl msg => Rejected msg
      | inr anchorIndex =>
          Ok (insert canvasContent zone col anchorIndex (order options) webPart)
      end
  end.

End Editor.

(** ** Payload merging ([extend], [setWebPartProperties]) *)

Module Payload.

(** The fields of an object are its own properties in the order
    [Object.getOwnPropertyNames] and [JSON.stringify] go through them:
    the array indices ascending, then the other names as they were
    created. A property whose value is [undefined] is not listed. *)
Fixpoint lookup (k : string) (o : JsFields) : option JsValue :=
  match o with
  | FNil => None
  | FCons k' v r => if (k' =? k)%string then Some v else lookup k r
  end.

Definition has (k : string) (o : JsFields) : bool :=
  match lookup k o with
  | Some _ => true
  | None => false
  end.

(** A new value for a property the object has: it keeps its place. *)
Fixpoint replace (k : string) (v : JsValue) (o : JsFields) : JsFields :=
  match o with
  | FNil => FNil
  | FCons k' v' r => if (k' =? k)%string then FCons k v r
                     else FCons k' v' (replace k v r)
  end.

Fixpoint append (o1 o2 : JsFields) : JsFields :=
  match o1 with
  | FNil => o2
  | FCons k v r => FCons k v (append r o2)
  end.

(** A new property whose name is the array index [i] : after the smaller
    indices. *)
Fixpoint place (i : Z) (k : string) (v : JsValue) (o : JsFields) : JsFields :=
  match o with
  | FNil => FCons k v FNil
  | FCons k' v' r =>
      match Js.arrayIndex k' with
      | Some j => if j <? i then FCons k' v' (place i k v r) else FCons k v o
      | None => FCons k v o
      end
  end.

(** A new own property. *)
Definition define (k : string) (v : JsValue) (o : JsFields) : JsFields :=
  match Js.arrayIndex k with
  | Some i => place i k v o
  | None => append o (FCons k v FNil)
  end.

(** What an object inherits from: [Object.prototype] (an object literal,
    a parsed object), nothing, or a value of the source that an
    assignment to [__proto__] has put there. *)
Inductive Prototype : Type :=
| ObjectPrototype
| NullPrototype
| Inherits (v : JsValue).

Record Obj : Type := mkObj {
  own : JsFields;
  proto : Prototype
}.

(** Whether looking [__proto__] up along the prototypes ends at the
    accessor of [Object.prototype] : not when there is no prototype, and
    not when a parsed object on the way has a property of that name. *)
Definition accessorReached (p : Prototype) : bool :=
  match p with
  | ObjectPrototype => true
  | NullPrototype => false
  | Inherits (JsObj f) => negb (has "__proto__" f)
  | Inherits _ => true
  end.

(** The setter of [__proto__] : an object, an array or [null] becomes the
    prototype, any other value is ignored. *)
Definition setPrototype (v : JsValue) (t : Obj) : Obj :=
  match v with
  | JsObj _ | JsArr _ => mkObj (own t) (Inherits v)
  | JsNull => mkObj (own t) NullPrototype
  | _ => t
  end.

(** [t[k] = v] on an object. *)
Definition assign (k : string) (v : JsValue) (t : Obj) : Obj :=
  if has k (own t) then mkObj (replace k v (own t)) (proto t)
  else if (k =? "__proto__")%string && accessorReached (proto t) then setPrototype v t
  else mkObj (define k v (own t)) (proto t).

(** The [reduce] of [extend] over the properties of the source, on an
    object. *)
Fixpoint extendObject (target : Obj) (source : JsFields) : Obj :=
  match source with
  | FNil => target
  | FCons k v r => extendObject (assign k v target) r
  end.

(** [Object.getOwnPropertyNames(source).reduce((t, v) => { t[v] = source[v];
    return t; }, target)] on two objects, the target one that inherits
    from [Object.prototype]. *)
Definition extend (target source : JsFields) : JsFields :=
  own (extendObject (mkObj target ObjectPrototype) source).

(** [webPartData.instanceId] : the property of the object or, without
    one, of the object it inherits from (the built-in prototypes have no
    such property). *)
Definition instanceId (t : Obj) : option JsValue :=
  match lookup "instanceId" (own t) with
  | Some v => Some v
  | None =>
      match proto t with
      | Inherits (JsObj f) => lookup "instanceId" f
      | _ => None
      end
  end.

Fixpoint chars_from (i : Z) (s : string) : JsFields :=
  match s with
  | EmptyString => FNil
  | String a r => FCons (Js.show_num i) (JsStr (String a EmptyString))
                    (chars_from (i + 1) r)
  end.

Fixpoint items_from (i : Z) (a : JsItems) : JsFields :=
  match a with
  | INil => FNil
  | ICons v r => FCons (Js.show_num i) v (items_from (i + 1) r)
  end.

Fixpoint items_length (a : JsItems) : Z :=
  match a with
  | INil => 0
  | ICons _ r => 1 + items_length r
  end.

(** The own properties of a parsed value; [None] is the [TypeError] of
    [Object.getOwnPropertyNames(null)]. *)
Definition ownProperties (source : JsValue) : option JsFields :=
  match source with
  | JsNull => None
  | JsBool _ | JsNum _ => Some FNil
  | JsStr s => Some (append (chars_from 0 s)
                       (FCons "length" (JsNum (Z.of_nat (String.length s))) FNil))
  | JsArr a => Some (append (items_from 0 a)
                       (FCons "length" (JsNum (items_length a)) FNil))
  | JsObj o => Some o
  end.

(** [Array.prototype.join] with a comma, which is how an array becomes a
    string: [null] gives nothing, an object [[object Object]]. *)
Fixpoint joinItems (a : JsItems) : string :=
  match a with
  | INil => ""
  | ICons v r =>
      match r with
      | INil => element v
      | ICons _ _ => (element v ++ "," ++ joinItems r)%string
      end
  end
with element (v : JsValue) : string :=
  match v with
  | JsNull => ""
  | JsBool b => if b then "true" else "false"
  | JsNum z => Js.show_num z
  | JsStr s => s
  | JsArr a => joinItems a
  | JsObj _ => "[object Object]"
  end.

(** What assigning [v] to the [length] of an array makes of it: the
    number [v] converts to, when that is an integer from 0 to 2^32 - 1;
    [None] is the [RangeError] (or, for an object, the [TypeError] or the
    [NaN] of the conversion). *)
Definition toLength (v : JsValue) : option Z :=
  match v with
  | JsNull => Some 0
  | JsBool b => Some (if b then 1 else 0)
  | JsNum z => if (0 <=? z) && (z <=? 4294967295) then Some z else None
  | JsStr s => Js.stringToLength s
  | JsArr a => Js.stringToLength (joinItems a)
  | JsObj _ => None
  end.

(** [a[i] = v] on an array: beyond the end, the elements in between are
    holes, which [JSON.stringify] writes as [null]. *)
Fixpoint items_set (i : nat) (v : JsValue) (a : JsItems) : JsItems :=
  match i, a with
  | O, INil => ICons v INil
  | O, ICons _ r => ICons v r
  | S j, INil => ICons JsNull (items_set j v INil)
  | S j, ICons x r => ICons x (items_set j v r)
  end.

(** [a.length = n] : the array is cut or filled up with holes. *)
Fixpoint items_resize (n : nat) (a : JsItems) : JsItems :=
  match n, a with
  | O, _ => INil
  | S m, INil => ICons JsNull (items_resize m INil)
  | S m, ICons x r => ICons x (items_resize m r)
  end.

(** [t[k] = v] on an array, [None] when it throws. A name that is
    neither an index nor [length] makes a property of the array (or, for
    [__proto__], changes what it inherits from) that [JSON.stringify]
    does not write: the elements stay as they are. *)
Definition assignItem (k : string) (v : JsValue) (a : JsItems) : option JsItems :=
  match Js.arrayIndex k with
  | Some i => Some (items_set (Z.to_nat i) v a)
  | None =>
      if (k =? "length")%string then
        match toLength v with
        | Some n => Some (items_resize (Z.to_nat n) a)
        | None => None
        end
      else Some a
  end.

(** The [reduce] of [extend] on an array: it stops at the assignment
    that throws, and what was assigned before stays. *)
Fixpoint extendArray (a : JsItems) (source : JsFields) : JsItems :=
  match source with
  | FNil => a
  | FCons k v r =>
      match assignItem k v a with
      | Some a' => extendArray a' r
      | None => a
      end
  end.

(** The target of [this.extend(target, source)] once the call is over,
    whether it has returned the target or thrown ([None] is
    [undefined]). An object or an array is changed in place. Any other
    target is left as it is: [null] and [undefined] have no properties
    to assign to, and the strict-mode module cannot create one on a
    boolean, a number or a string ([__proto__] is ignored there). *)
Definition extendValue (target : option JsValue) (source : JsValue)
  : option JsValue :=
  match ownProperties source with
  | None => target
  | Some props =>
      match target with
      | Some (JsObj o) => Some (JsObj (extend o props))
      | Some (JsArr a) => Some (JsArr (extendArray a props))
      | _ => target
      end
  end.

Definition typeError : string :=
  "TypeError: Cannot convert undefined or null to object".

Section WithParser.

(** [JSON.parse] : the value, or the text of the [SyntaxError]. *)
Variable JSON_parse : string -> Result JsValue.

(** First half: [webPartProperties], inside [try { } catch { }]. What
    [extend] has done to the properties before throwing is kept. *)
Definition mergeProperties (webPart : WebPart) (options : Options) : WebPart :=
  match webPartProperties options with
  | Some text =>
      if Js.truthy_str (Some text) then
        match JSON_parse text with
        | inl _ => webPart
        | inr properties =>
            match extendValue (lookup "properties" (wp_webPartData webPart))
                    properties with
            | Some merged =>
                mkWebPart (wp_id webPart)
                  (replace "properties" merged (wp_webPartData webPart))
                  (wp_webPartId webPart)
            | None => webPart
            end
        end
      else webPart
  | None => webPart
  end.

(** Second half: [webPartData], whose exceptions leave the function. *)
Definition mergeData (webPart : WebPart) (options : Options) : Result WebPart :=
  match opt_webPartData options with
  | Some text =>
      if Js.truthy_str (Some text) then
        match JSON_parse text with
        | inl e => Rejected e
        | inr webPartData =>
            match ownProperties webPartData with
            | None => Rejected typeError
            | Some props =>
                let merged :=
                  extendObject (mkObj (wp_webPartData webPart) ObjectPrototype) props in
                Ok (mkWebPart (instanceId merged) (own merged)
                      (wp_webPartId webPart))
            end
        end
      else Ok webPart
  | None => Ok webPart
  end.

Definition setWebPartProperties (webPart : WebPart) (options : Options)
  : Result WebPart :=
  mergeData (mergeProperties webPart options) options.

End WithParser.

End Payload.

(** ** The command: validation and the promise chain *)

(** What [validate] returns: [true] or the text of the complaint. *)
Inductive Validation : Type :=
| Passed
| Failed (msg : string).

(** The requests the command hands to the HTTP client. *)
Inductive Request : Type :=
| GET (url : string)
| POST (url : string) (CanvasContent1 : option Layout).

(** What the service answers to the requests of one invocation. *)
Record Responses : Type := mkResponses {
  page : Result (option Layout * bool);
  checkoutpage : Result unit;
  clientSideWebPart : Result WebPart;
  savepage : Result unit
}.

(** Promise chains: the requests issued so far are threaded through, a
    rejection skips every later [then]. *)
Definition Chain (A : Type) : Type := list Request -> list Request * Result A.

Definition resolve {A} (a : A) : Chain A := fun issued => (issued, Ok a).

Definition settle {A} (r : Result A) : Chain A := fun issued => (issued, r).

Definition andThen {A B} (c : Chain A) (k : A -> Chain B) : Chain B :=
  fun issued =>
    match c issued with
    | (issued', inl msg) => (issued', Rejected msg)
    | (issued', inr a) => k a issued'
    end.

Definition request {A} (r : Request) (answer : Result A) : Chain A :=
  fun issued => (issued ++ [r], answer).

Notation "x <- c ;; k" := (andThen c (fun x => k))
  (at level 61, c at next level, right associativity).

Module Command.

Section WithCollaborators.

Variable JSON_parse : string -> Result JsValue.
Variable encodeURIComponent : string -> string.
Variable isValidGuid : string -> bool.
Variable isValidStandardWebPartType : string -> bool.
Variable isValidSharePointUrl : string -> Validation.

(** [isNumber] of [util]: an option typed [number] holds a number. *)
Definition isNumber (z : Z) : bool := true.

Definition text (o : option string) : string :=
  match o with
  | Some s => s
  | None => "undefined"
  end.

Definition malformedProperties (input e : string) : string :=
  ("Specified webPartProperties is not a valid JSON string. Input: "
   ++ input ++ ". Error: " ++ e)%string.

Definition malformedData (input e : string) : string :=
  ("Specified webPartData is not a valid JSON string. Input: "
   ++ input ++ ". Error: " ++ e)%string.

Definition validate (options : Options) : Validation :=
  if negb (Js.truthy_str (standardWebPart options))
     && negb (Js.truthy_str (opt_webPartId options)) then
    Failed "Specify either the standardWebPart or the webPartId option"
  else if Js.truthy_str (standardWebPart options)
          && Js.truthy_str (opt_webPartId options) then
    Failed "Specify either the standardWebPart or the webPartId option but not both"
  else if Js.truthy_str (opt_webPartId options)
          && negb (isValidGuid (text (opt_webPartId options))) then
    Failed ("The webPartId '" ++ text (opt_webPartId options)
            ++ "' is not a valid GUID")%string
  else if Js.truthy_str (standardWebPart options)
          && negb (isValidStandardWebPartType (text (standardWebPart options))) then
    Failed (text (standardWebPart options)
            ++ " is not a valid standard web part type")%string
  else if Js.truthy_str (webPartProperties options)
          && Js.truthy_str (opt_webPartData options) then
    Failed "Specify webPartProperties or webPartData but not both"
  else
    match (if Js.truthy_str (webPartProperties options)
           then JSON_parse (text (webPartProperties options))
           else Ok JsNull) with
    | inl e =>
        Failed (malformedProperties (text (webPartProperties options)) e)
    | inr _ =>
        match (if Js.truthy_str (opt_webPartData options)
               then JSON_parse (text (opt_webPartData options))
               else Ok JsNull) with
        | inl e =>
            Failed (malformedData (text (opt_webPartData options)) e)
        | inr _ =>
            if Js.truthy (section options)
               && (negb (isNumber (Js.or_default (section options) 0))
                   || (Js.or_default (section options) 0 <? 1)) then
              Failed "The value of parameter section must be 1 or higher"
            else if Js.truthy (column options)
                    && (negb (isNumber (Js.or_default (column options) 0))
                        || (Js.or_default (column options) 0 <? 1)) then
              Failed "The value of parameter column must be 1 or higher"
            else isValidSharePointUrl (webUrl options)
        end
    end.

(** The checks of [validate] that come before the two [JSON.parse]
    attempts, on their own. *)
Definition optionChecks (options : Options) : Validation :=
  if negb (Js.truthy_str (standardWebPart options))
     && negb (Js.truthy_str (opt_webPartId options)) then
    Failed "Specify either the standardWebPart or the webPartId option"
  else if Js.truthy_str (standardWebPart options)
          && Js.truthy_str (opt_webPartId options) then
    Failed "Specify either the standardWebPart or the webPartId option but not both"
  else if Js.truthy_str (opt_webPartId options)
          && negb (isValidGuid (text (opt_webPartId options))) then
    Failed ("The webPartId '" ++ text (opt_webPartId options)
            ++ "' is not a valid GUID")%string
  else if Js.truthy_str (standardWebPart options)
          && negb (isValidStandardWebPartType (text (standardWebPart options))) then
    Failed (text (standardWebPart options)
            ++ " is not a valid standard web part type")%string
  else if Js.truthy_str (webPartProperties options)
          && Js.truthy_str (opt_webPartData options) then
    Failed "Specify webPartProperties or webPartData but not both"
  else Passed.

(** [pageFullName] : [.aspx] is added unless it occurs in the name. *)
Definition pageFullName (options : Options) : string :=
  if Js.str_indexOf ".aspx" (pageName options) <? 0
  then (pageName options ++ ".aspx")%string
  else pageName options.

Definition pageUrl (options : Options) (rest : string) : string :=
  (webUrl options ++ "/_api/sitepages/pages/GetByUrl('sitepages/"
   ++ encodeURIComponent (pageFullName options) ++ "')" ++ rest)%string.

Definition fetchRequest (options : Options) : Request :=
  GET (pageUrl options "?$select=CanvasContent1,IsPageCheckedOutToCurrentUser").

Definition checkoutRequest (options : Options) : Request :=
  POST (pageUrl options "/checkoutpage") None.

Definition catalogRequest (options : Options) : Request :=
  GET (webUrl options ++ "/_api/web/getclientsidewebparts()")%string.

Definition saveRequest (options : Options) (canvasContent : Layout) : Request :=
  POST (pageUrl options "/savepage") (Some canvasContent).

(** [JSON.parse(res.CanvasContent1 || "[{controlType: 0, pageSettingsSlice:
    ...}]")] : an empty field stands for the lone page-settings entry. *)
Definition pageSettings : Control :=
  mkControl (Some 0) None None None None None None
    (FCons "pageSettingsSlice"
       (JsObj (FCons "isDefaultDescription" (JsBool true)
                 (FCons "isDefaultThumbnail" (JsBool true) FNil))) FNil).

Definition parsedCanvas (CanvasContent1 : option Layout) : Layout :=
  match CanvasContent1 with
  | Some l => l
  | None => [pageSettings]
  end.

Definition commandAction (service : Responses) (options : Options) : Chain unit :=
  res <- request (fetchRequest options) (page service) ;;
  let canvasContent := parsedCanvas (fst res) in
  _ <- (if snd res then resolve tt
        else request (checkoutRequest options) (checkoutpage service)) ;;
  webPart <- request (catalogRequest options) (clientSideWebPart service) ;;
  webPart' <- settle (Payload.setWebPartProperties JSON_parse webPart options) ;;
  edited <- settle (Editor.editLayout canvasContent options webPart') ;;
  request (saveRequest options edited) (savepage service).

(** Modelled from the spec: the command dispatcher is not part of the
    sources; it "parses CLI arguments into a validated options object"
    and then invokes the command, so the action runs only on options
    that passed [validate]. *)
Definition invoke (service : Responses) (options : Options) : Chain unit :=
  match validate options with
  | Passed => commandAction service options
  | Failed msg => settle (Rejected msg)
  end.

End WithCollaborators.

End Command.

(** Modelled from the spec: the service is an external collaborator whose
    [persistLayout] is a full replace and whose [checkoutPage] marks the
    page; this is the stored page as the requests of a run change it. *)
Record Stored : Type := mkStored {
  storedCanvas : option Layout;
  checkedOut : bool
}.

Definition isSave (r : Request) : bool :=
  match r with
  | POST _ (Some _) => true
  | _ => false
  end.

Definition serve (s : Stored) (r : Request) : Stored :=
  match r with
  | GET _ => s
  | POST _ None => mkStored (storedCanvas s) true
  | POST _ (Some l) => mkStored (Some l) (checkedOut s)
  end.

Definition serveAll (s : Stored) (issued : list Request) : Stored :=
  fold_left serve issued s.

(** ** Sequences and sample data used in the statements *)

(** [i, i+1, ..., i+n-1]. *)
Fixpoint countFrom (i : Z) (n : nat) : list Z :=
  match n with
  | O => []
  | S m => i :: countFrom (i + 1) m
  end.

Module Sample.

(** [{ controlType: 0 }] : a page-settings entry without a slice. *)
Definition settingsOnly : Control :=
  mkControl (Some 0) None None None None None None FNil.

(** A web part of type 3 at the given place. *)
Definition part (zone col ci : Z) : Control :=
  mkControl (Some 3) (Some 2) (Some (JsStr "old")) (Some (mkPosition zone col 12 1 ci))
    (Some (JsStr "old-part")) (Some FNil) (Some FNil) FNil.

Definition webPart : WebPart :=
  mkWebPart (Some (JsStr "89c644b3-f69c-4e84-85d7-dfa04c6163b5"))
    (FCons "dataVersion" (JsStr "1.0")
       (FCons "instanceId" (JsStr "89c644b3-f69c-4e84-85d7-dfa04c6163b5")
          (FCons "properties" (JsObj FNil) FNil)))
    (JsStr "e377ea37-9047-43b9-8cdb-a761be2f8e09").

Definition options : Options :=
  mkOptions "home" "https://contoso.sharepoint.com/sites/team-a"
    None None (Some "e377ea37-9047-43b9-8cdb-a761be2f8e09") None None None None.

(** The same invocation with [--webPartProperties] given an empty text. *)
Definition emptyProperties : Options :=
  mkOptions "home" "https://contoso.sharepoint.com/sites/team-a"
    None None (Some "e377ea37-9047-43b9-8cdb-a761be2f8e09") (Some "") None None None.

(** A parser that knows the empty object only. *)
Definition parseEmptyObject (s : string) : Result JsValue :=
  if (s =? "{}")%string then Ok (JsObj FNil)
  else Rejected "SyntaxError: Unexpected end of JSON input".

Definition plain (s : string) : string := s.

Definition anyGuid (s : string) : bool := true.

Definition anyUrl (s : string) : Validation := Passed.

(** A service that answers every request, for a page that is checked out. *)
Definition service (CanvasContent1 : option Layout) : Responses :=
  mkResponses (Ok (CanvasContent1, true)) (Ok tt) (Ok webPart) (Ok tt).

End Sample.

(** ** The web part catalogue ([getWebPart]) *)

(** How a promise made with [new Promise] ends: [resolve] was called,
    [reject] was called, or neither of them. *)
Inductive Settlement (A : Type) : Type :=
| Resolved (a : A)
| RejectedWith (msg : string)
| Unsettled.

Arguments Resolved {A} a.
Arguments RejectedWith {A} msg.
Arguments Unsettled {A}.

(** The two fields of a [ClientSidePageComponent] that the command reads. *)
Record ClientSidePageComponent : Type := mkComponent {
  Id : string;
  Manifest : string
}.

Module Catalog.

(** [s.replace(/^\{|\}$/g, "")] : an opening brace at the start and a
    closing brace at the end are dropped. *)
Definition dropLeading (s : string) : string :=
  match s with
  | String "{"%char r => r
  | _ => s
  end.

Fixpoint dropTrailing (s : string) : string :=
  match s with
  | EmptyString => EmptyString
  | String a EmptyString => if Ascii.eqb a "}"%char then EmptyString else s
  | String a r => String a (dropTrailing r)
  end.

Definition stripBraces (s : string) : string := dropTrailing (dropLeading s).

(** The names of the own properties of an object, in order. *)
Fixpoint keys (o : JsFields) : list string :=
  match o with
  | FNil => []
  | FCons k _ r => k :: keys r
  end.

(** [base.k] for a property name that is not an array index; the outer
    [None] is the [TypeError] of reading a property of [undefined] or
    [null], the inner one is [undefined]. *)
Definition get (base : option JsValue) (k : string) : option (option JsValue) :=
  match base with
  | None | Some JsNull => None
  | Some (JsObj o) => Some (Payload.lookup k o)
  | Some (JsArr a) =>
      Some (if (k =? "length")%string then Some (JsNum (Payload.items_length a)) else None)
  | Some (JsStr s) =>
      Some (if (k =? "length")%string then Some (JsNum (Z.of_nat (String.length s)))
            else None)
  | Some (JsBool _) | Some (JsNum _) => Some None
  end.

(** [base[0]]. *)
Definition first (base : option JsValue) : option (option JsValue) :=
  match base with
  | None | Some JsNull => None
  | Some (JsObj o) => Some (Payload.lookup "0" o)
  | Some (JsArr INil) => Some None
  | Some (JsArr (ICons v _)) => Some (Some v)
  | Some (JsStr EmptyString) => Some None
  | Some (JsStr (String a _)) => Some (Some (JsStr (String a EmptyString)))
  | Some (JsBool _) | Some (JsNum _) => Some None
  end.

(** A property of an object literal; one whose value is [undefined] is left
    out, as it is when the literal is serialised. *)
Definition field (k : string) (v : option JsValue) (rest : JsFields) : JsFields :=
  match v with
  | Some x => FCons k x rest
  | None => rest
  end.

(** An exception inside the [then] callback leaves the outer promise
    without [resolve] or [reject]. *)
Definition orThrow {A B} (o : option A) (k : A -> Settlement B) : Settlement B :=
  match o with
  | Some a => k a
  | None => Unsettled
  end.

Definition notAvailable (webPartId : option string) : string :=
  ("There is no available WebPart with Id " ++ Command.text webPartId ++ ".")%string.

Section WithCollaborators.

Variable JSON_parse : string -> Result JsValue.
Variable toLowerCase : string -> string.

(** [StandardWebPartUtils.getWebPartId], on the names [validate] lets through. *)
Variable getWebPartId : string -> string.

(** [standardWebPart ? getWebPartId(standardWebPart) : args.options.webPartId]. *)
Definition requestedId (options : Options) : option string :=
  if Js.truthy_str (standardWebPart options)
  then Some (getWebPartId (Command.text (standardWebPart options)))
  else opt_webPartId options.

(** The filter over [res.value]. *)
Definition isMatch (webPartId : string) (c : ClientSidePageComponent) : bool :=
  (toLowerCase (Id c) =? toLowerCase webPartId)%string
  || (toLowerCase (Id c) =? "{" ++ toLowerCase webPartId ++ "}")%string.

Definition componentId (c : ClientSidePageComponent) : string :=
  toLowerCase (stripBraces (Id c)).

(** The instance made from a component; [id] is the value of [v4()]. *)
Definition instantiate (id : string) (component : ClientSidePageComponent)
  : Settlement WebPart :=
  match JSON_parse (Manifest component) with
  | inl _ => Unsettled
  | inr manifest =>
      orThrow (get (Some manifest) "preconfiguredEntries") (fun entries =>
      orThrow (first entries) (fun preconfiguredEntries =>
      orThrow (get preconfiguredEntries "description") (fun description =>
      orThrow (get description "default") (fun descriptionDefault =>
      orThrow (get preconfiguredEntries "properties") (fun properties =>
      orThrow (get preconfiguredEntries "title") (fun title =>
      orThrow (get title "default") (fun titleDefault =>
        Resolved
          (mkWebPart (Some (JsStr id))
             (FCons "dataVersion" (JsStr "1.0")
                (field "description" descriptionDefault
                   (FCons "id" (JsStr (componentId component))
                      (FCons "instanceId" (JsStr id)
                         (field "properties" properties
                            (field "title" titleDefault FNil))))))
             (JsStr (componentId component))))))))))
  end.

(** [getWebPart] after its request: [answer] is [res.value] or the
    rejection of the request. *)
Definition getWebPart (answer : Result (list ClientSidePageComponent)) (id : string)
           (options : Options) : Settlement WebPart :=
  match answer with
  | inl error => RejectedWith error
  | inr value =>
      match requestedId options with
      | None =>
          match value with
          | [] => RejectedWith (notAvailable None)
          | _ :: _ => Unsettled
          end
      | Some webPartId =>
          match filter (isMatch webPartId) value with
          | [] => RejectedWith (notAvailable (Some webPartId))
          | component :: _ => instantiate id component
          end
      end
  end.

End WithCollaborators.

End Catalog.

Module CatalogSample.

(** A parser that knows one manifest. *)
Definition parseManifest (s : string) : Result JsValue :=
  if (s =? "manifest")%string then
    Ok (JsObj
          (FCons "preconfiguredEntries"
             (JsArr
                (ICons
                   (JsObj
                      (FCons "title" (JsObj (FCons "default" (JsStr "Bing maps") FNil))
                         (FCons "description"
                            (JsObj (FCons "default" (JsStr "Display a map") FNil))
                            (FCons "properties" (JsObj (FCons "zoom" (JsNum 12) FNil))
                               FNil))))
                   INil))
             FNil))
  else Rejected "SyntaxError: Unexpected token".

Definition bingMap : ClientSidePageComponent :=
  mkComponent "{e377ea37-9047-43b9-8cdb-a761be2f8e09}" "manifest".

Definition broken : ClientSidePageComponent :=
  mkComponent "e377ea37-9047-43b9-8cdb-a761be2f8e09" "{".

Definition noStandard (s : string) : string := s.

(** A parser that knows [null] only. *)
Definition parseNull (s : string) : Result JsValue :=
  if (s =? "null")%string then Ok JsNull
  else Rejected "SyntaxError: Unexpected token".

End CatalogSample.

(** The controls that are not in the given column. *)
Definition outsideColumn (zone : option Z) (col : Z) (c : Control) : bool :=
  negb (Editor.inColumn zone col c).

(** A control of the column moved one place down, any other left alone. *)
Definition shiftInColumn (zone : option Z) (col : Z) (c : Control) : Control :=
  if Editor.inColumn zone col c
  then Editor.setControlIndex (Editor.ciOf c + 1) c
  else c.

(** ** The order of the properties of a merged object *)

Definition isIndex (k : string) : bool :=
  match Js.arrayIndex k with
  | Some _ => true
  | None => false
  end.

(** Names in the order [Object.getOwnPropertyNames] gives: the array
    indices, ascending from [lo] on, and only other names after them. *)
Fixpoint ascendingFrom (lo : Z) (ks : list string) : bool :=
  match ks with
  | [] => true
  | k :: r =>
      match Js.arrayIndex k with
      | Some i => (lo <=? i) && ascendingFrom (i + 1) r
      | None => forallb (fun k' => negb (isIndex k')) r
      end
  end.

Definition propertyOrder (o : JsFields) : bool := ascendingFrom 0 (Catalog.keys o).

(** The names of an object that are not array indices, in order. *)
Definition otherNames (o : JsFields) : list string :=
  filter (fun k => negb (isIndex k)) (Catalog.keys o).

(** The names [extend] creates on the target after the ones it has: those
    of the source that are neither an index, nor a name of the target,
    nor [__proto__]. *)
Definition created (target source : JsFields) : list string :=
  filter (fun k => negb (isIndex k) && negb (Payload.has k target)
                   && negb (k =? "__proto__")%string)
         (Catalog.keys source).

(** What holds of the target and of what is left of the source all along
    the [reduce] of [extend] : the names of the source are distinct, and
    the target inherits from [Object.prototype] until [__proto__] is
    assigned. *)
Definition untouched (t : Payload.Obj) (source : JsFields) : Prop :=
  NoDup (Catalog.keys source) /\
  (Payload.proto t = Payload.ObjectPrototype \/ ~ In "__proto__" (Catalog.keys source)).

Module PayloadSample.

Definition quoted (s : string) : string :=
  String (ascii_of_nat 34) (s ++ String (ascii_of_nat 34) "")%string.

(** [{"1":"x","zoom":3,"__proto__":{"instanceId":"other"}}] *)
Definition propertiesText : string :=
  ("{" ++ quoted "1" ++ ":" ++ quoted "x" ++ "," ++ quoted "zoom" ++ ":3,"
   ++ quoted "__proto__" ++ ":{" ++ quoted "instanceId" ++ ":" ++ quoted "other"
   ++ "}}")%string.

Definition properties : JsFields :=
  FCons "1" (JsStr "x")
    (FCons "zoom" (JsNum 3)
       (FCons "__proto__" (JsObj (FCons "instanceId" (JsStr "other") FNil)) FNil)).

(** [{"instanceId":"caller","title":"Mine"}] *)
Definition dataText : string :=
  ("{" ++ quoted "instanceId" ++ ":" ++ quoted "caller" ++ ","
   ++ quoted "title" ++ ":" ++ quoted "Mine" ++ "}")%string.

Definition data : JsFields :=
  FCons "instanceId" (JsStr "caller") (FCons "title" (JsStr "Mine") FNil).

(** [{"__proto__":{"instanceId":"inherited"}}] *)
Definition inheritedText : string :=
  ("{" ++ quoted "__proto__" ++ ":{" ++ quoted "instanceId" ++ ":"
   ++ quoted "inherited" ++ "}}")%string.

Definition inherited : JsFields :=
  FCons "__proto__" (JsObj (FCons "instanceId" (JsStr "inherited") FNil)) FNil.

(** A parser that knows these three texts. *)
Definition parse (s : string) : Result JsValue :=
  if (s =? propertiesText)%string then Ok (JsObj properties)
  else if (s =? dataText)%string then Ok (JsObj data)
  else if (s =? inheritedText)%string then Ok (JsObj inherited)
  else Rejected "SyntaxError: Unexpected token".

(** [--webPartProperties] with the first text. *)
Definition propertiesOnly : Options :=
  mkOptions "home" "https://contoso.sharepoint.com/sites/team-a"
    None None (Some "e377ea37-9047-43b9-8cdb-a761be2f8e09")
    (Some propertiesText) None None None.

(** [--webPartData] with the second text. *)
Definition dataOnly : Options :=
  mkOptions "home" "https://contoso.sharepoint.com/sites/team-a"
    None (Some dataText) (Some "e377ea37-9047-43b9-8cdb-a761be2f8e09")
    None None None None.

(** A web part whose payload has no [instanceId]. *)
Definition bare : WebPart :=
  mkWebPart None (FCons "dataVersion" (JsStr "1.0") FNil)
    (JsStr "e377ea37-9047-43b9-8cdb-a761be2f8e09").

Definition inheriting : Options :=
  mkOptions "home" "https://contoso.sharepoint.com/sites/team-a"
    None (Some inheritedText) (Some "e377ea37-9047-43b9-8cdb-a761be2f8e09")
    None None None None.

End PayloadSample.

(** * Properties *)

(** ** Arrays *)

Module JsFacts.

Lemma findIndex_lower {A} (p : A -> bool) (arr : list A) :
  -1 <= Js.findIndex p arr.
Proof.
  induction arr as [|x r IH]; simpl; [lia|].
  destruct (p x); [lia|].
  destruct (Js.findIndex p r <? 0) eqn:E; [lia|].
  apply Z.ltb_ge in E. lia.
Qed.

Lemma findIndex_none {A} (p : A -> bool) (arr : list A) :
  Js.findIndex p arr = -1 <-> forall x, In x arr -> p x = false.
Proof.
  induction arr as [|x r IH]; simpl.
  - split; [intros _ y []|reflexivity].
  - destruct (p x) eqn:Px.
    + split; [lia|]. intros H. rewrite (H x) in Px by auto. discriminate.
    + pose proof (findIndex_lower p r) as L.
      destruct (Js.findIndex p r <? 0) eqn:E.
      * apply Z.ltb_lt in E. split; [|reflexivity].
        intros _ y [<-|Hy]; [assumption|]. apply IH; [lia|assumption].
      * apply Z.ltb_ge in E. split; [lia|].
        intros H. assert (Js.findIndex p r = -1) by (apply IH; auto). lia.
Qed.

(** A hit splits the array at the first element that satisfies [p]. *)
Lemma findIndex_found {A} (p : A -> bool) (arr : list A) :
  Js.findIndex p arr <> -1 ->
  exists pre a post,
    arr = pre ++ a :: post /\
    Js.findIndex p arr = Z.of_nat (List.length pre) /\
    p a = true /\
    (forall x, In x pre -> p x = false).
Proof.
  induction arr as [|x r IH]; simpl; [congruence|].
  destruct (p x) eqn:Px.
  - intros _. exists [], x, r. repeat split; auto. intros y [].
  - pose proof (findIndex_lower p r) as L.
    destruct (Js.findIndex p r <? 0) eqn:E; [congruence|].
    apply Z.ltb_ge in E. intros _.
    destruct IH as (pre & a & post & -> & Hi & Pa & Hpre); [lia|].
    exists (x :: pre), a, post. repeat split; auto.
    + simpl List.length. rewrite Hi. lia.
    + intros y [<-|Hy]; auto.
Qed.

Lemma findIndex_exists {A} (p : A -> bool) (arr : list A) (x : A) :
  In x arr -> p x = true -> Js.findIndex p arr <> -1.
Proof.
  intros Hin Px H. rewrite findIndex_none in H.
  rewrite (H x Hin) in Px. discriminate.
Qed.

Lemma index_app_middle {A} (pre post : list A) (a : A) :
  Js.index (pre ++ a :: post) (Z.of_nat (List.length pre)) = Some a.
Proof.
  unfold Js.index.
  destruct (Z.of_nat (List.length pre) <? 0) eqn:E;
    [apply Z.ltb_lt in E; lia|].
  rewrite Nat2Z.id, nth_error_app2 by lia.
  now rewrite Nat.sub_diag.
Qed.

Lemma index_split {A} (arr : list A) (i : Z) (a : A) :
  Js.index arr i = Some a ->
  exists pre post, arr = pre ++ a :: post /\ i = Z.of_nat (List.length pre).
Proof.
  unfold Js.index. destruct (i <? 0) eqn:E; [discriminate|].
  apply Z.ltb_ge in E. intros H.
  destruct (nth_error_split _ _ H) as (pre & post & -> & Hlen).
  exists pre, post. split; [reflexivity|lia].
Qed.

(** Inserting one element: the array is cut at some position. *)
Lemma splice_insert {A} (start : Z) (x : A) (arr : list A) :
  exists pre post, arr = pre ++ post /\
                   Js.splice start 0 [x] arr = pre ++ x :: post.
Proof.
  unfold Js.splice.
  set (len := Z.of_nat (List.length arr)).
  set (from := if start <? 0 then Z.max (len + start) 0 else Z.min start len).
  assert (Hdel : Z.min (Z.max 0 0) (len - from) = 0).
  { subst from. destruct (start <? 0) eqn:E; [|apply Z.ltb_ge in E]; lia. }
  rewrite Hdel, Z.add_0_r.
  exists (firstn (Z.to_nat from) arr), (skipn (Z.to_nat from) arr).
  split; [now rewrite firstn_skipn|reflexivity].
Qed.

Lemma splice_insert_at {A} (pre post : list A) (x : A) :
  Js.splice (Z.of_nat (List.length pre)) 0 [x] (pre ++ post) = pre ++ x :: post.
Proof.
  unfold Js.splice. rewrite length_app.
  destruct (Z.of_nat (List.length pre) <? 0) eqn:E;
    [apply Z.ltb_lt in E; lia|].
  replace (Z.min (Z.of_nat (List.length pre)) _) with (Z.of_nat (List.length pre)) by lia.
  replace (Z.min (Z.max 0 0) _) with 0 by lia.
  rewrite Z.add_0_r, Nat2Z.id.
  rewrite firstn_app, firstn_all, Nat.sub_diag, firstn_0, app_nil_r.
  rewrite skipn_app, skipn_all, Nat.sub_diag. reflexivity.
Qed.

Lemma splice_replace_at {A} (pre post : list A) (a x : A) :
  Js.splice (Z.of_nat (List.length pre)) 1 [x] (pre ++ a :: post) = pre ++ x :: post.
Proof.
  unfold Js.splice. rewrite length_app. simpl List.length.
  destruct (Z.of_nat (List.length pre) <? 0) eqn:E;
    [apply Z.ltb_lt in E; lia|].
  replace (Z.min (Z.of_nat (List.length pre)) _) with (Z.of_nat (List.length pre)) by lia.
  replace (Z.min (Z.max 1 0) _) with 1 by lia.
  replace (Z.to_nat (Z.of_nat (List.length pre) + 1)) with (S (List.length pre)) by lia.
  rewrite Nat2Z.id.
  rewrite firstn_app, firstn_all, Nat.sub_diag, firstn_0, app_nil_r.
  rewrite skipn_app, skipn_all2 by lia.
  replace (S (List.length pre) - List.length pre)%nat with 1%nat by lia.
  reflexivity.
Qed.

(** The numeric sort permutes its input and leaves it ascending. *)
Lemma insert_num_perm (x : Z) (l : list Z) : Permutation (x :: l) (Js.insert_num x l).
Proof.
  induction l as [|y r IH]; simpl; [reflexivity|].
  destruct (x <=? y); [reflexivity|].
  rewrite perm_swap. now apply perm_skip.
Qed.

Lemma sort_num_perm (l : list Z) : Permutation l (Js.sort_num l).
Proof.
  induction l as [|x r IH]; simpl; [constructor|].
  rewrite <- insert_num_perm. now apply perm_skip.
Qed.

Lemma insert_num_sorted (x : Z) (l : list Z) :
  StronglySorted Z.le l -> StronglySorted Z.le (Js.insert_num x l).
Proof.
  induction l as [|y r IH]; simpl; intros S.
  - repeat constructor.
  - inversion S as [|? ? Sr Hall]; subst.
    destruct (x <=? y) eqn:E.
    + apply Z.leb_le in E. constructor; [assumption|].
      constructor; [lia|].
      eapply Forall_impl; [|exact Hall]. simpl. intros; lia.
    + apply Z.leb_gt in E. constructor; [auto|].
      eapply Permutation_Forall; [apply insert_num_perm|].
      constructor; [lia|assumption].
Qed.

Lemma sort_num_sorted (l : list Z) : StronglySorted Z.le (Js.sort_num l).
Proof.
  induction l as [|x r IH]; simpl; [constructor|].
  now apply insert_num_sorted.
Qed.

Lemma sort_num_length (l : list Z) : List.length (Js.sort_num l) = List.length l.
Proof. symmetry. apply Permutation_length, sort_num_perm. Qed.

Lemma sort_num_In (l : list Z) (x : Z) : In x (Js.sort_num l) <-> In x l.
Proof.
  split; apply Permutation_in; [symmetry|]; apply sort_num_perm.
Qed.

(** What [pop] takes off a sorted array is a maximum. *)
Lemma sorted_last_max (l : list Z) (m : Z) :
  StronglySorted Z.le l -> Js.pop l = Some m ->
  In m l /\ forall x, In x l -> x <= m.
Proof.
  unfold Js.pop. intros S H.
  destruct (rev l) as [|y r] eqn:E; [discriminate|].
  injection H as ->.
  assert (Hl : l = rev r ++ [m]).
  { rewrite <- (rev_involutive l), E. reflexivity. }
  subst l. split; [apply in_or_app; right; left; reflexivity|].
  clear E. induction (rev r) as [|z t IH]; simpl in *.
  - intros x [<-|[]]. lia.
  - inversion S as [|? ? St Hall]; subst.
    intros x [<-|Hx]; [|now apply IH].
    rewrite Forall_forall in Hall. apply Hall.
    apply in_or_app; right; left; reflexivity.
Qed.

Lemma pop_nonempty {A} (l : list A) : l <> [] -> exists m, Js.pop l = Some m.
Proof.
  unfold Js.pop. intros H. destruct (rev l) as [|y r] eqn:E.
  - destruct l as [|x t]; [congruence|].
    apply (f_equal (@List.length A)) in E. rewrite length_rev in E. discriminate.
  - eauto.
Qed.

Lemma index_In {A} (l : list A) (i : Z) (x : A) : Js.index l i = Some x -> In x l.
Proof.
  unfold Js.index. destruct (i <? 0); [discriminate|]. apply nth_error_In.
Qed.

Lemma index_in_range {A} (l : list A) (i : Z) :
  0 <= i < Z.of_nat (List.length l) -> exists x, Js.index l i = Some x.
Proof.
  intros H. unfold Js.index.
  destruct (i <? 0) eqn:E; [apply Z.ltb_lt in E; lia|].
  destruct (nth_error l (Z.to_nat i)) eqn:N; [eauto|].
  apply nth_error_None in N. lia.
Qed.

Lemma index_out_of_range {A} (l : list A) (i : Z) :
  i < 0 \/ Z.of_nat (List.length l) <= i -> Js.index l i = None.
Proof.
  intros H. unfold Js.index.
  destruct (i <? 0) eqn:E; [reflexivity|]. apply Z.ltb_ge in E.
  apply nth_error_None. lia.
Qed.

End JsFacts.

(** ** The de-duplication of [zoneIndex] values *)

Module ZoneFacts.
Import JsFacts.

Lemma findIndex_first {A} (p : A -> bool) (pre post : list A) (a : A) :
  (forall x, In x pre -> p x = false) -> p a = true ->
  Js.findIndex p (pre ++ a :: post) = Z.of_nat (List.length pre).
Proof.
  induction pre as [|x r IH]; simpl; intros Hpre Pa.
  - now rewrite Pa.
  - rewrite (Hpre x) by auto. rewrite IH by auto.
    destruct (Z.of_nat (List.length r) <? 0) eqn:E;
      [apply Z.ltb_lt in E|]; lia.
Qed.

Lemma findIndex_early {A} (p : A -> bool) (pre post : list A) (y : A) :
  In y pre -> p y = true ->
  0 <= Js.findIndex p (pre ++ post) < Z.of_nat (List.length pre).
Proof.
  induction pre as [|x r IH]; simpl; intros Hin Py; [contradiction|].
  destruct (p x) eqn:Px; [lia|].
  destruct Hin as [->|Hin]; [congruence|].
  specialize (IH Hin Py).
  destruct (Js.findIndex p (r ++ post) <? 0) eqn:E;
    [apply Z.ltb_lt in E|]; lia.
Qed.

(** An element survives the filter when it did not occur before. *)
Lemma keeps_first_occurrence (pre post : list Z) (x : Z) :
  (Js.indexOf x (pre ++ x :: post) =? Z.of_nat (List.length pre)) = true
  <-> ~ In x pre.
Proof.
  unfold Js.indexOf. rewrite Z.eqb_eq. split.
  - intros H Hin.
    pose proof (findIndex_early (Z.eqb x) pre (x :: post) x Hin (Z.eqb_refl x)).
    lia.
  - intros Hn. apply findIndex_first; [|apply Z.eqb_refl].
    intros y Hy. apply Z.eqb_neq. intros ->. contradiction.
Qed.

Lemma filteri_from_distinct (all : list Z) :
  forall post pre, all = pre ++ post ->
    let kept := Js.filteri_from (Z.of_nat (List.length pre))
                  (fun value index => Js.indexOf value all =? index) post in
    (forall x, In x kept <-> In x post /\ ~ In x pre) /\ NoDup kept.
Proof.
  induction post as [|x r IH]; intros pre Hall; simpl.
  - split; [intros x; tauto|constructor].
  - assert (Hall' : all = (pre ++ [x]) ++ r) by (now rewrite <- app_assoc).
    specialize (IH (pre ++ [x]) Hall').
    rewrite length_app in IH. simpl List.length in IH.
    replace (Z.of_nat (List.length pre + 1)) with (Z.of_nat (List.length pre) + 1) in IH by lia.
    simpl in IH. destruct IH as [IHin IHnd].
    assert (Hin' : forall y, In y (pre ++ [x]) <-> In y pre \/ y = x).
    { intros y. rewrite in_app_iff. simpl. intuition. }
    destruct (Js.indexOf x all =? Z.of_nat (List.length pre)) eqn:K.
    + rewrite Hall in K. apply keeps_first_occurrence in K. split.
      * intros y. simpl. rewrite IHin, Hin'. split.
        -- intros [<-|[Hr Hn]]; [tauto|]. split; [tauto|]. intros Hp. apply Hn. tauto.
        -- intros [[<-|Hr] Hn]; [tauto|].
           destruct (Z.eq_dec x y) as [->|Hne]; [tauto|].
           right. split; [assumption|]. intros [?|?]; [tauto|congruence].
      * constructor; [|assumption]. rewrite IHin, Hin'. tauto.
    + assert (Hx : In x pre).
      { destruct (in_dec Z.eq_dec x pre) as [Hi|Hn]; [assumption|].
        rewrite Hall in K. apply (keeps_first_occurrence pre r x) in Hn. congruence. }
      split; [|assumption].
      intros y. rewrite IHin, Hin'. split.
      * intros [Hr Hn]. split; [tauto|]. tauto.
      * intros [[<-|Hr] Hn]; [contradiction|]. split; [assumption|].
        intros [? | ->]; contradiction.
Qed.

Lemma zonesOf_In (l : Layout) (z : Z) :
  In z (Editor.zonesOf l) <->
  exists c p, In c l /\ position c = Some p /\ zoneIndex p = z.
Proof.
  induction l as [|c r IH]; simpl.
  - split; [intros []|intros (? & ? & [] & _)].
  - destruct (position c) as [p|] eqn:P; simpl; rewrite ?IH; split.
    + intros [<-|(c' & p' & Hin & Hp & Hz)]; [exists c, p; auto|exists c', p'; auto].
    + intros (c' & p' & [<-|Hin] & Hp & Hz).
      * left. congruence.
      * right. exists c', p'; auto.
    + intros (c' & p' & Hin & Hp & Hz). exists c', p'; auto.
    + intros (c' & p' & [<-|Hin] & Hp & Hz); [congruence|]. exists c', p'; auto.
Qed.

(** [zoneIndices] holds exactly the [zoneIndex] values of the controls
    with a position, each once, in ascending order. *)
Lemma zoneIndices_In (l : Layout) (z : Z) :
  In z (Editor.zoneIndices l) <->
  exists c p, In c l /\ position c = Some p /\ zoneIndex p = z.
Proof.
  unfold Editor.zoneIndices. rewrite sort_num_In, <- zonesOf_In.
  destruct (filteri_from_distinct (Editor.zonesOf l) (Editor.zonesOf l) [] eq_refl)
    as [Hin _].
  unfold Js.filteri. simpl in Hin. rewrite Hin. simpl. tauto.
Qed.

Lemma zoneIndices_NoDup (l : Layout) : NoDup (Editor.zoneIndices l).
Proof.
  unfold Editor.zoneIndices.
  eapply Permutation_NoDup; [apply sort_num_perm|].
  destruct (filteri_from_distinct (Editor.zonesOf l) (Editor.zonesOf l) [] eq_refl)
    as [_ Hnd].
  exact Hnd.
Qed.

Lemma sorted_distinct_strict (l : list Z) :
  StronglySorted Z.le l -> NoDup l -> StronglySorted Z.lt l.
Proof.
  induction 1 as [|x r S IH Hall]; intros Hnd; [constructor|].
  inversion Hnd as [|? ? Hx Hr]; subst.
  constructor; [auto|].
  rewrite Forall_forall in *. intros y Hy.
  specialize (Hall y Hy).
  assert (x <> y) by (intros ->; contradiction). lia.
Qed.

Lemma zoneIndices_ascending (l : Layout) : StronglySorted Z.lt (Editor.zoneIndices l).
Proof.
  apply sorted_distinct_strict; [apply sort_num_sorted|apply zoneIndices_NoDup].
Qed.

End ZoneFacts.

(** ** The layout editor *)

Module EditorFacts.
Import JsFacts Editor.

Lemma inColumn_setControlIndex zone col i c :
  inColumn zone col (setControlIndex i c) = inColumn zone col c.
Proof. unfold inColumn, setControlIndex. simpl. now destruct (position c). Qed.

Lemma ciOf_setControlIndex zone col i c :
  inColumn zone col c = true -> ciOf (setControlIndex i c) = i.
Proof.
  unfold inColumn, ciOf, setControlIndex. simpl.
  destruct (position c); [reflexivity|discriminate].
Qed.

Lemma inColumn_webPartControl zone col anchor webPart :
  inColumn zone col (webPartControl anchor webPart) = inColumn zone col anchor.
Proof. reflexivity. Qed.

Lemma columnControls_app zone col l1 l2 :
  columnControls zone col (l1 ++ l2)
  = columnControls zone col l1 ++ columnControls zone col l2.
Proof. apply filter_app. Qed.

(** Renumbering commutes with taking the column out of the array. *)
Lemma columnControls_renumber zone col l : forall i,
  columnControls zone col (renumber zone col i l)
  = renumber zone col i (columnControls zone col l).
Proof.
  unfold columnControls.
  induction l as [|c r IH]; intros i; [reflexivity|].
  cbn [renumber]. destruct (inColumn zone col c) eqn:E; cbn [filter].
  - rewrite inColumn_setControlIndex, E. cbn [renumber]. rewrite E.
    f_equal. apply IH.
  - rewrite E. apply IH.
Qed.

Lemma renumber_indices zone col l : forall i,
  map ciOf (columnControls zone col (renumber zone col i l))
  = countFrom i (List.length (columnControls zone col l)).
Proof.
  unfold columnControls.
  induction l as [|c r IH]; intros i; [reflexivity|].
  cbn [renumber]. destruct (inColumn zone col c) eqn:E; cbn [filter].
  - rewrite inColumn_setControlIndex, E. cbn [map List.length countFrom].
    rewrite (ciOf_setControlIndex zone col) by assumption. f_equal. apply IH.
  - rewrite E. apply IH.
Qed.

Lemma renumber_length zone col l : forall i,
  List.length (renumber zone col i l) = List.length l.
Proof.
  induction l as [|c r IH]; intros i; [reflexivity|].
  cbn [renumber]. destruct (inColumn zone col c); cbn [List.length]; now rewrite IH.
Qed.

Lemma In_countFrom n : forall i v,
  In v (countFrom i n) <-> i <= v < i + Z.of_nat n.
Proof.
  induction n as [|m IH]; intros i v; simpl countFrom.
  - simpl. lia.
  - simpl In. rewrite IH. lia.
Qed.

(** A successful column resolution names the first control of the column. *)
Lemma resolveColumn_Ok l zone requested i :
  resolveColumn l zone requested = Ok i ->
  exists pre anchor post,
    l = pre ++ anchor :: post /\
    i = Z.of_nat (List.length pre) /\
    inColumn zone (Js.or_default requested 1) anchor = true /\
    (forall c, In c pre -> inColumn zone (Js.or_default requested 1) c = false).
Proof.
  unfold resolveColumn.
  destruct (Js.findIndex _ l =? -1) eqn:E; [discriminate|].
  apply Z.eqb_neq in E. intros H. injection H as <-.
  destruct (findIndex_found _ _ E) as (pre & a & post & Hl & Hi & Pa & Hpre).
  exists pre, a, post. auto.
Qed.

Lemma resolveColumn_anchor l zone requested i anchor :
  resolveColumn l zone requested = Ok i ->
  Js.index l i = Some anchor ->
  exists pre post,
    l = pre ++ anchor :: post /\
    i = Z.of_nat (List.length pre) /\
    inColumn zone (Js.or_default requested 1) anchor = true /\
    (forall c, In c pre -> inColumn zone (Js.or_default requested 1) c = false).
Proof.
  intros HR HI.
  destruct (resolveColumn_Ok _ _ _ _ HR) as (pre & a & post & -> & -> & Pa & Hpre).
  rewrite index_app_middle in HI. injection HI as <-.
  exists pre, post. auto.
Qed.

(** In the occupied arm the new control lands somewhere in the array and
    the column is renumbered afterwards. *)
Lemma insert_occupied_shape l zone col i anchor order webPart :
  Js.index l i = Some anchor ->
  Js.truthy (controlType anchor) = true ->
  exists pre post,
    l = pre ++ post /\
    insert l zone col i order webPart
    = renumber zone col 1 (pre ++ webPartControl anchor webPart :: post).
Proof.
  intros HI HT. unfold insert. rewrite HI, HT. simpl negb. cbv iota.
  destruct (negb (Js.truthy order) || _).
  - destruct (splice_insert
                (Js.findIndex (atIndex zone col (Js.pop (controlIndices zone col l))) l + 1)
                (webPartControl anchor webPart) l) as (pre & post & Hl & Hs).
    exists pre, post. now rewrite Hs.
  - destruct (splice_insert
                (Js.findIndex (atIndex zone col
                   (Js.index (controlIndices zone col l) (Js.or_default order 0 - 1))) l)
                (webPartControl anchor webPart) l) as (pre & post & Hl & Hs).
    exists pre, post. now rewrite Hs.
Qed.

Lemma insert_occupied_indices l zone col i anchor order webPart :
  Js.index l i = Some anchor ->
  inColumn zone col anchor = true ->
  Js.truthy (controlType anchor) = true ->
  map ciOf (columnControls zone col (insert l zone col i order webPart))
  = countFrom 1 (List.length (columnControls zone col l) + 1).
Proof.
  intros HI HC HT.
  destruct (insert_occupied_shape l zone col i anchor order webPart HI HT)
    as (pre & post & -> & ->).
  rewrite renumber_indices. f_equal.
  rewrite !columnControls_app. simpl.
  rewrite inColumn_webPartControl, HC.
  rewrite !length_app. simpl. lia.
Qed.

(** The default section never hides an occupied anchor: when the first
    control of the target column is occupied, the column is the same
    before and after [ensureDefaultSection]. *)
Lemma ensureDefaultSection_column fetched zone requested i anchor :
  resolveColumn (ensureDefaultSection fetched) zone requested = Ok i ->
  Js.index (ensureDefaultSection fetched) i = Some anchor ->
  Js.truthy (controlType anchor) = true ->
  columnControls zone (Js.or_default requested 1) (ensureDefaultSection fetched)
  = columnControls zone (Js.or_default requested 1) fetched.
Proof.
  intros HR HI HT.
  destruct (resolveColumn_anchor _ _ _ _ _ HR HI) as (pre & post & Hl & _ & Pa & Hpre).
  unfold ensureDefaultSection in *.
  destruct (Nat.eqb (List.length fetched) 1); [|reflexivity].
  simpl. destruct (inColumn zone (Js.or_default requested 1) defaultSection) eqn:E;
    [|reflexivity].
  destruct pre as [|c pre'].
  - simpl in Hl. injection Hl as <- _. discriminate.
  - simpl in Hl. injection Hl as <- _.
    rewrite (Hpre defaultSection) in E by (left; reflexivity). discriminate.
Qed.

Lemma editLayout_Ok fetched options webPart zone i :
  resolveSection (ensureDefaultSection fetched) (section options) = Ok zone ->
  resolveColumn (ensureDefaultSection fetched) zone (column options) = Ok i ->
  editLayout fetched options webPart
  = Ok (insert (ensureDefaultSection fetched) zone
          (Js.or_default (column options) 1) i (order options) webPart).
Proof.
  intros HS HC. unfold editLayout. cbv zeta. rewrite HS. unfold Ok at 1.
  cbv iota beta. rewrite HC. reflexivity.
Qed.

End EditorFacts.

(** C1. After a web part is inserted into an occupied column (the anchor,
    i.e. the first control of the target column, has a truthy
    [controlType]), the [controlIndex] values of the controls of that
    column are, in array order, [1, 2, ..., k] with [k] the number of
    controls the column had plus one; as a set they are exactly [{1..k}]. *)
Theorem insert_occupied_contiguous :
  forall (fetched : Layout) (options : Options) (webPart : WebPart)
         (zone : option Z) (anchorIndex : Z) (anchor : Control),
    let canvasContent := Editor.ensureDefaultSection fetched in
    let col := Js.or_default (column options) 1 in
    Editor.resolveSection canvasContent (section options) = Ok zone ->
    Editor.resolveColumn canvasContent zone (column options) = Ok anchorIndex ->
    Js.index canvasContent anchorIndex = Some anchor ->
    Js.truthy (controlType anchor) = true ->
    exists edited,
      Editor.editLayout fetched options webPart = Ok edited /\
      let k := (List.length (Editor.columnControls zone col fetched) + 1)%nat in
      map Editor.ciOf (Editor.columnControls zone col edited) = countFrom 1 k /\
      (forall v, In v (map Editor.ciOf (Editor.columnControls zone col edited))
                 <-> 1 <= v <= Z.of_nat k).
Proof.
  intros fetched options webPart zone i anchor canvasContent col HS HC HI HT.
  subst canvasContent col.
  set (canvasContent := Editor.ensureDefaultSection fetched) in *.
  set (col := Js.or_default (column options) 1).
  exists (Editor.insert canvasContent zone col i (order options) webPart).
  split; [now apply EditorFacts.editLayout_Ok|].
  destruct (EditorFacts.resolveColumn_anchor _ _ _ _ _ HC HI)
    as (pre & post & Hl & _ & Pa & _).
  pose proof (EditorFacts.insert_occupied_indices canvasContent zone col i anchor
                (order options) webPart HI Pa HT) as Hidx.
  pose proof (EditorFacts.ensureDefaultSection_column fetched zone (column options)
                i anchor HC HI HT) as Hsame.
  fold canvasContent col in Hsame. rewrite Hsame in Hidx.
  cbv zeta. split; [exact Hidx|].
  intros v. rewrite Hidx, EditorFacts.In_countFrom. lia.
Qed.

Lemma insert_occupied_contiguous_witness :
  exists edited,
    Editor.editLayout [Sample.part 1 1 1; Sample.part 1 1 4; Sample.settingsOnly]
      (set_order (Some 1) Sample.options) Sample.webPart = Ok edited /\
    map Editor.ciOf (Editor.columnControls (Some 1) 1 edited) = [1; 2; 3].
Proof.
  destruct (insert_occupied_contiguous
              [Sample.part 1 1 1; Sample.part 1 1 4; Sample.settingsOnly]
              (set_order (Some 1) Sample.options) Sample.webPart
              (Some 1) 0 (Sample.part 1 1 1)
              eq_refl eq_refl eq_refl eq_refl) as (edited & HE & HL & _).
  exists edited. split; [exact HE|exact HL].
Defined.

(** ** Where the new control is placed *)

Module PlacementFacts.
Import JsFacts Editor EditorFacts.

Lemma atIndex_true zone col m c :
  atIndex zone col (Some m) c = true <-> inColumn zone col c = true /\ ciOf c = m.
Proof.
  unfold atIndex, inColumn, ciOf.
  destruct (position c) as [p|]; [|split; [discriminate|intros [H _]; discriminate]].
  rewrite andb_true_iff, Z.eqb_eq. tauto.
Qed.

Lemma controlIndices_length zone col l :
  List.length (controlIndices zone col l) = List.length (columnControls zone col l).
Proof. unfold controlIndices. now rewrite sort_num_length, length_map. Qed.

Lemma controlIndices_In zone col l v :
  In v (controlIndices zone col l) <->
  exists c, In c l /\ inColumn zone col c = true /\ ciOf c = v.
Proof.
  unfold controlIndices, columnControls. rewrite sort_num_In, in_map_iff. split.
  - intros (c & Hv & Hc). apply filter_In in Hc. exists c. tauto.
  - intros (c & Hin & Hc & Hv). exists c. split; [assumption|].
    apply filter_In. tauto.
Qed.

(** The first control of the column that carries a given index. *)
Lemma first_with_index zone col l v :
  In v (controlIndices zone col l) ->
  exists pre target post,
    l = pre ++ target :: post /\
    Js.findIndex (atIndex zone col (Some v)) l = Z.of_nat (List.length pre) /\
    inColumn zone col target = true /\
    ciOf target = v /\
    (forall c, In c pre -> inColumn zone col c = true -> ciOf c <> v).
Proof.
  intros Hv. apply controlIndices_In in Hv. destruct Hv as (c & Hin & Hc & Hci).
  assert (Hat : atIndex zone col (Some v) c = true) by (apply atIndex_true; auto).
  destruct (findIndex_found _ _ (findIndex_exists _ _ _ Hin Hat))
    as (pre & t & post & Hl & Hi & Pt & Hpre).
  apply atIndex_true in Pt. destruct Pt as [Pc Pv].
  exists pre, t, post. repeat split; auto.
  intros x Hx Hxc Hxv. specialize (Hpre x Hx).
  assert (atIndex zone col (Some v) x = true) by (apply atIndex_true; auto).
  congruence.
Qed.

Lemma occupied_condition zone col l anchor order :
  Js.truthy (controlType anchor) = true ->
  forall i webPart, Js.index l i = Some anchor ->
  insert l zone col i order webPart
  = renumber zone col 1
      (if negb (Js.truthy order)
          || (Js.or_default order 0 >? Z.of_nat (List.length (columnControls zone col l)))
       then Js.splice
              (Js.findIndex (atIndex zone col (Js.pop (controlIndices zone col l))) l + 1)
              0 [webPartControl anchor webPart] l
       else Js.splice
              (Js.findIndex (atIndex zone col
                 (Js.index (controlIndices zone col l) (Js.or_default order 0 - 1))) l)
              0 [webPartControl anchor webPart] l).
Proof.
  intros HT i webPart HI. unfold insert. rewrite HI, HT. cbn [negb].
  rewrite controlIndices_length. reflexivity.
Qed.

(** Appending: after the first control that carries the highest index. *)
Lemma insert_appends l zone col i anchor order webPart :
  Js.index l i = Some anchor ->
  inColumn zone col anchor = true ->
  Js.truthy (controlType anchor) = true ->
  order = None \/ order = Some 0 \/
    (exists o, order = Some o /\ Z.of_nat (List.length (columnControls zone col l)) < o) ->
  exists pre last post,
    l = pre ++ last :: post /\
    inColumn zone col last = true /\
    (forall c, In c (columnControls zone col l) -> ciOf c <= ciOf last) /\
    (forall c, In c pre -> inColumn zone col c = true -> ciOf c <> ciOf last) /\
    insert l zone col i order webPart
    = renumber zone col 1 (pre ++ last :: webPartControl anchor webPart :: post).
Proof.
  intros HI HC HT Hord.
  rewrite (occupied_condition zone col l anchor order HT i webPart HI).
  assert (Hcond : negb (Js.truthy order)
                  || (Js.or_default order 0
                        >? Z.of_nat (List.length (columnControls zone col l))) = true).
  { destruct Hord as [->|[->|(o & -> & Ho)]]; [reflexivity|reflexivity|].
    apply orb_true_iff. right. unfold Js.or_default.
    destruct (o =? 0) eqn:E; [apply Z.eqb_eq in E; lia|]. apply Z.gtb_lt. lia. }
  rewrite Hcond.
  assert (Hne : controlIndices zone col l <> []).
  { intros E. apply (f_equal (@List.length Z)) in E.
    rewrite controlIndices_length in E.
    apply index_In in HI.
    assert (In anchor (columnControls zone col l)) by (apply filter_In; auto).
    destruct (columnControls zone col l); [contradiction|discriminate]. }
  destruct (pop_nonempty _ Hne) as (m & Hm). rewrite Hm.
  destruct (sorted_last_max _ m (sort_num_sorted _) Hm) as [Hin Hmax].
  destruct (first_with_index zone col l m Hin)
    as (pre & last & post & Hl & Hi & Pc & Pv & Hpre).
  exists pre, last, post. rewrite Pv. repeat split; auto.
  - intros c Hc. apply Hmax. unfold controlIndices.
    apply sort_num_In, in_map. exact Hc.
  - rewrite Hi. rewrite Hl at 1.
    replace (pre ++ last :: post) with ((pre ++ [last]) ++ post)
      by (now rewrite <- app_assoc).
    replace (Z.of_nat (List.length pre) + 1) with (Z.of_nat (List.length (pre ++ [last])))
      by (rewrite length_app; simpl; lia).
    rewrite splice_insert_at, <- app_assoc. reflexivity.
Qed.

(** Inserting at an order: before the first control that carries the
    index found at that rank of the sorted indices. *)
Lemma insert_before_rank l zone col i anchor o webPart :
  Js.index l i = Some anchor ->
  Js.truthy (controlType anchor) = true ->
  1 <= o <= Z.of_nat (List.length (columnControls zone col l)) ->
  exists pre target post,
    l = pre ++ target :: post /\
    inColumn zone col target = true /\
    Js.index (controlIndices zone col l) (o - 1) = Some (ciOf target) /\
    (forall c, In c pre -> inColumn zone col c = true -> ciOf c <> ciOf target) /\
    insert l zone col i (Some o) webPart
    = renumber zone col 1 (pre ++ webPartControl anchor webPart :: target :: post).
Proof.
  intros HI HT Ho.
  rewrite (occupied_condition zone col l anchor (Some o) HT i webPart HI).
  assert (Hcond : negb (Js.truthy (Some o))
                  || (Js.or_default (Some o) 0
                        >? Z.of_nat (List.length (columnControls zone col l))) = false).
  { unfold Js.truthy, Js.or_default.
    destruct (o =? 0) eqn:E; [apply Z.eqb_eq in E; lia|]. simpl.
    destruct (o >? _) eqn:G; [apply Z.gtb_lt in G; lia|reflexivity]. }
  rewrite Hcond.
  assert (Hod : Js.or_default (Some o) 0 = o).
  { unfold Js.or_default. destruct (o =? 0) eqn:E; [apply Z.eqb_eq in E; lia|reflexivity]. }
  rewrite Hod.
  destruct (index_in_range (controlIndices zone col l) (o - 1)) as (v & Hv);
    [rewrite controlIndices_length; lia|].
  rewrite Hv.
  destruct (first_with_index zone col l v (index_In _ _ _ Hv))
    as (pre & target & post & Hl & Hi & Pc & Pv & Hpre).
  exists pre, target, post. rewrite Pv. repeat split; auto.
  rewrite Hi. rewrite Hl at 1. now rewrite splice_insert_at.
Qed.

Lemma columnControls_cons_in zone col c l :
  inColumn zone col c = true ->
  columnControls zone col (c :: l) = c :: columnControls zone col l.
Proof. intros H. unfold columnControls. cbn [filter]. now rewrite H. Qed.

(** The scenario of a column that holds the indices 1 and 2, in that
    order, with order 1 requested. *)
Lemma insert_first_of_two l zone col i anchor a b webPart :
  Js.index l i = Some anchor ->
  inColumn zone col anchor = true ->
  Js.truthy (controlType anchor) = true ->
  columnControls zone col l = [a; b] ->
  ciOf a = 1 -> ciOf b = 2 ->
  columnControls zone col (insert l zone col i (Some 1) webPart)
  = [setControlIndex 1 (webPartControl anchor webPart);
     setControlIndex 2 a; setControlIndex 3 b].
Proof.
  intros HI HC HT Hcol Ha Hb.
  assert (HinA : inColumn zone col a = true /\ inColumn zone col b = true).
  { assert (In a (columnControls zone col l) /\ In b (columnControls zone col l))
      as [H1 H2] by (rewrite Hcol; simpl; auto).
    apply filter_In in H1, H2. tauto. }
  destruct HinA as [HcA HcB].
  destruct (insert_before_rank l zone col i anchor 1 webPart HI HT)
    as (pre & target & post & Hl & Pc & Hrank & Hpre & ->);
    [rewrite Hcol; simpl; lia|].
  unfold controlIndices in Hrank. rewrite Hcol in Hrank. simpl in Hrank.
  rewrite Ha, Hb in Hrank. simpl in Hrank. injection Hrank as Ht.
  rewrite columnControls_renumber.
  rewrite Hl, columnControls_app, (columnControls_cons_in _ _ _ _ Pc) in Hcol.
  rewrite columnControls_app, !columnControls_cons_in
    by (try rewrite inColumn_webPartControl; assumption).
  destruct (columnControls zone col pre) as [|x t] eqn:Epre.
  - simpl in Hcol. injection Hcol as -> Hpost. rewrite Hpost.
    cbn [app renumber].
    rewrite inColumn_webPartControl, HC, HcA, HcB. reflexivity.
  - exfalso. simpl in Hcol. injection Hcol as -> _.
    assert (Hx : In a (columnControls zone col pre)) by (rewrite Epre; left; reflexivity).
    apply filter_In in Hx. destruct Hx as [Hx _].
    apply (Hpre a Hx HcA). lia.
Qed.

End PlacementFacts.

(** C2, as the code has it. In an occupied column (the anchor has a truthy
    [controlType]): when the order is unset, zero or greater than the number
    of controls of the column, the new control is put right after the first
    control that carries the highest [controlIndex] of the column; when the
    order lies between 1 and that number, it is put right before the first
    control that carries the index found at rank [order] of the ascending
    indices; the column is renumbered in array order either way. With the
    column holding the indices 1 and 2 in that order and order 1, the new
    control gets index 1, the old 1 becomes 2 and the old 2 becomes 3. *)
Theorem insert_occupied_position :
  forall (l : Layout) (zone : option Z) (requested : option Z) (i : Z)
         (anchor : Control) (order : option Z) (webPart : WebPart),
    let col := Js.or_default requested 1 in
    let new := Editor.webPartControl anchor webPart in
    let n := Z.of_nat (List.length (Editor.columnControls zone col l)) in
    Editor.resolveColumn l zone requested = Ok i ->
    Js.index l i = Some anchor ->
    Js.truthy (controlType anchor) = true ->
    (order = None \/ order = Some 0 \/ (exists o, order = Some o /\ n < o) ->
     exists pre last post,
       l = pre ++ last :: post /\
       Editor.inColumn zone col last = true /\
       (forall c, In c (Editor.columnControls zone col l) ->
                  Editor.ciOf c <= Editor.ciOf last) /\
       (forall c, In c pre -> Editor.inColumn zone col c = true ->
                  Editor.ciOf c <> Editor.ciOf last) /\
       Editor.insert l zone col i order webPart
       = Editor.renumber zone col 1 (pre ++ last :: new :: post))
    /\
    (forall o, order = Some o -> 1 <= o <= n ->
     exists pre target post,
       l = pre ++ target :: post /\
       Editor.inColumn zone col target = true /\
       Js.index (Editor.controlIndices zone col l) (o - 1) = Some (Editor.ciOf target) /\
       (forall c, In c pre -> Editor.inColumn zone col c = true ->
                  Editor.ciOf c <> Editor.ciOf target) /\
       Editor.insert l zone col i order webPart
       = Editor.renumber zone col 1 (pre ++ new :: target :: post))
    /\
    (forall a b, order = Some 1 ->
       Editor.columnControls zone col l = [a; b] ->
       Editor.ciOf a = 1 -> Editor.ciOf b = 2 ->
       Editor.columnControls zone col (Editor.insert l zone col i order webPart)
       = [Editor.setControlIndex 1 new; Editor.setControlIndex 2 a;
          Editor.setControlIndex 3 b]).
Proof.
  intros l zone requested i anchor order webPart col new n HR HI HT.
  destruct (EditorFacts.resolveColumn_anchor _ _ _ _ _ HR HI) as (_ & _ & _ & _ & HC & _).
  fold col in HC. split; [|split].
  - intros Hord. now apply PlacementFacts.insert_appends.
  - intros o -> Ho. now apply PlacementFacts.insert_before_rank.
  - intros a b -> Hcol Ha Hb. now apply PlacementFacts.insert_first_of_two.
Qed.

Lemma insert_occupied_position_witness :
  Editor.columnControls (Some 1) 1
    (Editor.insert [Sample.part 1 1 1; Sample.part 1 1 2; Sample.settingsOnly]
       (Some 1) 1 0 (Some 1) Sample.webPart)
  = [Editor.setControlIndex 1 (Editor.webPartControl (Sample.part 1 1 1) Sample.webPart);
     Editor.setControlIndex 2 (Sample.part 1 1 1);
     Editor.setControlIndex 3 (Sample.part 1 1 2)].
Proof.
  destruct (insert_occupied_position
              [Sample.part 1 1 1; Sample.part 1 1 2; Sample.settingsOnly]
              (Some 1) None 0 (Sample.part 1 1 1) (Some 1) Sample.webPart
              eq_refl eq_refl eq_refl) as (_ & _ & H).
  exact (H (Sample.part 1 1 1) (Sample.part 1 1 2) eq_refl eq_refl eq_refl eq_refl).
Defined.

(** Order 0 is set and not greater than the two controls of the column, yet
    the new control is appended: it is not put before any control of the
    column. *)
Lemma order_zero_is_appended :
  Editor.editLayout [Sample.part 1 1 1; Sample.part 1 1 2; Sample.settingsOnly]
    (set_order (Some 0) Sample.options) Sample.webPart
  = Ok [Sample.part 1 1 1; Sample.part 1 1 2;
        Editor.setControlIndex 3 (Editor.webPartControl (Sample.part 1 1 1) Sample.webPart);
        Sample.settingsOnly]
  /\ ~ (exists pre target post,
          [Sample.part 1 1 1; Sample.part 1 1 2; Sample.settingsOnly]
          = pre ++ target :: post /\
          Editor.inColumn (Some 1) 1 target = true /\
          Editor.insert [Sample.part 1 1 1; Sample.part 1 1 2; Sample.settingsOnly]
            (Some 1) 1 0 (Some 0) Sample.webPart
          = Editor.renumber (Some 1) 1 1
              (pre ++ Editor.webPartControl (Sample.part 1 1 1) Sample.webPart
                   :: target :: post)).
Proof.
  split; [reflexivity|].
  intros (pre & target & post & Hl & Hc & Hres).
  destruct pre as [|x1 [|x2 [|x3 pre]]]; simpl in Hl; injection Hl as <-; intros; subst;
    try (vm_compute in Hres; discriminate Hres);
    try (vm_compute in Hc; discriminate Hc).
Qed.

(** C4. When the anchor has no [controlType] (absent, or the zero the data
    model counts as absent), the new control takes the place of the anchor:
    the entries before and after it stay, the new control gets
    [controlIndex] 1, the number of entries is unchanged and the requested
    order plays no part. *)
Theorem insert_placeholder_replaces :
  forall (l : Layout) (zone : option Z) (requested : option Z) (i : Z)
         (anchor : Control) (order : option Z) (webPart : WebPart),
    let col := Js.or_default requested 1 in
    let new := Editor.setControlIndex 1 (Editor.webPartControl anchor webPart) in
    Editor.resolveColumn l zone requested = Ok i ->
    Js.index l i = Some anchor ->
    Js.truthy (controlType anchor) = false ->
    exists pre post,
      l = pre ++ anchor :: post /\
      i = Z.of_nat (List.length pre) /\
      Editor.insert l zone col i order webPart = pre ++ new :: post /\
      Editor.ciOf new = 1 /\
      Editor.inColumn zone col new = true /\
      List.length (Editor.insert l zone col i order webPart) = List.length l /\
      Editor.insert l zone col i order webPart = Editor.insert l zone col i None webPart.
Proof.
  intros l zone requested i anchor order webPart col new HR HI HT.
  destruct (EditorFacts.resolveColumn_anchor _ _ _ _ _ HR HI)
    as (pre & post & Hl & Hi & HC & _).
  fold col in HC. exists pre, post.
  assert (Hins : forall ord, Editor.insert l zone col i ord webPart = pre ++ new :: post).
  { intros ord. unfold Editor.insert. rewrite HI, HT. cbn [negb].
    rewrite Hi, Hl. apply JsFacts.splice_replace_at. }
  repeat split; auto.
  - unfold new. apply (EditorFacts.ciOf_setControlIndex zone col).
    now rewrite EditorFacts.inColumn_webPartControl.
  - unfold new. now rewrite EditorFacts.inColumn_setControlIndex,
      EditorFacts.inColumn_webPartControl.
  - rewrite Hins, Hl, !length_app. reflexivity.
  - now rewrite !Hins.
Qed.

Lemma insert_placeholder_replaces_witness :
  List.length
    (Editor.insert [Editor.defaultSection; Sample.settingsOnly] (Some 1) 1 0 (Some 5)
       Sample.webPart) = 2%nat.
Proof.
  destruct (insert_placeholder_replaces [Editor.defaultSection; Sample.settingsOnly]
              (Some 1) None 0 Editor.defaultSection (Some 5) Sample.webPart
              eq_refl eq_refl eq_refl) as (pre & post & _ & _ & _ & _ & _ & Hlen & _).
  exact Hlen.
Defined.

(** C3, as the code has it. On a layout of one entry the default section is
    put in front ([unshift]): the result has two entries, the default
    section first and the old entry second. From [[{controlType: 0}]],
    with no section, column or order given, the result has two entries and
    the first is the web part at zoneIndex 1, sectionIndex 1,
    controlIndex 1; the page-settings entry stays last. *)
Theorem default_section_is_prepended :
  forall (l : Layout),
    List.length l = 1%nat ->
    Editor.ensureDefaultSection l = Editor.defaultSection :: l /\
    List.length (Editor.ensureDefaultSection l) = 2%nat /\
    (forall options webPart,
        section options = None -> column options = None -> order options = None ->
        exists placed,
          Editor.editLayout [Sample.settingsOnly] options webPart
          = Ok [placed; Sample.settingsOnly] /\
          controlType placed = Some 3 /\
          position placed = Some (mkPosition 1 1 12 1 1) /\
          webPartData placed = Some (wp_webPartData webPart)).
Proof.
  intros l Hlen. unfold Editor.ensureDefaultSection. rewrite Hlen. cbn [Nat.eqb].
  split; [reflexivity|]. split; [simpl; now rewrite Hlen|].
  intros options webPart HS HC HO.
  exists (Editor.setControlIndex 1 (Editor.webPartControl Editor.defaultSection webPart)).
  unfold Editor.editLayout. rewrite HS, HC, HO. repeat split.
Qed.

Lemma default_section_is_prepended_witness :
  Editor.ensureDefaultSection [Sample.settingsOnly]
  = [Editor.defaultSection; Sample.settingsOnly].
Proof.
  exact (proj1 (default_section_is_prepended [Sample.settingsOnly] eq_refl)).
Defined.

(** The second entry after the default-section step is the old entry, not
    the default section, and the web part added to [[{controlType: 0}]]
    is the first entry, not the second. *)
Lemma default_section_is_not_second :
  List.length [Sample.settingsOnly] = 1%nat /\
  nth_error (Editor.ensureDefaultSection [Sample.settingsOnly]) 1
    = Some Sample.settingsOnly /\
  Sample.settingsOnly <> Editor.defaultSection /\
  exists first,
    Editor.editLayout [Sample.settingsOnly] Sample.options Sample.webPart
    = Ok [first; Sample.settingsOnly] /\
    controlType first = Some 3 /\
    controlType Sample.settingsOnly = Some 0.
Proof.
  split; [reflexivity|]. split; [reflexivity|]. split; [discriminate|].
  eexists. split; [reflexivity|]. split; reflexivity.
Qed.

(** ** Section and column resolution *)

Module ResolutionFacts.
Import JsFacts Editor.

Lemma index_last {A} (l : list A) :
  Js.index l (Z.of_nat (List.length l) - 1) = Js.pop l.
Proof.
  unfold Js.pop. destruct l as [|x r] using rev_ind.
  - reflexivity.
  - rewrite rev_app_distr, length_app. simpl.
    replace (Z.of_nat (List.length r + 1) - 1) with (Z.of_nat (List.length r)) by lia.
    apply index_app_middle.
Qed.

Lemma or_default_unset n : Js.or_default None n = n.
Proof. reflexivity. Qed.

Lemma or_default_zero n : Js.or_default (Some 0) n = n.
Proof. reflexivity. Qed.

Lemma or_default_set s n : s <> 0 -> Js.or_default (Some s) n = s.
Proof.
  intros H. unfold Js.or_default.
  destruct (s =? 0) eqn:E; [apply Z.eqb_eq in E; contradiction|reflexivity].
Qed.

Lemma resolveSection_unfold l requested :
  resolveSection l requested
  = if Js.or_default requested (Z.of_nat (List.length (zoneIndices l)))
       >? Z.of_nat (List.length (zoneIndices l))
    then Rejected (invalidSection
                     (Js.or_default requested (Z.of_nat (List.length (zoneIndices l)))))
    else Ok (Js.index (zoneIndices l)
               (Js.or_default requested (Z.of_nat (List.length (zoneIndices l))) - 1)).
Proof. reflexivity. Qed.

(** Column resolution fails exactly when the column has no control. *)
Lemma resolveColumn_fails_iff l zone requested :
  (exists msg, resolveColumn l zone requested = Rejected msg) <->
  (forall c, In c l -> inColumn zone (Js.or_default requested 1) c = false).
Proof.
  unfold resolveColumn. rewrite <- findIndex_none.
  destruct (Js.findIndex _ l =? -1) eqn:E.
  - apply Z.eqb_eq in E. split; [intros _; exact E|eauto].
  - apply Z.eqb_neq in E. split; [intros [msg H]; discriminate|contradiction].
Qed.

Lemma resolveColumn_message l zone requested msg :
  resolveColumn l zone requested = Rejected msg -> msg = invalidColumn requested.
Proof.
  unfold resolveColumn. destruct (_ =? -1); [|discriminate].
  intros H. now injection H as <-.
Qed.

(** The editor rejects with one of its two messages only. *)
Lemma editLayout_rejections fetched options webPart msg :
  editLayout fetched options webPart = Rejected msg ->
  (exists s, msg = invalidSection s) \/ msg = invalidColumn (column options).
Proof.
  unfold editLayout. cbv zeta.
  rewrite resolveSection_unfold.
  destruct (_ >? _).
  - intros H. injection H as <-. left. eauto.
  - unfold Ok at 1. cbv iota beta.
    destruct (resolveColumn _ _ _) as [m|i] eqn:E; [|discriminate].
    intros H. injection H as <-. right.
    now apply resolveColumn_message in E.
Qed.

End ResolutionFacts.

(** Section resolution as the code has it. [zoneIndices] holds exactly the
    [zoneIndex] values of the controls with a position, each once and
    ascending. A section that is unset or 0 is taken for the number of
    sections, i.e. the last section. Resolution is rejected, with the
    section number in the message, exactly when the requested section
    exceeds the number of sections; otherwise a section other than 0 gives
    the [zoneIndex] at rank [section - 1]. *)
Theorem resolveSection_spec :
  forall (l : Layout) (requested : option Z),
    let zs := Editor.zoneIndices l in
    let n := Z.of_nat (List.length zs) in
    (forall z, In z zs <-> exists c p, In c l /\ position c = Some p /\ zoneIndex p = z) /\
    StronglySorted Z.lt zs /\
    Editor.resolveSection l None = Ok (Js.pop zs) /\
    Editor.resolveSection l (Some 0) = Ok (Js.pop zs) /\
    ((exists msg, Editor.resolveSection l requested = Rejected msg)
     <-> (exists s, requested = Some s /\ n < s)) /\
    (forall s, requested = Some s -> n < s ->
               Editor.resolveSection l requested = Rejected (Editor.invalidSection s)) /\
    (forall s, requested = Some s -> s <> 0 -> s <= n ->
               Editor.resolveSection l requested = Ok (Js.index zs (s - 1))) /\
    (forall s, requested = Some s -> 1 <= s <= n ->
               exists z, nth_error zs (Z.to_nat (s - 1)) = Some z /\
                         Editor.resolveSection l requested = Ok (Some z)).
Proof.
  intros l requested zs n.
  assert (Hset : forall s, s <> 0 -> s <= n ->
                           Editor.resolveSection l (Some s) = Ok (Js.index zs (s - 1))).
  { intros s Hs Hle. rewrite ResolutionFacts.resolveSection_unfold.
    rewrite ResolutionFacts.or_default_set by assumption. fold zs n.
    destruct (s >? n) eqn:E; [apply Z.gtb_lt in E; lia|reflexivity]. }
  assert (Hover : forall s, n < s ->
            Editor.resolveSection l (Some s) = Rejected (Editor.invalidSection s)).
  { intros s Hlt. rewrite ResolutionFacts.resolveSection_unfold.
    rewrite ResolutionFacts.or_default_set by lia. fold zs n.
    destruct (s >? n) eqn:E; [reflexivity|].
    apply Z.gtb_lt in Hlt. congruence. }
  assert (Hdefault : forall r, Js.or_default r n = n ->
            Editor.resolveSection l r = Ok (Js.pop zs)).
  { intros r Hr. rewrite ResolutionFacts.resolveSection_unfold. fold zs n. rewrite Hr.
    destruct (n >? n) eqn:E; [apply Z.gtb_lt in E; lia|].
    unfold n. now rewrite ResolutionFacts.index_last. }
  split; [apply ZoneFacts.zoneIndices_In|].
  split; [apply ZoneFacts.zoneIndices_ascending|].
  split; [now apply Hdefault|].
  split; [now apply Hdefault|].
  split; [|split; [|split]].
  - split.
    + intros [msg H]. destruct requested as [s|].
      * exists s. split; [reflexivity|].
        destruct (Z.eq_dec s 0) as [->|Hs].
        -- rewrite Hdefault in H by reflexivity. discriminate.
        -- destruct (Z_lt_le_dec n s) as [|Hle]; [assumption|].
           rewrite Hset in H by assumption. discriminate.
      * rewrite Hdefault in H by reflexivity. discriminate.
    + intros (s & -> & Hlt). eexists. now apply Hover.
  - intros s -> Hlt. now apply Hover.
  - intros s -> Hs Hle. now apply Hset.
  - intros s -> Hr. rewrite Hset by lia.
    destruct (JsFacts.index_in_range zs (s - 1)) as (z & Hz); [fold n; lia|].
    exists z. split; [|now rewrite Hz].
    unfold Js.index in Hz. destruct (s - 1 <? 0); [discriminate|exact Hz].
Qed.

(** C5 at section 0. [validate] wants a section to be 1 or higher and
    says so for -1, but it tests the option for truthiness first, and 0
    gets through. The editor then takes 0 for no section at all: a section
    that is set and does not exceed the two sections of the page gives the
    last section, not a [zoneIndex] at rank [0 - 1], which does not exist.
    Sections 1 and 2 give the [zoneIndex] at their rank and section 3 is
    rejected with its number. *)
Lemma section_zero_reaches_editor :
  Command.validate Sample.parseEmptyObject Sample.anyGuid Sample.anyGuid Sample.anyUrl
    (set_section (Some (-1)) Sample.options)
  = Failed "The value of parameter section must be 1 or higher" /\
  Command.validate Sample.parseEmptyObject Sample.anyGuid Sample.anyGuid Sample.anyUrl
    (set_section (Some 0) Sample.options)
  = Passed /\
  Editor.zoneIndices [Sample.part 1 1 1; Sample.part 2 1 1; Sample.settingsOnly] = [1; 2] /\
  Editor.resolveSection [Sample.part 1 1 1; Sample.part 2 1 1; Sample.settingsOnly] (Some 0)
  = Ok (Some 2) /\
  Js.index [1; 2] (0 - 1) = None /\
  Editor.resolveSection [Sample.part 1 1 1; Sample.part 2 1 1; Sample.settingsOnly] (Some 1)
  = Ok (Some 1) /\
  Editor.resolveSection [Sample.part 1 1 1; Sample.part 2 1 1; Sample.settingsOnly] (Some 2)
  = Ok (Some 2) /\
  Editor.resolveSection [Sample.part 1 1 1; Sample.part 2 1 1; Sample.settingsOnly] (Some 3)
  = Rejected "Invalid section '3'".
Proof. repeat split. Qed.

(** From 10^21 on the message shows the section as JavaScript writes such
    a number. *)
Lemma invalidSection_exponent :
  Editor.invalidSection (10 ^ 21) = "Invalid section '1e+21'" /\
  Editor.invalidSection (2 ^ 60) = "Invalid section '1152921504606847000'".
Proof. split; vm_compute; reflexivity. Qed.

(** C6 at a column that was not given: section 1 has a control in column 2
    only, the lookup of the default column 1 fails, and the message shows
    [undefined] instead of the column that was looked up (and [0] when
    column 0 was given); an empty canvas gives the same message. The
    section message shows the number that was looked up. *)
Lemma invalid_column_names_undefined :
  column Sample.options = None /\
  Js.or_default (column Sample.options) 1 = 1 /\
  Editor.editLayout [Sample.part 1 2 1; Sample.settingsOnly] Sample.options Sample.webPart
  = Rejected "Invalid column 'undefined'" /\
  Editor.editLayout [Sample.part 1 2 1; Sample.settingsOnly]
    (set_column (Some 0) Sample.options) Sample.webPart
  = Rejected "Invalid column '0'" /\
  Editor.editLayout [] Sample.options Sample.webPart
  = Rejected "Invalid column 'undefined'" /\
  Editor.editLayout [Sample.part 1 2 1; Sample.settingsOnly]
    (set_section (Some 4) Sample.options) Sample.webPart
  = Rejected "Invalid section '4'".
Proof. repeat split. Qed.

(** ** The command *)

Module CommandFacts.
Import Command.

Lemma prefix_app (sub s : string) :
  String.prefix sub s = true <-> exists post, s = (sub ++ post)%string.
Proof.
  revert s. induction sub as [|a sub IH]; intros s.
  - destruct s; simpl; split; eauto.
  - destruct s as [|b s]; simpl.
    + split; [discriminate|intros [post H]; discriminate].
    + destruct (ascii_dec a b) as [->|Hne].
      * rewrite IH. split; intros [post H]; exists post; congruence.
      * split; [discriminate|]. intros [post H]. congruence.
Qed.

(** [indexOf] finds a text exactly when it occurs somewhere. *)
Lemma str_indexOf_occurs (sub s : string) :
  0 <= Js.str_indexOf sub s <->
  exists pre post, s = (pre ++ sub ++ post)%string.
Proof.
  induction s as [|a r IH].
  - cbn [Js.str_indexOf]. destruct (String.prefix sub "") eqn:P.
    + apply prefix_app in P. destruct P as [post P].
      split; [intros _; exists "", post; exact P|lia].
    + split; [lia|]. intros (pre & post & H).
      destruct pre; [|discriminate].
      assert (String.prefix sub "" = true) by (apply prefix_app; eauto).
      congruence.
  - cbn [Js.str_indexOf]. destruct (String.prefix sub (String a r)) eqn:P.
    + apply prefix_app in P. destruct P as [post P].
      split; [intros _; exists "", post; exact P|lia].
    + destruct (Js.str_indexOf sub r <? 0) eqn:E.
      * apply Z.ltb_lt in E. split; [lia|].
        intros (pre & post & H). destruct pre as [|b pre].
        -- assert (String.prefix sub (String a r) = true) by (apply prefix_app; eauto).
           congruence.
        -- simpl in H. injection H as _ Hr.
           assert (0 <= Js.str_indexOf sub r) by (apply IH; eauto). lia.
      * apply Z.ltb_ge in E. split; [|lia]. intros _.
        apply IH in E. destruct E as (pre & post & ->).
        exists (String a pre), post. reflexivity.
Qed.

Section WithCollaborators.

Variable JSON_parse : string -> Result JsValue.
Variable encodeURIComponent : string -> string.
Variable isValidGuid : string -> bool.
Variable isValidStandardWebPartType : string -> bool.
Variable isValidSharePointUrl : string -> Validation.

(** Every request of a run is one of the four of the chain, and a save
    carries a layout the editor returned. *)
Lemma requests_of_run service options r :
  In r (fst (commandAction JSON_parse encodeURIComponent service options [])) ->
  r = fetchRequest encodeURIComponent options \/
  r = checkoutRequest encodeURIComponent options \/
  r = catalogRequest options \/
  exists res webPart edited,
    page service = Ok res /\
    Editor.editLayout (parsedCanvas (fst res)) options webPart = Ok edited /\
    r = saveRequest encodeURIComponent options edited.
Proof.
  unfold commandAction, andThen, request, settle, resolve.
  destruct (page service) as [e|[canvas checked]] eqn:HP; cbn.
  { intros [<-|[]]; auto. }
  destruct checked; cbn.
  - destruct (clientSideWebPart service) as [e|webPart]; cbn.
    { intros [<-|[<-|[]]]; auto. }
    destruct (Payload.setWebPartProperties JSON_parse webPart options) as [e|webPart']; cbn.
    { intros [<-|[<-|[]]]; auto. }
    destruct (Editor.editLayout (parsedCanvas canvas) options webPart') as [e|edited] eqn:HE;
      cbn.
    { intros [<-|[<-|[]]]; auto. }
    intros [<-|[<-|[<-|[]]]]; auto.
    right; right; right. exists (canvas, true), webPart', edited. auto.
  - destruct (checkoutpage service) as [e|u]; cbn.
    { intros [<-|[<-|[]]]; auto. }
    destruct (clientSideWebPart service) as [e|webPart]; cbn.
    { intros [<-|[<-|[<-|[]]]]; auto. }
    destruct (Payload.setWebPartProperties JSON_parse webPart options) as [e|webPart']; cbn.
    { intros [<-|[<-|[<-|[]]]]; auto. }
    destruct (Editor.editLayout (parsedCanvas canvas) options webPart') as [e|edited] eqn:HE;
      cbn.
    { intros [<-|[<-|[<-|[]]]]; auto. }
    intros [<-|[<-|[<-|[<-|[]]]]]; auto.
    right; right; right. exists (canvas, false), webPart', edited. auto.
Qed.

(** A run whose editor step rejects: the rejection is the outcome and
    the requests are the ones issued before that step. *)
Lemma run_editor_rejects service options res webPart webPart' msg :
  page service = Ok res ->
  (snd res = false -> checkoutpage service = Ok tt) ->
  clientSideWebPart service = Ok webPart ->
  Payload.setWebPartProperties JSON_parse webPart options = Ok webPart' ->
  Editor.editLayout (parsedCanvas (fst res)) options webPart' = Rejected msg ->
  commandAction JSON_parse encodeURIComponent service options []
  = ((if snd res then [fetchRequest encodeURIComponent options]
      else [fetchRequest encodeURIComponent options;
            checkoutRequest encodeURIComponent options])
     ++ [catalogRequest options], Rejected msg).
Proof.
  intros HP HC HW HS HE.
  unfold commandAction, andThen, request, settle, resolve.
  rewrite HP. destruct res as [canvas checked]. cbn in *.
  destruct checked; cbn.
  - rewrite HW. cbn. rewrite HS. cbn. rewrite HE. reflexivity.
  - rewrite (HC eq_refl). cbn. rewrite HW. cbn. rewrite HS. cbn. rewrite HE. reflexivity.
Qed.

Lemma serveAll_without_save issued : forall s,
  existsb isSave issued = false ->
  storedCanvas (serveAll s issued) = storedCanvas s.
Proof.
  unfold serveAll.
  induction issued as [|r rest IH]; intros s H; [reflexivity|].
  cbn [existsb] in H. apply orb_false_iff in H. destruct H as [Hr Hrest].
  cbn [fold_left]. rewrite IH by assumption.
  destruct r as [url|url [l|]]; try reflexivity. discriminate.
Qed.

Lemma validate_failed_invoke service options msg issued :
  validate JSON_parse isValidGuid isValidStandardWebPartType isValidSharePointUrl options
  = Failed msg ->
  invoke JSON_parse encodeURIComponent isValidGuid isValidStandardWebPartType
    isValidSharePointUrl service options issued = (issued, Rejected msg).
Proof. intros H. unfold invoke. now rewrite H. Qed.

End WithCollaborators.

End CommandFacts.

(** C7. When the editor step of a run rejects (with its section or column
    message), the run ends with that rejection, no request of the run is a
    save, and the layout stored by the service is what it was. *)
Theorem no_save_after_editor_failure :
  forall (JSON_parse : string -> Result JsValue) (encodeURIComponent : string -> string)
         (service : Responses) (options : Options)
         (res : option Layout * bool) (webPart webPart' : WebPart) (msg : string),
    page service = Ok res ->
    (snd res = false -> checkoutpage service = Ok tt) ->
    clientSideWebPart service = Ok webPart ->
    Payload.setWebPartProperties JSON_parse webPart options = Ok webPart' ->
    Editor.editLayout (Command.parsedCanvas (fst res)) options webPart' = Rejected msg ->
    let run := Command.commandAction JSON_parse encodeURIComponent service options [] in
    snd run = Rejected msg /\
    ((exists s, msg = Editor.invalidSection s) \/
     msg = Editor.invalidColumn (column options)) /\
    existsb isSave (fst run) = false /\
    (forall url l, ~ In (POST url (Some l)) (fst run)) /\
    (forall stored, storedCanvas (serveAll stored (fst run)) = storedCanvas stored).
Proof.
  intros JSON_parse enc service options res webPart webPart' msg HP HC HW HS HE run.
  pose proof (CommandFacts.run_editor_rejects JSON_parse enc service options res
                webPart webPart' msg HP HC HW HS HE) as Hrun.
  fold run in Hrun.
  assert (Hnone : existsb isSave (fst run) = false).
  { rewrite Hrun. destruct (snd res); reflexivity. }
  split; [now rewrite Hrun|].
  split; [eapply ResolutionFacts.editLayout_rejections; exact HE|].
  split; [exact Hnone|]. split.
  - intros url l Hin.
    assert (existsb isSave (fst run) = true)
      by (apply existsb_exists; exists (POST url (Some l)); auto).
    congruence.
  - intros stored. now apply CommandFacts.serveAll_without_save.
Qed.

Lemma no_save_after_editor_failure_witness :
  snd (Command.commandAction Sample.parseEmptyObject Sample.plain
         (Sample.service (Some [Sample.part 1 1 1; Sample.settingsOnly]))
         (set_section (Some 2) Sample.options) [])
  = Rejected "Invalid section '2'" /\
  existsb isSave
    (fst (Command.commandAction Sample.parseEmptyObject Sample.plain
            (Sample.service (Some [Sample.part 1 1 1; Sample.settingsOnly]))
            (set_section (Some 2) Sample.options) [])) = false.
Proof.
  destruct (no_save_after_editor_failure Sample.parseEmptyObject Sample.plain
              (Sample.service (Some [Sample.part 1 1 1; Sample.settingsOnly]))
              (set_section (Some 2) Sample.options)
              (Some [Sample.part 1 1 1; Sample.settingsOnly], true)
              Sample.webPart Sample.webPart "Invalid section '2'"
              eq_refl (fun _ => eq_refl) eq_refl eq_refl eq_refl)
    as (Hout & _ & Hnone & _).
  split; [exact Hout|exact Hnone].
Defined.

(** ** Validation of the JSON options, zero values and the page name *)

Module ValidationFacts.
Import Command.

Lemma append_assoc (a b c : string) : ((a ++ b) ++ c = a ++ b ++ c)%string.
Proof. induction a as [|x a IH]; simpl; [reflexivity|now rewrite IH]. Qed.

Lemma truthy_str_some (s : string) : s <> "" -> Js.truthy_str (Some s) = true.
Proof.
  intros H. unfold Js.truthy_str.
  destruct (String.eqb_spec s ""); [contradiction|reflexivity].
Qed.

Ltac early_returns V :=
  repeat match type of V with
         | (if ?c then _ else _) = _ =>
             let E := fresh "E" in destruct c eqn:E; [discriminate V|]
         end.

Section WithCollaborators.

Variable JSON_parse : string -> Result JsValue.
Variable isValidGuid : string -> bool.
Variable isValidStandardWebPartType : string -> bool.
Variable isValidSharePointUrl : string -> Validation.

Local Notation "'validate'" :=
  (Command.validate JSON_parse isValidGuid isValidStandardWebPartType
     isValidSharePointUrl) (only parsing).

Lemma malformed_never_passes options input e :
  webPartProperties options = Some input \/ opt_webPartData options = Some input ->
  input <> "" ->
  JSON_parse input = Rejected e ->
  validate options <> Passed.
Proof.
  intros Hopt Hne Hparse V. unfold Command.validate in V.
  early_returns V.
  destruct Hopt as [Hp|Hd].
  - rewrite Hp in V. cbn [text] in V.
    rewrite (truthy_str_some _ Hne), Hparse in V. discriminate V.
  - destruct (if Js.truthy_str (webPartProperties options) then _ else _);
      [discriminate V|].
    rewrite Hd in V. cbn [text] in V.
    rewrite (truthy_str_some _ Hne), Hparse in V. discriminate V.
Qed.

Lemma malformed_properties_message options input e :
  optionChecks isValidGuid isValidStandardWebPartType options = Passed ->
  webPartProperties options = Some input ->
  input <> "" ->
  JSON_parse input = Rejected e ->
  validate options = Failed (malformedProperties input e).
Proof.
  intros Hc Hp Hne Hparse. unfold optionChecks in Hc. early_returns Hc.
  unfold Command.validate. rewrite E, E0, E1, E2, E3.
  rewrite Hp. cbn [text]. rewrite (truthy_str_some _ Hne), Hparse. reflexivity.
Qed.

Lemma malformed_data_message options input e :
  optionChecks isValidGuid isValidStandardWebPartType options = Passed ->
  opt_webPartData options = Some input ->
  input <> "" ->
  JSON_parse input = Rejected e ->
  validate options = Failed (malformedData input e).
Proof.
  intros Hc Hd Hne Hparse. unfold optionChecks in Hc. early_returns Hc.
  unfold Command.validate. rewrite E, E0, E1, E2, E3.
  rewrite Hd in *. rewrite (truthy_str_some _ Hne) in *.
  rewrite andb_true_r in E3. rewrite E3. cbn [text]. rewrite Hparse. reflexivity.
Qed.

End WithCollaborators.

End ValidationFacts.

(** C8, as the code has it. When [webPartProperties] or [webPartData] is a
    non-empty text that does not parse, validation fails, so the invocation
    ends with that message and without a request; the message is the one
    about the malformed option whenever the checks that come before the
    parse attempts pass. *)
Theorem malformed_json_fails_validation :
  forall (JSON_parse : string -> Result JsValue) (encodeURIComponent : string -> string)
         (isValidGuid isValidStandardWebPartType : string -> bool)
         (isValidSharePointUrl : string -> Validation)
         (options : Options) (input e : string),
    webPartProperties options = Some input \/ opt_webPartData options = Some input ->
    input <> "" ->
    JSON_parse input = Rejected e ->
    (exists msg,
        Command.validate JSON_parse isValidGuid isValidStandardWebPartType
          isValidSharePointUrl options = Failed msg /\
        forall service issued,
          Command.invoke JSON_parse encodeURIComponent isValidGuid
            isValidStandardWebPartType isValidSharePointUrl service options issued
          = (issued, Rejected msg)) /\
    (Command.optionChecks isValidGuid isValidStandardWebPartType options = Passed ->
     (webPartProperties options = Some input ->
      Command.validate JSON_parse isValidGuid isValidStandardWebPartType
        isValidSharePointUrl options = Failed (Command.malformedProperties input e)) /\
     (opt_webPartData options = Some input ->
      Command.validate JSON_parse isValidGuid isValidStandardWebPartType
        isValidSharePointUrl options = Failed (Command.malformedData input e))).
Proof.
  intros JSON_parse enc isValidGuid isValidType isValidUrl options input e Hopt Hne Hparse.
  split.
  - destruct (Command.validate JSON_parse isValidGuid isValidType isValidUrl options)
      as [|msg] eqn:V.
    + exfalso. revert V.
      now apply (ValidationFacts.malformed_never_passes JSON_parse isValidGuid isValidType
                   isValidUrl options input e).
    + exists msg. split; [reflexivity|]. intros service issued.
      now apply CommandFacts.validate_failed_invoke.
  - intros Hc. split; intros H.
    + now apply ValidationFacts.malformed_properties_message.
    + now apply ValidationFacts.malformed_data_message.
Qed.

Lemma malformed_json_fails_validation_witness :
  Command.validate Sample.parseEmptyObject Sample.anyGuid Sample.anyGuid Sample.anyUrl
    (mkOptions "home" "https://contoso.sharepoint.com" None (Some "{oops")
       (Some "e377ea37-9047-43b9-8cdb-a761be2f8e09") None None None None)
  = Failed (Command.malformedData "{oops" "SyntaxError: Unexpected end of JSON input").
Proof.
  refine (proj2 (proj2 (malformed_json_fails_validation Sample.parseEmptyObject Sample.plain
            Sample.anyGuid Sample.anyGuid Sample.anyUrl
            (mkOptions "home" "https://contoso.sharepoint.com" None (Some "{oops")
               (Some "e377ea37-9047-43b9-8cdb-a761be2f8e09") None None None None)
            "{oops" "SyntaxError: Unexpected end of JSON input"
            (or_intror eq_refl) _ eq_refl) eq_refl) eq_refl).
  discriminate.
Defined.

(** An empty [webPartProperties] text does not parse, passes validation all
    the same, is skipped by [setWebPartProperties], and the page is saved. *)
Lemma empty_properties_are_ignored :
  webPartProperties Sample.emptyProperties = Some "" /\
  Sample.parseEmptyObject "" = Rejected "SyntaxError: Unexpected end of JSON input" /\
  Command.validate Sample.parseEmptyObject Sample.anyGuid Sample.anyGuid Sample.anyUrl
    Sample.emptyProperties = Passed /\
  Command.invoke Sample.parseEmptyObject Sample.plain Sample.anyGuid Sample.anyGuid
    Sample.anyUrl (Sample.service None) Sample.emptyProperties []
  = ([Command.fetchRequest Sample.plain Sample.emptyProperties;
      Command.catalogRequest Sample.emptyProperties;
      Command.saveRequest Sample.plain Sample.emptyProperties
        [Editor.setControlIndex 1
           (Editor.webPartControl Editor.defaultSection Sample.webPart);
         Command.pageSettings]],
     Ok tt).
Proof. repeat split. Qed.

(** C9. A section or a column of 0 passes validation like an option that
    was not given and is resolved like one: section 0 is the last section,
    column 0 is column 1, and the edited layout is the same. *)
Theorem zero_is_unspecified :
  forall (JSON_parse : string -> Result JsValue)
         (isValidGuid isValidStandardWebPartType : string -> bool)
         (isValidSharePointUrl : string -> Validation)
         (options : Options) (l : Layout) (webPart : WebPart),
    Command.validate JSON_parse isValidGuid isValidStandardWebPartType
      isValidSharePointUrl (set_section (Some 0) options)
    = Command.validate JSON_parse isValidGuid isValidStandardWebPartType
        isValidSharePointUrl (set_section None options) /\
    Command.validate JSON_parse isValidGuid isValidStandardWebPartType
      isValidSharePointUrl (set_column (Some 0) options)
    = Command.validate JSON_parse isValidGuid isValidStandardWebPartType
        isValidSharePointUrl (set_column None options) /\
    Editor.resolveSection l (Some 0) = Ok (Js.pop (Editor.zoneIndices l)) /\
    Editor.resolveSection l (Some 0) = Editor.resolveSection l None /\
    Js.or_default (Some 0) 1 = 1 /\
    (forall zone i, Editor.resolveColumn l zone (Some 0) = Ok i
                    <-> Js.findIndex (Editor.inColumn zone 1) l = i /\ i <> -1) /\
    (forall zone i, Editor.resolveColumn l zone (Some 0) = Ok i
                    <-> Editor.resolveColumn l zone None = Ok i) /\
    Editor.editLayout l (set_section (Some 0) options) webPart
    = Editor.editLayout l (set_section None options) webPart /\
    (forall edited,
        Editor.editLayout l (set_column (Some 0) options) webPart = Ok edited
        <-> Editor.editLayout l (set_column None options) webPart = Ok edited).
Proof.
  intros JSON_parse isValidGuid isValidType isValidUrl options l webPart.
  assert (Hcol : forall zone i,
             Editor.resolveColumn l zone (Some 0) = Ok i
             <-> Js.findIndex (Editor.inColumn zone 1) l = i /\ i <> -1).
  { intros zone i. unfold Editor.resolveColumn. cbn [Js.or_default Z.eqb].
    destruct (Js.findIndex (Editor.inColumn zone 1) l =? -1) eqn:E.
    - apply Z.eqb_eq in E. split; [discriminate|]. intros [<- H]. contradiction.
    - apply Z.eqb_neq in E. split.
      + intros H. injection H as <-. auto.
      + intros [<- _]. reflexivity. }
  assert (Hcol' : forall zone i,
             Editor.resolveColumn l zone (Some 0) = Ok i
             <-> Editor.resolveColumn l zone None = Ok i).
  { intros zone i. unfold Editor.resolveColumn. cbn [Js.or_default Z.eqb].
    destruct (Js.findIndex (Editor.inColumn zone 1) l =? -1);
      [split; discriminate|tauto]. }
  split; [reflexivity|]. split; [reflexivity|].
  split; [unfold Editor.resolveSection; cbn [Js.or_default Z.eqb];
          rewrite ResolutionFacts.index_last;
          destruct (_ >? _) eqn:E; [apply Z.gtb_lt in E; lia|reflexivity]|].
  split; [reflexivity|]. split; [reflexivity|].
  split; [exact Hcol|]. split; [exact Hcol'|]. split; [reflexivity|].
  intros edited. unfold Editor.editLayout. cbv zeta. cbn [column set_column section order].
  destruct (Editor.resolveSection (Editor.ensureDefaultSection l) (section options))
    as [msg|zone]; [split; discriminate|].
  unfold Editor.resolveColumn. cbn [Js.or_default Z.eqb].
  destruct (Js.findIndex _ _ =? -1); [split; discriminate|tauto].
Qed.

(** C10. A page name in which [.aspx] does not occur gets [.aspx] added;
    a name in which it occurs anywhere is used as it is; every request of
    a run that names the page (fetch, checkout, save) is built from that
    one resolved name. *)
Theorem page_name_resolution :
  forall (JSON_parse : string -> Result JsValue) (encodeURIComponent : string -> string)
         (service : Responses) (options : Options),
    let full := Command.pageFullName options in
    let target := (webUrl options ++ "/_api/sitepages/pages/GetByUrl('sitepages/"
                 ++ encodeURIComponent full ++ "')")%string in
    ((~ exists pre post, pageName options = (pre ++ ".aspx" ++ post)%string) ->
     full = (pageName options ++ ".aspx")%string) /\
    ((exists pre post, pageName options = (pre ++ ".aspx" ++ post)%string) ->
     full = pageName options) /\
    (forall r,
        In r (fst (Command.commandAction JSON_parse encodeURIComponent service options [])) ->
        r = GET (target ++ "?$select=CanvasContent1,IsPageCheckedOutToCurrentUser")%string \/
        r = POST (target ++ "/checkoutpage")%string None \/
        r = GET (webUrl options ++ "/_api/web/getclientsidewebparts()")%string \/
        exists edited, r = POST (target ++ "/savepage")%string (Some edited)) /\
    (forall canvas webPart webPart' edited,
        page service = Ok (canvas, false) ->
        checkoutpage service = Ok tt ->
        clientSideWebPart service = Ok webPart ->
        Payload.setWebPartProperties JSON_parse webPart options = Ok webPart' ->
        Editor.editLayout (Command.parsedCanvas canvas) options webPart' = Ok edited ->
        fst (Command.commandAction JSON_parse encodeURIComponent service options [])
        = [GET (target ++ "?$select=CanvasContent1,IsPageCheckedOutToCurrentUser")%string;
           POST (target ++ "/checkoutpage")%string None;
           GET (webUrl options ++ "/_api/web/getclientsidewebparts()")%string;
           POST (target ++ "/savepage")%string (Some edited)]).
Proof.
  intros JSON_parse enc service options full target.
  assert (Hurl : forall rest, Command.pageUrl enc options rest = (target ++ rest)%string).
  { intros rest. unfold Command.pageUrl, target, full.
    rewrite !ValidationFacts.append_assoc. reflexivity. }
  split; [|split; [|split]].
  - intros Hno. unfold full, Command.pageFullName.
    destruct (Js.str_indexOf ".aspx" (pageName options) <? 0) eqn:E; [reflexivity|].
    apply Z.ltb_ge in E. apply CommandFacts.str_indexOf_occurs in E. contradiction.
  - intros Hyes. unfold full, Command.pageFullName.
    apply CommandFacts.str_indexOf_occurs in Hyes.
    destruct (Js.str_indexOf ".aspx" (pageName options) <? 0) eqn:E; [|reflexivity].
    apply Z.ltb_lt in E. lia.
  - intros r Hin.
    destruct (CommandFacts.requests_of_run JSON_parse enc service options r Hin)
      as [->|[->|[->|(res & wp & edited & _ & _ & ->)]]].
    + left. unfold Command.fetchRequest. now rewrite Hurl.
    + right; left. unfold Command.checkoutRequest. now rewrite Hurl.
    + right; right; left. reflexivity.
    + right; right; right. exists edited. unfold Command.saveRequest. now rewrite Hurl.
  - intros canvas webPart webPart' edited HP HC HW HS HE.
    unfold Command.commandAction, andThen, request, settle, resolve.
    rewrite HP. cbn. rewrite HC. cbn. rewrite HW. cbn. rewrite HS. cbn. rewrite HE. cbn.
    unfold Command.fetchRequest, Command.checkoutRequest, Command.saveRequest,
      Command.catalogRequest.
    now rewrite !Hurl.
Qed.
(** * Further properties of the command *)

(** ** Merging payloads *)

Module PayloadFacts.
Import Payload.

Lemma lookup_absent k o : ~ In k (Catalog.keys o) -> lookup k o = None.
Proof.
  induction o as [|k' v' r IH]; simpl; intros H; [reflexivity|].
  destruct (String.eqb_spec k' k) as [->|Hne]; [tauto|]. apply IH. tauto.
Qed.

Lemma lookup_present k o : In k (Catalog.keys o) -> exists v, lookup k o = Some v.
Proof.
  induction o as [|k' v' r IH]; simpl; intros H; [contradiction|].
  destruct (String.eqb_spec k' k) as [->|Hne]; [eauto|].
  apply IH. destruct H; [contradiction|assumption].
Qed.

Lemma has_In k o : has k o = true <-> In k (Catalog.keys o).
Proof.
  unfold has. split.
  - intros H. destruct (in_dec string_dec k (Catalog.keys o)) as [|Hn]; [assumption|].
    rewrite (lookup_absent _ _ Hn) in H. discriminate.
  - intros H. destruct (lookup_present _ _ H) as [v ->]. reflexivity.
Qed.

Lemma has_false k o : has k o = false <-> ~ In k (Catalog.keys o).
Proof.
  rewrite <- has_In. destruct (has k o); split; congruence.
Qed.

Lemma arrayIndex_decimal k i : Js.arrayIndex k = Some i -> k = Js.decimal i.
Proof.
  unfold Js.arrayIndex. destruct (Js.digits 0 k) as [n|]; [|discriminate].
  destruct (String.eqb_spec (Js.decimal n) k) as [E|]; [|discriminate].
  destruct (n <=? 4294967294); [|discriminate].
  intros H. injection H as <-. now symmetry.
Qed.

Lemma arrayIndex_inj k k' i :
  Js.arrayIndex k = Some i -> Js.arrayIndex k' = Some i -> k = k'.
Proof.
  intros H H'. apply arrayIndex_decimal in H. apply arrayIndex_decimal in H'. congruence.
Qed.

(** *** [replace] *)

Lemma keys_replace k v o : Catalog.keys (replace k v o) = Catalog.keys o.
Proof.
  induction o as [|k' v' r IH]; simpl; [reflexivity|].
  destruct (String.eqb_spec k' k) as [->|Hne]; simpl; [reflexivity|now rewrite IH].
Qed.

Lemma lookup_replace_same k v o :
  In k (Catalog.keys o) -> lookup k (replace k v o) = Some v.
Proof.
  induction o as [|k' v' r IH]; simpl; intros H; [contradiction|].
  destruct (String.eqb_spec k' k) as [->|Hne]; simpl.
  - now rewrite String.eqb_refl.
  - destruct (String.eqb_spec k' k); [contradiction|].
    apply IH. destruct H; [contradiction|assumption].
Qed.

Lemma lookup_replace_other k k' v o :
  k' <> k -> lookup k' (replace k v o) = lookup k' o.
Proof.
  intros Hne. induction o as [|k0 v0 r IH]; simpl; [reflexivity|].
  destruct (String.eqb_spec k0 k) as [->|H0]; simpl.
  - destruct (String.eqb_spec k k'); [congruence|reflexivity].
  - destruct (String.eqb_spec k0 k'); [reflexivity|exact IH].
Qed.

(** *** [append], [place] and [define] *)

Lemma keys_append o1 o2 :
  Catalog.keys (append o1 o2) = Catalog.keys o1 ++ Catalog.keys o2.
Proof. induction o1 as [|k v r IH]; simpl; [reflexivity|now rewrite IH]. Qed.

Lemma lookup_append k o1 o2 :
  lookup k (append o1 o2)
  = match lookup k o1 with
    | Some v => Some v
    | None => lookup k o2
    end.
Proof.
  induction o1 as [|k' v' r IH]; simpl; [reflexivity|].
  destruct (k' =? k)%string; [reflexivity|exact IH].
Qed.

Lemma keys_place i k v o :
  exists before after,
    Catalog.keys o = before ++ after /\
    Catalog.keys (place i k v o) = before ++ k :: after /\
    (forall k', In k' before -> exists j, Js.arrayIndex k' = Some j /\ j < i).
Proof.
  induction o as [|k' v' r IH]; simpl.
  - exists [], []. repeat split. intros ? [].
  - destruct (Js.arrayIndex k') as [j|] eqn:E.
    + destruct (j <? i) eqn:L.
      * destruct IH as (b & a & H1 & H2 & H3).
        exists (k' :: b), a. simpl. rewrite H1, H2. repeat split.
        intros x [<-|Hx]; [|now apply H3].
        exists j. split; [assumption|now apply Z.ltb_lt].
      * exists [], (k' :: Catalog.keys r). repeat split. intros ? [].
    + exists [], (k' :: Catalog.keys r). repeat split. intros ? [].
Qed.

Lemma lookup_place_other i k k' v o :
  k' <> k -> lookup k' (place i k v o) = lookup k' o.
Proof.
  intros Hne. induction o as [|k0 v0 r IH]; simpl.
  - destruct (String.eqb_spec k k'); [congruence|reflexivity].
  - destruct (Js.arrayIndex k0) as [j|]; [destruct (j <? i)|]; simpl.
    + destruct (k0 =? k')%string; [reflexivity|exact IH].
    + destruct (String.eqb_spec k k'); [congruence|reflexivity].
    + destruct (String.eqb_spec k k'); [congruence|reflexivity].
Qed.

Lemma lookup_place_same i k v o :
  Js.arrayIndex k = Some i -> lookup k (place i k v o) = Some v.
Proof.
  intros Hk. induction o as [|k0 v0 r IH]; simpl.
  - now rewrite String.eqb_refl.
  - destruct (Js.arrayIndex k0) as [j|] eqn:E; [destruct (j <? i) eqn:L|]; simpl.
    + destruct (String.eqb_spec k0 k) as [->|_]; [|exact IH].
      rewrite Hk in E. injection E as <-. rewrite Z.ltb_irrefl in L. discriminate.
    + now rewrite String.eqb_refl.
    + now rewrite String.eqb_refl.
Qed.

Lemma lookup_define_other k k' v o :
  k' <> k -> lookup k' (define k v o) = lookup k' o.
Proof.
  intros Hne. unfold define. destruct (Js.arrayIndex k) as [i|].
  - now apply lookup_place_other.
  - rewrite lookup_append. simpl.
    destruct (String.eqb_spec k k'); [congruence|]. now destruct (lookup k' o).
Qed.

Lemma lookup_define_same k v o :
  has k o = false -> lookup k (define k v o) = Some v.
Proof.
  intros H. unfold define. destruct (Js.arrayIndex k) as [i|] eqn:E.
  - now apply lookup_place_same.
  - rewrite lookup_append. unfold has in H.
    destruct (lookup k o); [discriminate|]. simpl. now rewrite String.eqb_refl.
Qed.

Lemma In_keys_define k v o x :
  In x (Catalog.keys (define k v o)) <-> x = k \/ In x (Catalog.keys o).
Proof.
  unfold define. destruct (Js.arrayIndex k) as [i|].
  - destruct (keys_place i k v o) as (b & a & -> & -> & _).
    rewrite !in_app_iff. simpl. intuition congruence.
  - rewrite keys_append, in_app_iff. simpl. intuition congruence.
Qed.

Lemma NoDup_keys_define k v o :
  has k o = false -> NoDup (Catalog.keys o) -> NoDup (Catalog.keys (define k v o)).
Proof.
  intros H Hnd. apply has_false in H. unfold define.
  destruct (Js.arrayIndex k) as [i|].
  - destruct (keys_place i k v o) as (b & a & Hk & -> & _).
    rewrite Hk in *.
    apply (Permutation_NoDup (Permutation_middle b a k)). now constructor.
  - rewrite keys_append. simpl.
    apply NoDup_app; [assumption|repeat constructor; intros []|].
    intros x Hx [<-|[]]. contradiction.
Qed.

(** *** The order of the properties *)

Lemma otherNames_define_index k i v o :
  Js.arrayIndex k = Some i -> otherNames (define k v o) = otherNames o.
Proof.
  intros E. unfold otherNames, define. rewrite E.
  destruct (keys_place i k v o) as (b & a & -> & -> & _).
  rewrite !filter_app. simpl. unfold isIndex at 2. now rewrite E.
Qed.

Lemma otherNames_define_name k v o :
  Js.arrayIndex k = None -> otherNames (define k v o) = otherNames o ++ [k].
Proof.
  intros E. unfold otherNames, define. rewrite E, keys_append, filter_app. simpl.
  unfold isIndex at 2. now rewrite E.
Qed.

Lemma forallb_names_app l k :
  Js.arrayIndex k = None ->
  forallb (fun k' => negb (isIndex k')) (l ++ [k])
  = forallb (fun k' => negb (isIndex k')) l.
Proof.
  intros E. rewrite forallb_app. simpl. unfold isIndex at 2. rewrite E. simpl.
  now rewrite !andb_true_r.
Qed.

Lemma ascendingFrom_append ks k : forall lo,
  Js.arrayIndex k = None ->
  ascendingFrom lo ks = true -> ascendingFrom lo (ks ++ [k]) = true.
Proof.
  induction ks as [|k0 r IH]; intros lo E H; simpl in *.
  - now rewrite E.
  - destruct (Js.arrayIndex k0) as [j|].
    + apply andb_true_iff in H. destruct H as [H1 H2].
      rewrite H1. simpl. now apply IH.
    + now rewrite forallb_names_app.
Qed.

Lemma ascendingFrom_place i k v o : forall lo,
  Js.arrayIndex k = Some i ->
  lo <= i ->
  has k o = false ->
  ascendingFrom lo (Catalog.keys o) = true ->
  ascendingFrom lo (Catalog.keys (place i k v o)) = true.
Proof.
  induction o as [|k0 v0 r IH]; intros lo E Hlo Hhas H; simpl in *.
  - rewrite E. apply andb_true_iff. split; [now apply Z.leb_le|reflexivity].
  - assert (Hne : k0 <> k).
    { intros ->. unfold has in Hhas. simpl in Hhas.
      rewrite String.eqb_refl in Hhas. discriminate. }
    assert (Hr : has k r = false).
    { unfold has in *. simpl in Hhas.
      destruct (String.eqb_spec k0 k); [contradiction|exact Hhas]. }
    destruct (Js.arrayIndex k0) as [j|] eqn:E0.
    + apply andb_true_iff in H. destruct H as [H1 H2].
      destruct (j <? i) eqn:L; simpl; rewrite ?E0, ?E.
      * rewrite H1. simpl. apply IH; try assumption. apply Z.ltb_lt in L. lia.
      * apply Z.ltb_ge in L.
        assert (j <> i).
        { intros ->. apply Hne. now apply (arrayIndex_inj k0 k i). }
        apply andb_true_iff. split; [now apply Z.leb_le|].
        apply andb_true_iff. split; [apply Z.leb_le; lia|exact H2].
    + simpl. rewrite E, E0.
      apply andb_true_iff. split; [now apply Z.leb_le|exact H].
Qed.

Lemma digits_nonneg s : forall acc m,
  0 <= acc -> Js.digits acc s = Some m -> 0 <= m.
Proof.
  induction s as [|a s IH]; cbn [Js.digits]; intros acc m Hacc Hd.
  - injection Hd as <-. assumption.
  - unfold Js.digit in Hd. cbv zeta in Hd.
    destruct ((48 <=? Z.of_nat (nat_of_ascii a)) && (Z.of_nat (nat_of_ascii a) <=? 57))
      eqn:B; [|discriminate].
    apply andb_true_iff in B. destruct B as [B1 B2].
    apply Z.leb_le in B1. eapply IH; [|exact Hd]. lia.
Qed.

Lemma arrayIndex_nonneg k i : Js.arrayIndex k = Some i -> 0 <= i.
Proof.
  unfold Js.arrayIndex. destruct (Js.digits 0 k) as [n|] eqn:D; [|discriminate].
  destruct ((Js.decimal n =? k)%string && (n <=? 4294967294)); [|discriminate].
  intros H. injection H as <-. exact (digits_nonneg _ _ _ (Z.le_refl 0) D).
Qed.

Lemma propertyOrder_define k v o :
  has k o = false -> propertyOrder o = true -> propertyOrder (define k v o) = true.
Proof.
  unfold propertyOrder, define. intros Hhas H.
  destruct (Js.arrayIndex k) as [i|] eqn:E.
  - apply ascendingFrom_place; try assumption. now apply (arrayIndex_nonneg k).
  - rewrite keys_append. now apply ascendingFrom_append.
Qed.

(** *** [assign] *)

Lemma assign_cases k v t :
  (has k (own t) = true /\ assign k v t = mkObj (replace k v (own t)) (proto t)) \/
  (has k (own t) = false /\ k = "__proto__" /\ accessorReached (proto t) = true /\
   own (assign k v t) = own t) \/
  (has k (own t) = false /\ (k <> "__proto__" \/ accessorReached (proto t) = false) /\
   assign k v t = mkObj (define k v (own t)) (proto t)).
Proof.
  unfold assign. destruct (has k (own t)); [now left|right].
  destruct (String.eqb_spec k "__proto__") as [->|Hne]; simpl.
  - destruct (accessorReached (proto t)).
    + left. repeat split. now destruct v.
    + right. auto.
  - right. auto.
Qed.

Lemma proto_assign k v t : k <> "__proto__" -> proto (assign k v t) = proto t.
Proof.
  intros Hne. destruct (assign_cases k v t) as [[_ ->]|[(_ & -> & _)|(_ & _ & ->)]];
    [reflexivity|contradiction|reflexivity].
Qed.

Lemma lookup_assign_other k k' v t :
  k' <> k -> lookup k' (own (assign k v t)) = lookup k' (own t).
Proof.
  intros Hne. destruct (assign_cases k v t) as [[_ ->]|[(_ & _ & _ & ->)|(_ & _ & ->)]];
    simpl; [now apply lookup_replace_other|reflexivity|now apply lookup_define_other].
Qed.

Lemma lookup_assign_same k v t :
  k <> "__proto__" \/ has k (own t) = true ->
  lookup k (own (assign k v t)) = Some v.
Proof.
  intros H. destruct (assign_cases k v t) as [[Hh ->]|[(Hh & -> & _)|(Hh & _ & ->)]]; simpl.
  - apply lookup_replace_same. now apply has_In.
  - destruct H; congruence.
  - now apply lookup_define_same.
Qed.

Lemma has_assign k k' v t :
  has k' (own t) = true -> has k' (own (assign k v t)) = true.
Proof.
  intros H. destruct (String.eqb_spec k k') as [->|Hne].
  - unfold has. rewrite lookup_assign_same; auto.
  - unfold has in *. rewrite lookup_assign_other by congruence. exact H.
Qed.

(** *** [extend] *)

(** A property the target has stays one, whatever the source. *)
Lemma has_extendObject source : forall t k,
  has k (own t) = true -> has k (own (extendObject t source)) = true.
Proof.
  induction source as [|k0 v0 r IH]; intros t k H; simpl; [exact H|].
  apply IH. now apply has_assign.
Qed.

Lemma untouched_step k v r t :
  untouched t (FCons k v r) ->
  untouched (assign k v t) r /\
  ~ In k (Catalog.keys r) /\
  ((has k (own t) = true /\ own (assign k v t) = replace k v (own t)) \/
   (has k (own t) = false /\ k = "__proto__" /\ own (assign k v t) = own t) \/
   (has k (own t) = false /\ k <> "__proto__" /\ own (assign k v t) = define k v (own t))).
Proof.
  intros [Hnd Hp]. simpl in Hnd, Hp. inversion Hnd as [|? ? Hk Hr]; subst.
  split; [|split; [exact Hk|]].
  - split; [exact Hr|].
    destruct (String.eqb_spec k "__proto__") as [->|Hne]; [now right|].
    rewrite proto_assign by assumption. destruct Hp as [Hp|Hp]; [now left|right; tauto].
  - destruct (assign_cases k v t) as [[Hh ->]|[(Hh & -> & _ & Ho)|(Hh & Hc & ->)]].
    + left. split; [exact Hh|reflexivity].
    + right. left. auto.
    + right. right. split; [exact Hh|]. split; [|reflexivity].
      intros ->. destruct Hc as [Hc|Hc]; [congruence|].
      destruct Hp as [Hp|Hp]; [|tauto]. rewrite Hp in Hc. discriminate.
Qed.

Lemma extend_lookup source : forall t k,
  untouched t source ->
  k <> "__proto__" \/ has k (own t) = true ->
  lookup k (own (extendObject t source))
  = match lookup k source with
    | Some v => Some v
    | None => lookup k (own t)
    end.
Proof.
  induction source as [|k0 v0 r IH]; intros t k Hu Hk; simpl; [reflexivity|].
  destruct (untouched_step _ _ _ _ Hu) as (Hu' & Hk0 & _).
  rewrite (IH _ k Hu').
  - destruct (String.eqb_spec k0 k) as [->|Hne].
    + rewrite (lookup_absent _ _ Hk0). now apply lookup_assign_same.
    + destruct (lookup k r); [reflexivity|].
      apply lookup_assign_other. congruence.
  - destruct Hk as [Hk|Hk]; [now left|right]. now apply has_assign.
Qed.

Lemma extend_no_proto source : forall t,
  untouched t source ->
  has "__proto__" (own t) = false ->
  has "__proto__" (own (extendObject t source)) = false.
Proof.
  induction source as [|k0 v0 r IH]; intros t Hu H; simpl; [exact H|].
  destruct (untouched_step _ _ _ _ Hu) as (Hu' & Hk0 & Hc).
  apply IH; [exact Hu'|].
  destruct Hc as [[Hh ->]|[(Hh & -> & ->)|(Hh & Hne & ->)]].
  - unfold has in *. rewrite lookup_replace_other; [exact H|].
    intros <-. congruence.
  - exact H.
  - unfold has in *. rewrite lookup_define_other; [exact H|congruence].
Qed.

Lemma extend_In source : forall t k,
  untouched t source ->
  In k (Catalog.keys (own (extendObject t source)))
  <-> In k (Catalog.keys (own t)) \/ (In k (Catalog.keys source) /\ k <> "__proto__").
Proof.
  induction source as [|k0 v0 r IH]; intros t k Hu; simpl; [tauto|].
  destruct (untouched_step _ _ _ _ Hu) as (Hu' & Hk0 & Hc).
  rewrite (IH _ k Hu').
  destruct Hc as [[Hh ->]|[(Hh & -> & ->)|(Hh & Hne & ->)]].
  - rewrite keys_replace. apply has_In in Hh.
    split; [tauto|]. intros [H|[[<-|H] Hn]]; tauto.
  - split; [tauto|]. intros [H|[[<-|H] Hn]]; tauto.
  - rewrite In_keys_define. split.
    + intros [[->|H]|[H Hn]]; auto.
    + intros [H|[[<-|H] Hn]]; auto.
Qed.

Lemma extend_NoDup source : forall t,
  untouched t source ->
  NoDup (Catalog.keys (own t)) ->
  NoDup (Catalog.keys (own (extendObject t source))).
Proof.
  induction source as [|k0 v0 r IH]; intros t Hu H; simpl; [exact H|].
  destruct (untouched_step _ _ _ _ Hu) as (Hu' & Hk0 & Hc).
  apply IH; [exact Hu'|].
  destruct Hc as [[Hh ->]|[(Hh & -> & ->)|(Hh & Hne & ->)]].
  - now rewrite keys_replace.
  - exact H.
  - now apply NoDup_keys_define.
Qed.

Lemma extend_order source : forall t,
  propertyOrder (own t) = true ->
  propertyOrder (own (extendObject t source)) = true.
Proof.
  induction source as [|k0 v0 r IH]; intros t H; simpl; [exact H|].
  apply IH.
  destruct (assign_cases k0 v0 t) as [[Hh ->]|[(Hh & _ & _ & ->)|(Hh & _ & ->)]]; simpl.
  - unfold propertyOrder. now rewrite keys_replace.
  - exact H.
  - now apply propertyOrder_define.
Qed.

Lemma created_cons_skip k v r target :
  isIndex k = true \/ has k target = true \/ k = "__proto__" ->
  created target (FCons k v r) = created target r.
Proof.
  intros H. unfold created. simpl.
  destruct H as [-> | [-> | ->]]; simpl; rewrite ?andb_false_r; reflexivity.
Qed.

Lemma created_cons_keep k v r target :
  isIndex k = false -> has k target = false -> k <> "__proto__" ->
  created target (FCons k v r) = k :: created target r.
Proof.
  intros H1 H2 H3. unfold created. simpl. rewrite H1, H2. simpl.
  destruct (String.eqb_spec k "__proto__"); [contradiction|reflexivity].
Qed.

Lemma created_ext target target' source :
  (forall k, In k (Catalog.keys source) -> has k target' = has k target) ->
  created target' source = created target source.
Proof.
  intros H. unfold created. apply filter_ext_in. intros k Hk. now rewrite H.
Qed.

Lemma extend_names source : forall t,
  untouched t source ->
  otherNames (own (extendObject t source))
  = otherNames (own t) ++ created (own t) source.
Proof.
  induction source as [|k0 v0 r IH]; intros t Hu; simpl.
  - unfold created. simpl. now rewrite app_nil_r.
  - destruct (untouched_step _ _ _ _ Hu) as (Hu' & Hk0 & Hc).
    rewrite (IH _ Hu').
    assert (Hsame : forall k, In k (Catalog.keys r) ->
                              has k (own (assign k0 v0 t)) = has k (own t)).
    { intros k Hk. unfold has. rewrite lookup_assign_other; [reflexivity|].
      intros ->. contradiction. }
    rewrite (created_ext _ _ _ Hsame).
    destruct Hc as [[Hh ->]|[(Hh & -> & ->)|(Hh & Hne & ->)]].
    + rewrite created_cons_skip by auto.
      unfold otherNames. now rewrite keys_replace.
    + rewrite created_cons_skip by auto. reflexivity.
    + destruct (Js.arrayIndex k0) as [i|] eqn:E.
      * rewrite (otherNames_define_index _ i) by assumption.
        rewrite created_cons_skip; [reflexivity|]. left. unfold isIndex. now rewrite E.
      * rewrite otherNames_define_name by assumption.
        rewrite created_cons_keep; try assumption.
        -- now rewrite <- app_assoc.
        -- unfold isIndex. now rewrite E.
Qed.

Lemma untouched_fresh target source :
  NoDup (Catalog.keys source) -> untouched (mkObj target ObjectPrototype) source.
Proof. intros H. split; [exact H|now left]. Qed.

End PayloadFacts.

(** X1. [extend] is a shallow merge in which the source wins name by
    name. With a source whose property names are distinct, a property of
    the result is the one of the source when the source has it and the
    one of the target otherwise; this holds for every name but
    [__proto__], and for [__proto__] too when the target has a property
    of that name. When it has none, the assignment goes to the accessor
    of [Object.prototype] and the result has no such property either. *)
Theorem extend_source_wins :
  forall (target source : JsFields) (k : string),
    NoDup (Catalog.keys source) ->
    (k <> "__proto__" \/ Payload.lookup k target <> None ->
     Payload.lookup k (Payload.extend target source)
     = match Payload.lookup k source with
       | Some v => Some v
       | None => Payload.lookup k target
       end) /\
    (Payload.lookup "__proto__" target = None ->
     Payload.lookup "__proto__" (Payload.extend target source) = None).
Proof.
  intros target source k Hnd. unfold Payload.extend. split.
  - intros Hk. rewrite PayloadFacts.extend_lookup.
    + reflexivity.
    + now apply PayloadFacts.untouched_fresh.
    + destruct Hk as [Hk|Hk]; [now left|right]. simpl. unfold Payload.has.
      destruct (Payload.lookup k target); [reflexivity|congruence].
  - intros Hp.
    assert (H : Payload.has "__proto__"
                  (Payload.own (Payload.extendObject
                                  (Payload.mkObj target Payload.ObjectPrototype) source))
                = false).
    { apply PayloadFacts.extend_no_proto; [now apply PayloadFacts.untouched_fresh|].
      simpl. unfold Payload.has. now rewrite Hp. }
    clear Hp. unfold Payload.has in H.
    destruct (Payload.lookup "__proto__" _); [discriminate|reflexivity].
Qed.

Lemma extend_source_wins_witness :
  Payload.lookup "zoom"
    (Payload.extend (FCons "zoom" (JsNum 12) (FCons "title" (JsStr "Map") FNil))
       PayloadSample.properties)
  = Some (JsNum 3) /\
  Payload.lookup "__proto__"
    (Payload.extend (FCons "zoom" (JsNum 12) (FCons "title" (JsStr "Map") FNil))
       PayloadSample.properties)
  = None.
Proof.
  assert (Hnd : NoDup (Catalog.keys PayloadSample.properties)).
  { repeat constructor; simpl; intuition discriminate. }
  destruct (extend_source_wins (FCons "zoom" (JsNum 12) (FCons "title" (JsStr "Map") FNil))
              PayloadSample.properties "zoom" Hnd) as [H1 H2].
  split; [apply H1; left; discriminate|apply H2; reflexivity].
Defined.

(** X2. The properties of [extend]'s result, for a source with distinct
    names: they are the ones of the target and the ones of the source
    other than [__proto__], each once when the target has each once; a
    target in the order of [Object.getOwnPropertyNames] (array indices
    first, ascending) gives a result in that order, whatever the order of
    the source; and the names that are not array indices are those of
    the target, in their order, followed by the ones [extend] creates,
    in the order of the source. *)
Theorem extend_keeps_target_keys :
  forall (target source : JsFields),
    NoDup (Catalog.keys source) ->
    (forall k, In k (Catalog.keys (Payload.extend target source))
               <-> In k (Catalog.keys target)
                   \/ (In k (Catalog.keys source) /\ k <> "__proto__")) /\
    (NoDup (Catalog.keys target) ->
     NoDup (Catalog.keys (Payload.extend target source))) /\
    (propertyOrder target = true ->
     propertyOrder (Payload.extend target source) = true) /\
    otherNames (Payload.extend target source)
    = otherNames target ++ created target source.
Proof.
  intros target source Hnd.
  assert (Hu := PayloadFacts.untouched_fresh target source Hnd).
  unfold Payload.extend. split; [|split; [|split]].
  - intros k. apply (PayloadFacts.extend_In source _ k Hu).
  - intros Ht. now apply PayloadFacts.extend_NoDup.
  - intros Ho. now apply PayloadFacts.extend_order.
  - apply (PayloadFacts.extend_names source _ Hu).
Qed.

Lemma extend_keeps_target_keys_witness :
  Catalog.keys
    (Payload.extend (FCons "zoom" (JsNum 12) (FCons "title" (JsStr "Map") FNil))
       (FCons "layer" (JsStr "road") PayloadSample.properties))
  = ["1"; "zoom"; "title"; "layer"] /\
  otherNames
    (Payload.extend (FCons "zoom" (JsNum 12) (FCons "title" (JsStr "Map") FNil))
       (FCons "layer" (JsStr "road") PayloadSample.properties))
  = ["zoom"; "title"] ++ ["layer"].
Proof.
  assert (Hnd : NoDup (Catalog.keys (FCons "layer" (JsStr "road") PayloadSample.properties))).
  { repeat constructor; simpl; intuition discriminate. }
  destruct (extend_keeps_target_keys
              (FCons "zoom" (JsNum 12) (FCons "title" (JsStr "Map") FNil))
              (FCons "layer" (JsStr "road") PayloadSample.properties) Hnd)
    as (_ & _ & _ & H).
  split; [reflexivity|exact H].
Defined.

(** ** [setWebPartProperties] and [validate] *)

Module SettingFacts.
Import Payload.

Lemma ownProperties_none v : ownProperties v = None <-> v = JsNull.
Proof. destruct v; simpl; split; congruence. Qed.

Lemma truthy_str_text (o : option string) :
  Js.truthy_str o = true -> exists s, o = Some s /\ s <> "".
Proof.
  destruct o as [s|]; simpl; [|discriminate].
  destruct (String.eqb_spec s ""); [discriminate|]. eauto.
Qed.

(** Without an assignment to [__proto__] the target inherits from what it
    did. *)
Lemma proto_extendObject_other source : forall t,
  ~ In "__proto__" (Catalog.keys source) -> proto (extendObject t source) = proto t.
Proof.
  induction source as [|k0 v0 r IH]; intros t H; simpl in *; [reflexivity|].
  rewrite IH by tauto. apply PayloadFacts.proto_assign. intros ->. tauto.
Qed.

(** What the target of [extend] inherits from afterwards. *)
Lemma proto_extendObject source : forall t,
  untouched t source ->
  proto t = ObjectPrototype ->
  proto (extendObject t source)
  = if has "__proto__" (own t) then ObjectPrototype
    else
      match lookup "__proto__" source with
      | Some (JsObj f) => Inherits (JsObj f)
      | Some (JsArr a) => Inherits (JsArr a)
      | Some JsNull => NullPrototype
      | _ => ObjectPrototype
      end.
Proof.
  induction source as [|k0 v0 r IH]; intros t Hu Hp; simpl.
  - rewrite Hp. now destruct (has "__proto__" (own t)).
  - destruct (PayloadFacts.untouched_step _ _ _ _ Hu) as (Hu' & Hk0 & _).
    destruct (String.eqb_spec k0 "__proto__") as [->|Hne].
    + rewrite proto_extendObject_other by assumption.
      unfold assign. destruct (has "__proto__" (own t)); [exact Hp|].
      rewrite Hp. simpl. destruct v0; simpl; auto.
    + rewrite (IH _ Hu') by (now rewrite PayloadFacts.proto_assign).
      unfold has. now rewrite PayloadFacts.lookup_assign_other by congruence.
Qed.

Section WithParser.

Variable JSON_parse : string -> Result JsValue.

(** The first half changes nothing but the [properties] of the payload. *)
Lemma mergeProperties_shape webPart options :
  mergeProperties JSON_parse webPart options = webPart \/
  exists merged,
    mergeProperties JSON_parse webPart options
    = mkWebPart (wp_id webPart) (replace "properties" merged (wp_webPartData webPart))
        (wp_webPartId webPart).
Proof.
  unfold mergeProperties.
  destruct (webPartProperties options) as [s|]; [|now left].
  destruct (Js.truthy_str (Some s)); [|now left].
  destruct (JSON_parse s) as [e|v]; [now left|].
  destruct (extendValue _ v) as [merged|]; [right; eauto|now left].
Qed.

Lemma mergeProperties_lookup webPart options k :
  k <> "properties" ->
  lookup k (wp_webPartData (mergeProperties JSON_parse webPart options))
  = lookup k (wp_webPartData webPart).
Proof.
  intros Hk. destruct (mergeProperties_shape webPart options) as [->|(merged & ->)];
    [reflexivity|].
  simpl. now apply PayloadFacts.lookup_replace_other.
Qed.

Lemma mergeProperties_instanceId webPart options :
  wp_id (mergeProperties JSON_parse webPart options) = wp_id webPart /\
  wp_webPartId (mergeProperties JSON_parse webPart options) = wp_webPartId webPart /\
  lookup "instanceId" (wp_webPartData (mergeProperties JSON_parse webPart options))
  = lookup "instanceId" (wp_webPartData webPart).
Proof.
  split; [|split; [|apply mergeProperties_lookup; discriminate]];
    destruct (mergeProperties_shape webPart options) as [->|(merged & ->)]; reflexivity.
Qed.

Lemma rejection_cause webPart options msg :
  setWebPartProperties JSON_parse webPart options = Rejected msg ->
  exists input,
    opt_webPartData options = Some input /\ input <> "" /\
    (JSON_parse input = Rejected msg \/
     (JSON_parse input = Ok JsNull /\ msg = typeError)).
Proof.
  unfold setWebPartProperties, mergeData.
  destruct (opt_webPartData options) as [s|]; [|discriminate].
  destruct (Js.truthy_str (Some s)) eqn:T; [|discriminate].
  destruct (truthy_str_text _ T) as (s' & Hs & Hne).
  injection Hs as <-.
  destruct (JSON_parse s) as [e|v] eqn:P.
  - intros H. injection H as <-. exists s. auto.
  - destruct (ownProperties v) as [props|] eqn:O; [discriminate|].
    apply ownProperties_none in O. subst v.
    intros H. injection H as <-. exists s. auto.
Qed.

(** With an [instanceId] of its own, the payload keeps one and the [id]
    stays equal to it. *)
Lemma id_invariant webPart webPart' options :
  wp_id webPart = lookup "instanceId" (wp_webPartData webPart) ->
  lookup "instanceId" (wp_webPartData webPart) <> None ->
  setWebPartProperties JSON_parse webPart options = Ok webPart' ->
  wp_id webPart' = lookup "instanceId" (wp_webPartData webPart') /\
  lookup "instanceId" (wp_webPartData webPart') <> None /\
  wp_webPartId webPart' = wp_webPartId webPart.
Proof.
  intros Hid Hown.
  unfold setWebPartProperties.
  destruct (mergeProperties_instanceId webPart options) as (H1 & H2 & H3).
  set (merged := mergeProperties JSON_parse webPart options) in *.
  unfold mergeData.
  assert (Hsame : Ok merged = Ok webPart' ->
                  wp_id webPart' = lookup "instanceId" (wp_webPartData webPart') /\
                  lookup "instanceId" (wp_webPartData webPart') <> None /\
                  wp_webPartId webPart' = wp_webPartId webPart).
  { intros H. injection H as <-. repeat split; congruence. }
  destruct (opt_webPartData options) as [s|]; [|exact Hsame].
  destruct (Js.truthy_str (Some s)); [|exact Hsame].
  destruct (JSON_parse s) as [e|v]; [discriminate|].
  destruct (ownProperties v) as [props|]; [|discriminate].
  intros H. injection H as <-. cbn [wp_id wp_webPartData wp_webPartId].
  assert (Hhas : has "instanceId"
                   (own (extendObject (mkObj (wp_webPartData merged) ObjectPrototype) props))
                 = true).
  { apply PayloadFacts.has_extendObject. simpl. unfold has. rewrite H3.
    destruct (lookup "instanceId" (wp_webPartData webPart)); [reflexivity|congruence]. }
  unfold has in Hhas. unfold instanceId.
  destruct (lookup "instanceId" (own _)); [|discriminate].
  repeat split; [discriminate|exact H2].
Qed.

End WithParser.

(** A payload without an [instanceId] of its own can inherit one: the
    [id] is then a value that is not among the properties of the payload,
    and so not in what is saved. *)
Lemma inherited_instanceId :
  setWebPartProperties PayloadSample.parse PayloadSample.bare PayloadSample.inheriting
  = Ok (mkWebPart (Some (JsStr "inherited")) (FCons "dataVersion" (JsStr "1.0") FNil)
          (JsStr "e377ea37-9047-43b9-8cdb-a761be2f8e09")).
Proof. reflexivity. Qed.

(** [--webPartProperties] merged into the properties of the template: the
    index comes first, and [__proto__] is no property of the result. *)
Lemma merged_properties :
  setWebPartProperties PayloadSample.parse
    (mkWebPart (wp_id Sample.webPart)
       (FCons "properties" (JsObj (FCons "zoom" (JsNum 12) (FCons "title" (JsStr "Map") FNil)))
          FNil)
       (wp_webPartId Sample.webPart))
    PayloadSample.propertiesOnly
  = Ok (mkWebPart (wp_id Sample.webPart)
          (FCons "properties"
             (JsObj (FCons "1" (JsStr "x")
                       (FCons "zoom" (JsNum 3) (FCons "title" (JsStr "Map") FNil))))
             FNil)
          (wp_webPartId Sample.webPart)).
Proof. reflexivity. Qed.

(** Properties that are an array: the elements and the [length] of the
    source are written onto it; a [length] that is no length stops the
    merge, and what was written before stays. *)
Lemma merged_array :
  extendValue (Some (JsArr (ICons (JsNum 1) (ICons (JsNum 2) (ICons (JsNum 3) INil)))))
    (JsArr (ICons (JsNum 9) INil))
  = Some (JsArr (ICons (JsNum 9) INil)) /\
  extendValue (Some (JsArr (ICons (JsNum 1) INil)))
    (JsObj (FCons "2" (JsNum 7) (FCons "length" (JsStr "many") (FCons "zoom" (JsNum 3) FNil))))
  = Some (JsArr (ICons (JsNum 1) (ICons JsNull (ICons (JsNum 7) INil)))) /\
  extendValue (Some (JsStr "road")) (JsObj (FCons "zoom" (JsNum 3) FNil))
  = Some (JsStr "road") /\
  extendValue None (JsObj (FCons "zoom" (JsNum 3) FNil)) = None.
Proof. repeat split. Qed.

End SettingFacts.

(** X3. A [webPartProperties] text that does not parse is dropped without
    a trace (the empty [catch]): the web part is left as it was and, with
    no [webPartData] given, [setWebPartProperties] succeeds. *)
Theorem malformed_properties_are_swallowed :
  forall (JSON_parse : string -> Result JsValue) (webPart : WebPart) (options : Options)
         (input e : string),
    webPartProperties options = Some input ->
    JSON_parse input = Rejected e ->
    Payload.mergeProperties JSON_parse webPart options = webPart /\
    Payload.setWebPartProperties JSON_parse webPart options
    = Payload.mergeData JSON_parse webPart options /\
    (Js.truthy_str (opt_webPartData options) = false ->
     Payload.setWebPartProperties JSON_parse webPart options = Ok webPart).
Proof.
  intros JSON_parse webPart options input e Hp Hparse.
  assert (Hm : Payload.mergeProperties JSON_parse webPart options = webPart).
  { unfold Payload.mergeProperties. rewrite Hp.
    destruct (Js.truthy_str (Some input)); [|reflexivity]. now rewrite Hparse. }
  unfold Payload.setWebPartProperties. rewrite Hm. repeat split.
  intros Hd. unfold Payload.mergeData.
  destruct (opt_webPartData options) as [s|]; [|reflexivity]. now rewrite Hd.
Qed.

Lemma malformed_properties_are_swallowed_witness :
  Payload.setWebPartProperties Sample.parseEmptyObject Sample.webPart
    (mkOptions "home" "https://contoso.sharepoint.com" None None
       (Some "e377ea37-9047-43b9-8cdb-a761be2f8e09") (Some "{oops") None None None)
  = Ok Sample.webPart.
Proof.
  exact (proj2 (proj2 (malformed_properties_are_swallowed Sample.parseEmptyObject
           Sample.webPart
           (mkOptions "home" "https://contoso.sharepoint.com" None None
              (Some "e377ea37-9047-43b9-8cdb-a761be2f8e09") (Some "{oops") None None None)
           "{oops" "SyntaxError: Unexpected end of JSON input" eq_refl eq_refl)) eq_refl).
Defined.

(** X4. [setWebPartProperties] can only fail on account of [webPartData]:
    a rejection means that a non-empty [webPartData] was given and either
    did not parse (the parser's error is the rejection) or parsed to
    [null], whose properties cannot be listed. *)
Theorem only_webPartData_rejects :
  forall (JSON_parse : string -> Result JsValue) (webPart : WebPart) (options : Options)
         (msg : string),
    Payload.setWebPartProperties JSON_parse webPart options = Rejected msg ->
    exists input,
      opt_webPartData options = Some input /\ input <> "" /\
      (JSON_parse input = Rejected msg \/
       (JSON_parse input = Ok JsNull /\ msg = Payload.typeError)).
Proof.
  intros JSON_parse webPart options msg. apply SettingFacts.rejection_cause.
Qed.

Lemma only_webPartData_rejects_witness :
  exists input,
    opt_webPartData
      (mkOptions "home" "https://contoso.sharepoint.com" None (Some "{oops")
         (Some "e377ea37-9047-43b9-8cdb-a761be2f8e09") None None None None)
    = Some input /\ input <> "".
Proof.
  destruct (only_webPartData_rejects Sample.parseEmptyObject Sample.webPart
              (mkOptions "home" "https://contoso.sharepoint.com" None (Some "{oops")
                 (Some "e377ea37-9047-43b9-8cdb-a761be2f8e09") None None None None)
              "SyntaxError: Unexpected end of JSON input" eq_refl)
    as (input & H1 & H2 & _).
  exists input. split; assumption.
Defined.

(** X5. [setWebPartProperties] never changes the [webPartId], and for a
    web part whose payload has an [instanceId] of its own equal to its
    [id] (as what [getWebPart] makes has) every result is such a web part
    again: the [id] is the [instanceId] found among the properties of the
    merged payload. *)
Theorem id_follows_instanceId :
  forall (JSON_parse : string -> Result JsValue) (webPart webPart' : WebPart)
         (options : Options),
    wp_id webPart = Payload.lookup "instanceId" (wp_webPartData webPart) ->
    Payload.lookup "instanceId" (wp_webPartData webPart) <> None ->
    Payload.setWebPartProperties JSON_parse webPart options = Ok webPart' ->
    wp_id webPart' = Payload.lookup "instanceId" (wp_webPartData webPart') /\
    Payload.lookup "instanceId" (wp_webPartData webPart') <> None /\
    wp_webPartId webPart' = wp_webPartId webPart.
Proof.
  intros JSON_parse webPart webPart' options. apply SettingFacts.id_invariant.
Qed.

Lemma id_follows_instanceId_witness :
  exists webPart',
    Payload.setWebPartProperties PayloadSample.parse Sample.webPart PayloadSample.dataOnly
    = Ok webPart' /\
    Payload.lookup "instanceId" (wp_webPartData webPart') = Some (JsStr "caller") /\
    wp_id webPart' = Payload.lookup "instanceId" (wp_webPartData webPart') /\
    wp_webPartId webPart' = wp_webPartId Sample.webPart.
Proof.
  eexists. split; [reflexivity|]. split; [reflexivity|].
  assert (Hown : Payload.lookup "instanceId" (wp_webPartData Sample.webPart) <> None)
    by discriminate.
  destruct (id_follows_instanceId PayloadSample.parse Sample.webPart _
              PayloadSample.dataOnly eq_refl Hown eq_refl) as (H1 & _ & H2).
  split; [exact H1|exact H2].
Defined.

(** X6. With a [webPartData] that parses to an object of distinct property
    names, [setWebPartProperties] succeeds. The [id] of the web part is
    the [instanceId] of the caller when the caller gives one, otherwise
    the [instanceId] of the template when it has one, and otherwise what
    the payload inherits from the object the caller gave as [__proto__]
    (the template having no property of that name). Every property of the
    caller other than [__proto__] is in the merged payload, and
    [__proto__] is no property of it unless the template has one. *)
Theorem webPartData_sets_id :
  forall (JSON_parse : string -> Result JsValue) (webPart : WebPart) (options : Options)
         (input : string) (data : JsFields),
    opt_webPartData options = Some input ->
    input <> "" ->
    JSON_parse input = Ok (JsObj data) ->
    NoDup (Catalog.keys data) ->
    exists webPart',
      Payload.setWebPartProperties JSON_parse webPart options = Ok webPart' /\
      wp_id webPart'
      = match Payload.lookup "instanceId" data with
        | Some v => Some v
        | None =>
            match Payload.lookup "instanceId" (wp_webPartData webPart) with
            | Some v => Some v
            | None =>
                match Payload.lookup "__proto__" (wp_webPartData webPart),
                      Payload.lookup "__proto__" data with
                | None, Some (JsObj inherited) => Payload.lookup "instanceId" inherited
                | _, _ => None
                end
            end
        end /\
      (forall k v, k <> "__proto__" ->
                   Payload.lookup k data = Some v ->
                   Payload.lookup k (wp_webPartData webPart') = Some v) /\
      (Payload.lookup "__proto__" (wp_webPartData webPart) = None ->
       Payload.lookup "__proto__" (wp_webPartData webPart') = None).
Proof.
  intros JSON_parse webPart options input data Hd Hne Hparse Hnd.
  unfold Payload.setWebPartProperties, Payload.mergeData.
  rewrite Hd, (ValidationFacts.truthy_str_some _ Hne), Hparse.
  cbn [Payload.ownProperties].
  set (merged := Payload.mergeProperties JSON_parse webPart options).
  assert (Hu := PayloadFacts.untouched_fresh (wp_webPartData merged) data Hnd).
  assert (Hlook : forall k, k <> "properties" ->
                    Payload.lookup k (wp_webPartData merged)
                    = Payload.lookup k (wp_webPartData webPart)).
  { intros k Hk. now apply SettingFacts.mergeProperties_lookup. }
  eexists. split; [reflexivity|]. cbn [wp_id wp_webPartData]. split; [|split].
  - unfold Payload.instanceId.
    rewrite (PayloadFacts.extend_lookup data _ "instanceId" Hu) by (left; discriminate).
    cbn [Payload.own]. rewrite Hlook by discriminate.
    destruct (Payload.lookup "instanceId" data); [reflexivity|].
    destruct (Payload.lookup "instanceId" (wp_webPartData webPart)); [reflexivity|].
    rewrite (SettingFacts.proto_extendObject data _ Hu eq_refl).
    cbn [Payload.own]. unfold Payload.has. rewrite Hlook by discriminate.
    destruct (Payload.lookup "__proto__" (wp_webPartData webPart)); [reflexivity|].
    destruct (Payload.lookup "__proto__" data) as [[ | | | | | ]|]; reflexivity.
  - intros k v Hk Hv.
    rewrite (PayloadFacts.extend_lookup data _ k Hu) by (now left). now rewrite Hv.
  - intros Hp.
    assert (H : Payload.has "__proto__"
                  (Payload.own (Payload.extendObject
                                  (Payload.mkObj (wp_webPartData merged)
                                     Payload.ObjectPrototype) data))
                = false).
    { apply PayloadFacts.extend_no_proto; [exact Hu|].
      cbn [Payload.own]. unfold Payload.has. rewrite Hlook by discriminate.
      now rewrite Hp. }
    clear Hp. unfold Payload.has in H.
    destruct (Payload.lookup "__proto__" _); [discriminate|reflexivity].
Qed.

Lemma webPartData_sets_id_witness :
  exists webPart',
    Payload.setWebPartProperties PayloadSample.parse Sample.webPart PayloadSample.dataOnly
    = Ok webPart' /\
    wp_id webPart' = Some (JsStr "caller") /\
    Payload.lookup "title" (wp_webPartData webPart') = Some (JsStr "Mine").
Proof.
  assert (Hne : PayloadSample.dataText <> "") by discriminate.
  assert (Hnd : NoDup (Catalog.keys PayloadSample.data)).
  { repeat constructor; simpl; intuition discriminate. }
  destruct (webPartData_sets_id PayloadSample.parse Sample.webPart PayloadSample.dataOnly
              PayloadSample.dataText PayloadSample.data eq_refl Hne eq_refl Hnd)
    as (webPart' & H1 & H2 & H3 & _).
  exists webPart'. split; [exact H1|]. split; [exact H2|].
  apply H3; [discriminate|reflexivity].
Defined.

(** ** What [validate] accepts *)

Module AcceptanceFacts.

Lemma number_check (o : option Z) :
  Js.truthy o && (negb (Command.isNumber (Js.or_default o 0)) || (Js.or_default o 0 <? 1))
  = false
  <-> forall s, o = Some s -> s = 0 \/ 1 <= s.
Proof.
  unfold Command.isNumber. cbn [negb orb].
  destruct o as [s|]; cbn [Js.truthy Js.or_default andb].
  - destruct (s =? 0) eqn:E; cbn [negb andb].
    + apply Z.eqb_eq in E. split; [intros _ s' H; injection H as <-; auto|reflexivity].
    + apply Z.eqb_neq in E. rewrite Z.ltb_ge. split.
      * intros H s' H'. injection H' as <-. auto.
      * intros H. destruct (H s eq_refl); [contradiction|assumption].
  - split; [intros _ s H; discriminate|reflexivity].
Qed.

Lemma early_return (c : bool) (m : string) (rest : Validation) (Q : Prop) :
  (rest = Passed <-> Q) ->
  ((if c then Failed m else rest) = Passed <-> c = false /\ Q).
Proof.
  intros H. destruct c.
  - split; [discriminate|intros [? _]; discriminate].
  - rewrite H. tauto.
Qed.

Lemma parse_attempt (given : bool) (r : Result JsValue) (m : string -> string)
      (rest : Validation) (Q : Prop) :
  (rest = Passed <-> Q) ->
  (match (if given then r else Ok JsNull) with
   | inl e => Failed (m e)
   | inr _ => rest
   end = Passed
   <-> (given = true -> exists v, r = Ok v) /\ Q).
Proof.
  intros H. destruct given.
  - destruct r as [e|v].
    + split; [discriminate|]. intros [H1 _]. destruct (H1 eq_refl). discriminate.
    + rewrite H. split; [intros HQ; split; [eauto|exact HQ]|tauto].
  - unfold Ok. rewrite H. split; [intros HQ; split; [discriminate|exact HQ]|tauto].
Qed.

Lemma validate_conditions
      (JSON_parse : string -> Result JsValue)
      (isValidGuid isValidStandardWebPartType : string -> bool)
      (isValidSharePointUrl : string -> Validation) (options : Options) :
  Command.validate JSON_parse isValidGuid isValidStandardWebPartType
    isValidSharePointUrl options = Passed
  <->
  negb (Js.truthy_str (standardWebPart options))
  && negb (Js.truthy_str (opt_webPartId options)) = false /\
  Js.truthy_str (standardWebPart options) && Js.truthy_str (opt_webPartId options)
  = false /\
  Js.truthy_str (opt_webPartId options)
  && negb (isValidGuid (Command.text (opt_webPartId options))) = false /\
  Js.truthy_str (standardWebPart options)
  && negb (isValidStandardWebPartType (Command.text (standardWebPart options))) = false /\
  Js.truthy_str (webPartProperties options) && Js.truthy_str (opt_webPartData options)
  = false /\
  (Js.truthy_str (webPartProperties options) = true ->
   exists v, JSON_parse (Command.text (webPartProperties options)) = Ok v) /\
  (Js.truthy_str (opt_webPartData options) = true ->
   exists v, JSON_parse (Command.text (opt_webPartData options)) = Ok v) /\
  Js.truthy (section options)
  && (negb (Command.isNumber (Js.or_default (section options) 0))
      || (Js.or_default (section options) 0 <? 1)) = false /\
  Js.truthy (column options)
  && (negb (Command.isNumber (Js.or_default (column options) 0))
      || (Js.or_default (column options) 0 <? 1)) = false /\
  isValidSharePointUrl (webUrl options) = Passed.
Proof.
  unfold Command.validate.
  do 5 apply early_return.
  apply (parse_attempt _ _
           (Command.malformedProperties (Command.text (webPartProperties options)))).
  apply (parse_attempt _ _
           (Command.malformedData (Command.text (opt_webPartData options)))).
  do 2 apply early_return.
  reflexivity.
Qed.

End AcceptanceFacts.

(** X7. [validate] passes exactly when: one of [standardWebPart] and
    [webPartId] is given (non-empty) and it is a valid type, respectively a
    valid GUID; [webPartProperties] and [webPartData] are not both given;
    each of the two that is given parses; section and column are absent, 0
    or at least 1; and the site URL is accepted. The order is not looked
    at. *)
Theorem validate_passes_iff :
  forall (JSON_parse : string -> Result JsValue)
         (isValidGuid isValidStandardWebPartType : string -> bool)
         (isValidSharePointUrl : string -> Validation) (options : Options),
    Command.validate JSON_parse isValidGuid isValidStandardWebPartType
      isValidSharePointUrl options = Passed
    <->
    ((Js.truthy_str (standardWebPart options) = true /\
      Js.truthy_str (opt_webPartId options) = false /\
      isValidStandardWebPartType (Command.text (standardWebPart options)) = true) \/
     (Js.truthy_str (standardWebPart options) = false /\
      Js.truthy_str (opt_webPartId options) = true /\
      isValidGuid (Command.text (opt_webPartId options)) = true)) /\
    (Js.truthy_str (webPartProperties options) = false \/
     Js.truthy_str (opt_webPartData options) = false) /\
    (Js.truthy_str (webPartProperties options) = true ->
     exists v, JSON_parse (Command.text (webPartProperties options)) = Ok v) /\
    (Js.truthy_str (opt_webPartData options) = true ->
     exists v, JSON_parse (Command.text (opt_webPartData options)) = Ok v) /\
    (forall s, section options = Some s -> s = 0 \/ 1 <= s) /\
    (forall c, column options = Some c -> c = 0 \/ 1 <= c) /\
    isValidSharePointUrl (webUrl options) = Passed.
Proof.
  intros JSON_parse isValidGuid isValidType isValidUrl options.
  rewrite AcceptanceFacts.validate_conditions, <- !AcceptanceFacts.number_check.
  destruct (Js.truthy_str (standardWebPart options));
    destruct (Js.truthy_str (opt_webPartId options));
    destruct (isValidGuid (Command.text (opt_webPartId options)));
    destruct (isValidType (Command.text (standardWebPart options)));
    destruct (Js.truthy_str (webPartProperties options));
    destruct (Js.truthy_str (opt_webPartData options));
    cbn [negb andb orb]; intuition congruence.
Qed.

(** X8. After [validate] has passed, [setWebPartProperties] can fail in one
    way only: a [webPartData] of [null] parses, passes validation and then
    makes [extend] throw its [TypeError]. Every other validated payload is
    merged. *)
Theorem validated_payload_outcomes :
  forall (JSON_parse : string -> Result JsValue)
         (isValidGuid isValidStandardWebPartType : string -> bool)
         (isValidSharePointUrl : string -> Validation)
         (options : Options) (webPart : WebPart),
    Command.validate JSON_parse isValidGuid isValidStandardWebPartType
      isValidSharePointUrl options = Passed ->
    (exists webPart', Payload.setWebPartProperties JSON_parse webPart options = Ok webPart')
    \/
    (Payload.setWebPartProperties JSON_parse webPart options = Rejected Payload.typeError /\
     exists input, opt_webPartData options = Some input /\ JSON_parse input = Ok JsNull).
Proof.
  intros JSON_parse isValidGuid isValidType isValidUrl options webPart V.
  destruct (Payload.setWebPartProperties JSON_parse webPart options) as [msg|webPart'] eqn:S;
    [|left; eauto].
  right.
  destruct (SettingFacts.rejection_cause _ _ _ _ S) as (input & Hd & Hne & [Hp|[Hp ->]]).
  - exfalso. apply AcceptanceFacts.validate_conditions in V.
    destruct V as (_ & _ & _ & _ & _ & _ & Hdata & _).
    rewrite Hd in Hdata. cbn [Command.text] in Hdata.
    destruct (Hdata (ValidationFacts.truthy_str_some _ Hne)) as [v Hv].
    rewrite Hp in Hv. discriminate.
  - split; [reflexivity|eauto].
Qed.

Lemma validated_payload_outcomes_witness :
  Payload.setWebPartProperties CatalogSample.parseNull Sample.webPart
    (mkOptions "home" "https://contoso.sharepoint.com" None (Some "null")
       (Some "e377ea37-9047-43b9-8cdb-a761be2f8e09") None None None None)
  = Rejected Payload.typeError.
Proof.
  destruct (validated_payload_outcomes CatalogSample.parseNull Sample.anyGuid
              Sample.anyGuid Sample.anyUrl
              (mkOptions "home" "https://contoso.sharepoint.com" None (Some "null")
                 (Some "e377ea37-9047-43b9-8cdb-a761be2f8e09") None None None None)
              Sample.webPart eq_refl) as [[webPart' H]|[H _]].
  - discriminate H.
  - exact H.
Defined.

(** ** More on the layout editor *)

Module LayoutFacts.
Import JsFacts Editor EditorFacts.

Lemma zonesOf_without_positions l :
  (forall c, In c l -> position c = None) -> zonesOf l = [].
Proof.
  induction l as [|c r IH]; intros H; simpl; [reflexivity|].
  rewrite (H c) by (left; reflexivity). apply IH. intros x Hx. apply H. now right.
Qed.

Lemma inColumn_no_zone col c : inColumn None col c = false.
Proof. unfold inColumn. now destruct (position c). Qed.

Lemma atIndex_no_index zone col c : atIndex zone col None c = false.
Proof. unfold atIndex. destruct (position c); apply andb_false_r. Qed.

Lemma outside_renumber zone col l : forall i,
  filter (outsideColumn zone col) (renumber zone col i l) = filter (outsideColumn zone col) l.
Proof.
  unfold outsideColumn.
  induction l as [|c r IH]; intros i; [reflexivity|].
  cbn [renumber]. destruct (inColumn zone col c) eqn:E; cbn [filter].
  - rewrite inColumn_setControlIndex, E. cbn [negb]. apply IH.
  - rewrite E. cbn [negb]. f_equal. apply IH.
Qed.

Lemma outside_skips zone col c l :
  inColumn zone col c = true ->
  filter (outsideColumn zone col) (c :: l) = filter (outsideColumn zone col) l.
Proof. intros H. cbn [filter]. unfold outsideColumn at 1. now rewrite H. Qed.

Lemma setControlIndex_twice i j c :
  setControlIndex i (setControlIndex j c) = setControlIndex i c.
Proof. unfold setControlIndex. simpl. now destruct (position c). Qed.

Lemma renumber_erased zone col l : forall i,
  map (setControlIndex 0) (renumber zone col i l) = map (setControlIndex 0) l.
Proof.
  induction l as [|c r IH]; intros i; [reflexivity|].
  cbn [renumber]. destruct (inColumn zone col c); cbn [map].
  - now rewrite setControlIndex_twice, IH.
  - now rewrite IH.
Qed.

Lemma insert_placeholder l zone col pre anchor post order webPart :
  l = pre ++ anchor :: post ->
  Js.truthy (controlType anchor) = false ->
  insert l zone col (Z.of_nat (List.length pre)) order webPart
  = pre ++ setControlIndex 1 (webPartControl anchor webPart) :: post.
Proof.
  intros -> HT. unfold insert. rewrite index_app_middle, HT. cbn [negb].
  apply splice_replace_at.
Qed.

Lemma insert_outside l zone requested i order webPart :
  resolveColumn l zone requested = Ok i ->
  filter (outsideColumn zone (Js.or_default requested 1))
    (insert l zone (Js.or_default requested 1) i order webPart)
  = filter (outsideColumn zone (Js.or_default requested 1)) l.
Proof.
  intros HR.
  destruct (resolveColumn_Ok _ _ _ _ HR) as (pre & anchor & post & Hl & Hi & HC & _).
  set (col := Js.or_default requested 1) in *.
  destruct (Js.truthy (controlType anchor)) eqn:HT.
  - assert (HI : Js.index l i = Some anchor) by (subst; apply index_app_middle).
    destruct (insert_occupied_shape l zone col i anchor order webPart HI HT)
      as (pre' & post' & Hl' & ->).
    rewrite outside_renumber, Hl', !filter_app.
    now rewrite outside_skips by (now rewrite inColumn_webPartControl).
  - rewrite Hi, (insert_placeholder l zone col pre anchor post order webPart Hl HT).
    rewrite Hl, !filter_app.
    rewrite (outside_skips zone col anchor) by assumption.
    now rewrite outside_skips
      by (now rewrite inColumn_setControlIndex, inColumn_webPartControl).
Qed.

Lemma insert_occupied_order l zone col i anchor order webPart :
  Js.index l i = Some anchor ->
  inColumn zone col anchor = true ->
  Js.truthy (controlType anchor) = true ->
  List.length (insert l zone col i order webPart) = S (List.length l) /\
  exists before after,
    columnControls zone col l = before ++ after /\
    columnControls zone col (insert l zone col i order webPart)
    = renumber zone col 1 (before ++ webPartControl anchor webPart :: after) /\
    map (setControlIndex 0) (columnControls zone col (insert l zone col i order webPart))
    = map (setControlIndex 0) (before ++ webPartControl anchor webPart :: after).
Proof.
  intros HI HC HT.
  destruct (insert_occupied_shape l zone col i anchor order webPart HI HT)
    as (pre & post & -> & ->).
  split.
  - rewrite renumber_length, !length_app. simpl. lia.
  - exists (columnControls zone col pre), (columnControls zone col post).
    split; [apply columnControls_app|].
    assert (Hcol : columnControls zone col (pre ++ webPartControl anchor webPart :: post)
                   = columnControls zone col pre
                     ++ webPartControl anchor webPart :: columnControls zone col post).
    { rewrite columnControls_app. f_equal. unfold columnControls. cbn [filter].
      now rewrite inColumn_webPartControl, HC. }
    rewrite columnControls_renumber, Hcol. split; [reflexivity|].
    apply renumber_erased.
Qed.

Lemma splice_before_last {A} (front : list A) (final x : A) :
  Js.splice (-1) 0 [x] (front ++ [final]) = front ++ [x; final].
Proof.
  unfold Js.splice. rewrite length_app. simpl List.length.
  change (-1 <? 0) with true. cbv iota.
  assert (H1 : Z.max (Z.of_nat (List.length front + 1) + -1) 0
               = Z.of_nat (List.length front)) by lia.
  rewrite H1.
  assert (H2 : Z.min (Z.max 0 0)
                 (Z.of_nat (List.length front + 1) - Z.of_nat (List.length front)) = 0)
    by lia.
  rewrite H2.
  rewrite Z.add_0_r, Nat2Z.id.
  rewrite firstn_app, firstn_all, Nat.sub_diag, firstn_0, app_nil_r.
  rewrite skipn_app, skipn_all, Nat.sub_diag. reflexivity.
Qed.

Lemma insert_negative_order l zone col i anchor o webPart front final :
  Js.index l i = Some anchor ->
  Js.truthy (controlType anchor) = true ->
  o < 0 ->
  l = front ++ [final] ->
  insert l zone col i (Some o) webPart
  = renumber zone col 1 (front ++ [webPartControl anchor webPart; final]).
Proof.
  intros HI HT Ho Hl.
  rewrite (PlacementFacts.occupied_condition zone col l anchor (Some o) HT i webPart HI).
  assert (Hod : Js.or_default (Some o) 0 = o).
  { unfold Js.or_default. destruct (o =? 0) eqn:E; [apply Z.eqb_eq in E; lia|reflexivity]. }
  assert (Hcond : negb (Js.truthy (Some o))
                  || (Js.or_default (Some o) 0
                        >? Z.of_nat (List.length (columnControls zone col l))) = false).
  { rewrite Hod. unfold Js.truthy.
    destruct (o =? 0) eqn:E; [apply Z.eqb_eq in E; lia|]. simpl.
    destruct (o >? _) eqn:G; [apply Z.gtb_lt in G; lia|reflexivity]. }
  rewrite Hcond, Hod, index_out_of_range by lia.
  assert (Hnone : Js.findIndex (atIndex zone col None) l = -1).
  { apply findIndex_none. intros c _. apply atIndex_no_index. }
  rewrite Hnone, Hl. now rewrite splice_before_last.
Qed.

Lemma sorted_rank (l : list Z) : forall k z,
  StronglySorted Z.lt l ->
  nth_error l k = Some z ->
  List.length (filter (fun x => x <? z) l) = k.
Proof.
  induction l as [|x r IH]; intros k z S H.
  - destruct k; discriminate.
  - inversion S as [|? ? Sr Hall]; subst. rewrite Forall_forall in Hall.
    destruct k as [|k]; simpl in H.
    + injection H as <-. cbn [filter]. rewrite Z.ltb_irrefl.
      assert (Hnone : filter (fun y => y <? x) r = []).
      { clear IH Sr S. induction r as [|y t IHt]; [reflexivity|].
        cbn [filter]. assert (x < y) by (apply Hall; left; reflexivity).
        destruct (y <? x) eqn:E; [apply Z.ltb_lt in E; lia|].
        apply IHt. intros w Hw. apply Hall. now right. }
      now rewrite Hnone.
    + assert (x < z) by (apply Hall; eapply nth_error_In; exact H).
      cbn [filter]. destruct (x <? z) eqn:E; [|apply Z.ltb_ge in E; lia].
      simpl. f_equal. now apply IH.
Qed.

End LayoutFacts.

(** X9. A canvas without any positioned control (an empty one included)
    that is not a single entry cannot take a web part: the edit is always
    rejected, with the section message when a positive section was asked
    for and with the column message otherwise. *)
Theorem canvas_without_positions_rejects :
  forall (l : Layout) (options : Options) (webPart : WebPart),
    List.length l <> 1%nat ->
    (forall c, In c l -> position c = None) ->
    Editor.editLayout l options webPart
    = Rejected (if Js.or_default (section options) 0 >? 0
                then Editor.invalidSection (Js.or_default (section options) 0)
                else Editor.invalidColumn (column options)).
Proof.
  intros l options webPart Hlen Hpos.
  unfold Editor.editLayout, Editor.ensureDefaultSection.
  destruct (Nat.eqb_spec (List.length l) 1) as [E|_]; [contradiction|]. cbv zeta.
  unfold Editor.resolveSection, Editor.zoneIndices.
  rewrite (LayoutFacts.zonesOf_without_positions l Hpos). cbn [Js.filteri Js.filteri_from
    Js.sort_num List.length Z.of_nat].
  destruct (Js.or_default (section options) 0 >? 0); [reflexivity|].
  unfold Ok at 1. cbv iota beta. cbn [Js.index].
  replace (Js.index [] (Js.or_default (section options) 0 - 1)) with (@None Z).
  - unfold Editor.resolveColumn.
    assert (H : Js.findIndex (Editor.inColumn None (Js.or_default (column options) 1)) l
                = -1).
    { apply JsFacts.findIndex_none. intros c _. apply LayoutFacts.inColumn_no_zone. }
    now rewrite H.
  - symmetry. apply JsFacts.index_out_of_range. simpl. lia.
Qed.

Lemma canvas_without_positions_rejects_witness :
  Editor.editLayout [] Sample.options Sample.webPart = Rejected "Invalid column 'undefined'".
Proof.
  refine (canvas_without_positions_rejects [] Sample.options Sample.webPart _ _).
  - discriminate.
  - intros c [].
Defined.

(** X10. Adding a web part leaves every control outside the target column
    as it was and in the same order, whichever arm is taken and whatever
    the order asked for. *)
Theorem insert_leaves_other_columns :
  forall (l : Layout) (zone : option Z) (requested : option Z) (i : Z)
         (order : option Z) (webPart : WebPart),
    let col := Js.or_default requested 1 in
    Editor.resolveColumn l zone requested = Ok i ->
    filter (outsideColumn zone col) (Editor.insert l zone col i order webPart)
    = filter (outsideColumn zone col) l.
Proof. intros l zone requested i order webPart col HR. now apply LayoutFacts.insert_outside. Qed.

Lemma insert_leaves_other_columns_witness :
  filter (outsideColumn (Some 1) 1)
    (Editor.insert [Sample.part 1 1 1; Sample.part 1 2 1; Sample.settingsOnly]
       (Some 1) 1 0 (Some 1) Sample.webPart)
  = [Sample.part 1 2 1; Sample.settingsOnly].
Proof.
  exact (insert_leaves_other_columns
           [Sample.part 1 1 1; Sample.part 1 2 1; Sample.settingsOnly]
           (Some 1) None 0 (Some 1) Sample.webPart eq_refl).
Defined.

(** X11. In the occupied arm the layout grows by exactly one entry, and the
    controls of the column keep their relative order: the column afterwards
    is the old column with the new control put in somewhere, renumbered;
    nothing but [controlIndex] changes on the old controls. *)
Theorem insert_occupied_keeps_order :
  forall (l : Layout) (zone : option Z) (requested : option Z) (i : Z)
         (anchor : Control) (order : option Z) (webPart : WebPart),
    let col := Js.or_default requested 1 in
    let new := Editor.webPartControl anchor webPart in
    Editor.resolveColumn l zone requested = Ok i ->
    Js.index l i = Some anchor ->
    Js.truthy (controlType anchor) = true ->
    List.length (Editor.insert l zone col i order webPart) = S (List.length l) /\
    exists before after,
      Editor.columnControls zone col l = before ++ after /\
      Editor.columnControls zone col (Editor.insert l zone col i order webPart)
      = Editor.renumber zone col 1 (before ++ new :: after) /\
      map (Editor.setControlIndex 0)
        (Editor.columnControls zone col (Editor.insert l zone col i order webPart))
      = map (Editor.setControlIndex 0) (before ++ new :: after).
Proof.
  intros l zone requested i anchor order webPart col new HR HI HT.
  destruct (EditorFacts.resolveColumn_anchor _ _ _ _ _ HR HI) as (_ & _ & _ & _ & HC & _).
  now apply LayoutFacts.insert_occupied_order.
Qed.

Lemma insert_occupied_keeps_order_witness :
  List.length
    (Editor.insert [Sample.part 1 1 7; Sample.part 1 1 3; Sample.settingsOnly]
       (Some 1) 1 0 (Some 2) Sample.webPart) = 4%nat.
Proof.
  exact (proj1 (insert_occupied_keeps_order
                  [Sample.part 1 1 7; Sample.part 1 1 3; Sample.settingsOnly]
                  (Some 1) None 0 (Sample.part 1 1 7) (Some 2) Sample.webPart
                  eq_refl eq_refl eq_refl)).
Defined.

(** X12. A negative order is not validated and is not treated as an append:
    in an occupied column the new control is put right before the last
    entry of the whole array, whatever column that entry belongs to (then
    the target column is renumbered). *)
Theorem negative_order_goes_before_last_entry :
  forall (JSON_parse : string -> Result JsValue)
         (isValidGuid isValidStandardWebPartType : string -> bool)
         (isValidSharePointUrl : string -> Validation) (options : Options)
         (l front : Layout) (final : Control) (zone : option Z) (requested : option Z)
         (i : Z) (anchor : Control) (o : Z) (webPart : WebPart),
    let col := Js.or_default requested 1 in
    Editor.resolveColumn l zone requested = Ok i ->
    Js.index l i = Some anchor ->
    Js.truthy (controlType anchor) = true ->
    o < 0 ->
    l = front ++ [final] ->
    Command.validate JSON_parse isValidGuid isValidStandardWebPartType
      isValidSharePointUrl (set_order (Some o) options)
    = Command.validate JSON_parse isValidGuid isValidStandardWebPartType
        isValidSharePointUrl (set_order None options) /\
    Editor.insert l zone col i (Some o) webPart
    = Editor.renumber zone col 1
        (front ++ [Editor.webPartControl anchor webPart; final]).
Proof.
  intros JSON_parse isValidGuid isValidType isValidUrl options l front final zone
         requested i anchor o webPart col HR HI HT Ho Hl.
  split; [reflexivity|]. now apply LayoutFacts.insert_negative_order.
Qed.

Lemma negative_order_goes_before_last_entry_witness :
  Editor.insert [Sample.part 1 1 1; Sample.part 1 1 2; Sample.part 1 2 1; Sample.settingsOnly]
    (Some 1) 1 0 (Some (-1)) Sample.webPart
  = [Sample.part 1 1 1; Sample.part 1 1 2; Sample.part 1 2 1;
     Editor.setControlIndex 3 (Editor.webPartControl (Sample.part 1 1 1) Sample.webPart);
     Sample.settingsOnly].
Proof.
  assert (Ho : -1 < 0) by lia.
  exact (proj2 (negative_order_goes_before_last_entry Sample.parseEmptyObject
                  Sample.anyGuid Sample.anyGuid Sample.anyUrl Sample.options
                  [Sample.part 1 1 1; Sample.part 1 1 2; Sample.part 1 2 1;
                   Sample.settingsOnly]
                  [Sample.part 1 1 1; Sample.part 1 1 2; Sample.part 1 2 1]
                  Sample.settingsOnly (Some 1) None 0 (Sample.part 1 1 1) (-1)
                  Sample.webPart eq_refl eq_refl eq_refl Ho eq_refl)).
Defined.

(** X13. Without a section (or with section 0) the target is the section
    with the greatest [zoneIndex] of the canvas. *)
Theorem default_section_is_greatest_zone :
  forall (l : Layout) (requested : option Z) (z : Z),
    requested = None \/ requested = Some 0 ->
    Editor.resolveSection l requested = Ok (Some z) ->
    (exists c p, In c l /\ position c = Some p /\ zoneIndex p = z) /\
    (forall c p, In c l -> position c = Some p -> zoneIndex p <= z).
Proof.
  intros l requested z Hreq HR.
  assert (Hpop : Js.pop (Editor.zoneIndices l) = Some z).
  { assert (Hd : Editor.resolveSection l requested = Ok (Js.pop (Editor.zoneIndices l))).
    { destruct Hreq as [->| ->]; unfold Editor.resolveSection; cbn [Js.or_default Z.eqb];
        rewrite ResolutionFacts.index_last;
        (destruct (_ >? _) eqn:E; [apply Z.gtb_lt in E; lia|reflexivity]). }
    rewrite Hd in HR. now injection HR. }
  assert (Hsorted : StronglySorted Z.le (Editor.zoneIndices l)).
  { eapply StronglySorted_ind with (P := StronglySorted Z.le);
      [constructor| |apply ZoneFacts.zoneIndices_ascending].
    intros a r _ IH Hall. constructor; [exact IH|].
    eapply Forall_impl; [|exact Hall]. simpl. intros; lia. }
  destruct (JsFacts.sorted_last_max _ z Hsorted Hpop) as [Hin Hmax].
  split; [now apply ZoneFacts.zoneIndices_In|].
  intros c p Hc Hp. apply Hmax, ZoneFacts.zoneIndices_In. eauto.
Qed.

Lemma default_section_is_greatest_zone_witness :
  zoneIndex (mkPosition 3 1 12 1 1) <= 7.
Proof.
  exact (proj2 (default_section_is_greatest_zone
                  [Sample.part 3 1 1; Sample.part 7 1 1; Sample.part 5 1 1]
                  None 7 (or_introl eq_refl) eq_refl)
           (Sample.part 3 1 1) (mkPosition 3 1 12 1 1) (or_introl eq_refl) eq_refl).
Defined.

(** X14. Section numbers are ranks: when section [s] (1 or more) resolves
    to a [zoneIndex], exactly [s - 1] of the distinct [zoneIndex] values of
    the canvas lie below it, however the values themselves are spaced. *)
Theorem section_number_is_zone_rank :
  forall (l : Layout) (s z : Z),
    1 <= s ->
    Editor.resolveSection l (Some s) = Ok (Some z) ->
    In z (Editor.zoneIndices l) /\
    Z.of_nat (List.length (filter (fun x => x <? z) (Editor.zoneIndices l))) = s - 1.
Proof.
  intros l s z Hs HR.
  rewrite ResolutionFacts.resolveSection_unfold in HR.
  rewrite ResolutionFacts.or_default_set in HR by lia.
  destruct (s >? _); [discriminate|]. injection HR as HI.
  split; [eapply JsFacts.index_In; exact HI|].
  unfold Js.index in HI. destruct (s - 1 <? 0) eqn:E; [discriminate|].
  rewrite (LayoutFacts.sorted_rank _ _ _ (ZoneFacts.zoneIndices_ascending l) HI). lia.
Qed.

Lemma section_number_is_zone_rank_witness :
  Z.of_nat (List.length
              (filter (fun x => x <? 5)
                 (Editor.zoneIndices [Sample.part 3 1 1; Sample.part 7 1 1; Sample.part 5 1 1])))
  = 2 - 1.
Proof.
  assert (Hs : 1 <= 2) by lia.
  exact (proj2 (section_number_is_zone_rank
                  [Sample.part 3 1 1; Sample.part 7 1 1; Sample.part 5 1 1] 2 5 Hs eq_refl)).
Defined.

(** ** More on the chain of requests *)

Module ChainFacts.
Import Command.

Lemma pageFullName_occurs options :
  0 <= Js.str_indexOf ".aspx" (pageFullName options).
Proof.
  unfold pageFullName.
  destruct (Js.str_indexOf ".aspx" (pageName options) <? 0) eqn:E.
  - apply CommandFacts.str_indexOf_occurs. exists (pageName options), "". reflexivity.
  - now apply Z.ltb_ge in E.
Qed.

Section WithCollaborators.

Variable JSON_parse : string -> Result JsValue.
Variable encodeURIComponent : string -> string.

(** The requests of a run, step by step. *)
Lemma requests_by_outcome service options :
  fst (commandAction JSON_parse encodeURIComponent service options [])
  = fetchRequest encodeURIComponent options
    :: match page service with
       | inl _ => []
       | inr res =>
           (if snd res then [] else [checkoutRequest encodeURIComponent options])
           ++ match (if snd res then Ok tt else checkoutpage service) with
              | inl _ => []
              | inr _ =>
                  catalogRequest options
                  :: match clientSideWebPart service with
                     | inl _ => []
                     | inr webPart =>
                         match Payload.setWebPartProperties JSON_parse webPart options with
                         | inl _ => []
                         | inr webPart' =>
                             match Editor.editLayout (parsedCanvas (fst res)) options
                                     webPart' with
                             | inl _ => []
                             | inr edited =>
                                 [saveRequest encodeURIComponent options edited]
                             end
                         end
                     end
              end
       end.
Proof.
  unfold commandAction, andThen, request, settle, resolve.
  destruct (page service) as [e|[canvas checked]]; cbn; [reflexivity|].
  destruct checked; cbn.
  - destruct (clientSideWebPart service) as [e|webPart]; cbn; [reflexivity|].
    destruct (Payload.setWebPartProperties JSON_parse webPart options); cbn;
      [reflexivity|].
    destruct (Editor.editLayout (parsedCanvas canvas) options w); reflexivity.
  - destruct (checkoutpage service) as [e|u]; cbn; [reflexivity|].
    destruct (clientSideWebPart service) as [e|webPart]; cbn; [reflexivity|].
    destruct (Payload.setWebPartProperties JSON_parse webPart options); cbn;
      [reflexivity|].
    destruct (Editor.editLayout (parsedCanvas canvas) options w); reflexivity.
Qed.

End WithCollaborators.

End ChainFacts.

(** X15. The resolved page name always contains [.aspx], so resolving it
    again changes nothing. *)
Theorem pageFullName_is_stable :
  forall (options : Options),
    (exists pre post, Command.pageFullName options = (pre ++ ".aspx" ++ post)%string) /\
    Command.pageFullName
      (mkOptions (Command.pageFullName options) (webUrl options) (standardWebPart options)
         (opt_webPartData options) (opt_webPartId options) (webPartProperties options)
         (section options) (column options) (order options))
    = Command.pageFullName options.
Proof.
  intros options. pose proof (ChainFacts.pageFullName_occurs options) as H.
  split; [now apply CommandFacts.str_indexOf_occurs|].
  unfold Command.pageFullName at 1. cbn [pageName].
  destruct (Js.str_indexOf ".aspx" (Command.pageFullName options) <? 0) eqn:E;
    [apply Z.ltb_lt in E; lia|reflexivity].
Qed.

(** X16. A save request is issued exactly when every earlier step of the
    chain succeeded (page fetched, page checked out where needed, web part
    found, payload merged, layout edited); it is then the last request and
    carries the edited layout. *)
Theorem save_is_issued_iff :
  forall (JSON_parse : string -> Result JsValue) (encodeURIComponent : string -> string)
         (service : Responses) (options : Options),
    let issued := fst (Command.commandAction JSON_parse encodeURIComponent service options [])
    in
    existsb isSave issued = true
    <->
    exists res webPart webPart' edited,
      page service = Ok res /\
      (snd res = false -> exists u, checkoutpage service = Ok u) /\
      clientSideWebPart service = Ok webPart /\
      Payload.setWebPartProperties JSON_parse webPart options = Ok webPart' /\
      Editor.editLayout (Command.parsedCanvas (fst res)) options webPart' = Ok edited /\
      exists before,
        issued = before ++ [Command.saveRequest encodeURIComponent options edited] /\
        existsb isSave before = false.
Proof.
  intros JSON_parse enc service options issued. subst issued.
  rewrite ChainFacts.requests_by_outcome.
  destruct (page service) as [e|[canvas checked]].
  { split; [discriminate|]. intros (res & wp & wp' & ed & Hp & _). discriminate Hp. }
  cbn [fst snd].
  destruct checked.
  - cbn [app].
    destruct (clientSideWebPart service) as [e|webPart].
    { split; [discriminate|].
      intros (res & wp & wp' & ed & _ & _ & Hw & _). discriminate Hw. }
    destruct (Payload.setWebPartProperties JSON_parse webPart options) as [e|webPart']
      eqn:HS.
    { split; [discriminate|].
      intros (res & wp & wp' & ed & _ & _ & Hw & Hs & _).
      injection Hw as <-. unfold Ok in Hs. congruence. }
    destruct (Editor.editLayout (Command.parsedCanvas canvas) options webPart')
      as [e|edited] eqn:HE.
    { split; [discriminate|].
      intros (res & wp & wp' & ed & Hp & _ & Hw & Hs & He & _).
      injection Hp as <-. injection Hw as <-. cbn [fst] in He.
      unfold Ok in *. congruence. }
    split; [intros _|reflexivity].
    exists (canvas, true), webPart, webPart', edited.
    repeat split; auto; [discriminate|].
    exists [Command.fetchRequest enc options; Command.catalogRequest options].
    split; reflexivity.
  - destruct (checkoutpage service) as [e|u].
    { split; [discriminate|].
      intros (res & wp & wp' & ed & Hp & Hc & _). injection Hp as <-.
      destruct (Hc eq_refl). discriminate. }
    cbn [app].
    destruct (clientSideWebPart service) as [e|webPart].
    { split; [discriminate|].
      intros (res & wp & wp' & ed & _ & _ & Hw & _). discriminate Hw. }
    destruct (Payload.setWebPartProperties JSON_parse webPart options) as [e|webPart']
      eqn:HS.
    { split; [discriminate|].
      intros (res & wp & wp' & ed & _ & _ & Hw & Hs & _).
      injection Hw as <-. unfold Ok in Hs. congruence. }
    destruct (Editor.editLayout (Command.parsedCanvas canvas) options webPart')
      as [e|edited] eqn:HE.
    { split; [discriminate|].
      intros (res & wp & wp' & ed & Hp & _ & Hw & Hs & He & _).
      injection Hp as <-. injection Hw as <-. cbn [fst] in He.
      unfold Ok in *. congruence. }
    split; [intros _|reflexivity].
    exists (canvas, false), webPart, webPart', edited.
    repeat split; eauto.
    exists [Command.fetchRequest enc options; Command.checkoutRequest enc options;
            Command.catalogRequest options].
    split; reflexivity.
Qed.

(** X17. The page is checked out by the command exactly when the fetch
    succeeded and reported that it is not checked out to the current user;
    the checkout then comes right after the fetch. *)
Theorem checkout_is_issued_iff :
  forall (JSON_parse : string -> Result JsValue) (encodeURIComponent : string -> string)
         (service : Responses) (options : Options),
    let issued := fst (Command.commandAction JSON_parse encodeURIComponent service options [])
    in
    In (Command.checkoutRequest encodeURIComponent options) issued
    <->
    exists canvas rest,
      page service = Ok (canvas, false) /\
      issued = Command.fetchRequest encodeURIComponent options
               :: Command.checkoutRequest encodeURIComponent options :: rest.
Proof.
  intros JSON_parse enc service options issued. subst issued.
  rewrite ChainFacts.requests_by_outcome.
  assert (Hsave : forall l, Command.checkoutRequest enc options
                            <> Command.saveRequest enc options l) by discriminate.
  destruct (page service) as [e|[canvas checked]].
  { split; [intros [H|[]]; discriminate|intros (? & ? & H & _); discriminate]. }
  cbn [fst snd]. destruct checked.
  - split; [|intros (? & ? & H & _); discriminate].
    cbn [app]. intros [H|H]; [discriminate|].
    destruct (clientSideWebPart service); [destruct H as [H|[]]; discriminate|].
    destruct (Payload.setWebPartProperties JSON_parse w options);
      [destruct H as [H|[]]; discriminate|].
    destruct (Editor.editLayout _ _ _); destruct H as [H|H]; try discriminate;
      try contradiction.
    destruct H as [H|[]]. symmetry in H. now apply Hsave in H.
  - split; [intros _|intros _; right; left; reflexivity].
    exists canvas. eexists. split; reflexivity.
Qed.

(** ** The web part catalogue *)

Module CatalogFacts.
Import Catalog.

Lemma dropTrailing_closing (s : string) : dropTrailing (s ++ "}") = s.
Proof.
  induction s as [|a r IH]; [reflexivity|].
  change (String a r ++ "}")%string with (String a (r ++ "}")).
  destruct r as [|b t].
  - reflexivity.
  - cbn [append dropTrailing] in *. now rewrite IH.
Qed.

Lemma dropTrailing_none (s : string) :
  (forall t, s <> (t ++ "}")%string) -> dropTrailing s = s.
Proof.
  induction s as [|a r IH]; intros H; [reflexivity|].
  destruct r as [|b t].
  - cbn [dropTrailing]. destruct (Ascii.eqb_spec a "}"%char) as [->|Hne]; [|reflexivity].
    exfalso. apply (H ""). reflexivity.
  - change (dropTrailing (String a (String b t)))
      with (String a (dropTrailing (String b t))).
    rewrite IH; [reflexivity|].
    intros u Hu. apply (H (String a u)). simpl. now rewrite Hu.
Qed.

Section WithCollaborators.

Variable JSON_parse : string -> Result JsValue.
Variable toLowerCase : string -> string.
Variable getWebPartId : string -> string.

(** What [instantiate] resolves with, when it does. *)
Lemma instantiate_resolved id component webPart :
  instantiate JSON_parse toLowerCase id component = Resolved webPart ->
  exists description properties title,
    webPart
    = mkWebPart (Some (JsStr id))
        (FCons "dataVersion" (JsStr "1.0")
           (field "description" description
              (FCons "id" (JsStr (componentId toLowerCase component))
                 (FCons "instanceId" (JsStr id)
                    (field "properties" properties (field "title" title FNil))))))
        (JsStr (componentId toLowerCase component)).
Proof.
  unfold instantiate.
  destruct (JSON_parse (Manifest component)) as [e|manifest]; [discriminate|].
  unfold orThrow.
  repeat match goal with
         | |- match ?o with Some _ => _ | None => _ end = _ -> _ =>
             destruct o; [|discriminate]
         end.
  intros H. injection H as <-. eauto.
Qed.

Lemma instantiate_never_rejects id component msg :
  instantiate JSON_parse toLowerCase id component <> RejectedWith msg.
Proof.
  unfold instantiate.
  destruct (JSON_parse (Manifest component)) as [e|manifest]; [discriminate|].
  unfold orThrow.
  repeat match goal with
         | |- match ?o with Some _ => _ | None => _ end <> _ =>
             destruct o; [|discriminate]
         end.
  discriminate.
Qed.

Lemma filter_first {A} (p : A -> bool) (l : list A) (x : A) (rest : list A) :
  filter p l = x :: rest ->
  exists pre post, l = pre ++ x :: post /\ p x = true /\
                   (forall y, In y pre -> p y = false).
Proof.
  induction l as [|a r IH]; [discriminate|].
  cbn [filter]. destruct (p a) eqn:Pa.
  - intros H. injection H as -> _. exists [], r. repeat split; auto. intros y [].
  - intros H. destruct (IH H) as (pre & post & -> & Px & Hpre).
    exists (a :: pre), post. repeat split; auto.
    intros y [<-|Hy]; auto.
Qed.

Lemma getWebPart_resolved answer id options webPart :
  getWebPart JSON_parse toLowerCase getWebPartId answer id options = Resolved webPart ->
  exists value webPartId component rest,
    answer = Ok value /\
    requestedId getWebPartId options = Some webPartId /\
    filter (isMatch toLowerCase webPartId) value = component :: rest /\
    instantiate JSON_parse toLowerCase id component = Resolved webPart.
Proof.
  unfold getWebPart.
  destruct answer as [e|value]; [discriminate|].
  destruct (requestedId getWebPartId options) as [w|];
    [|destruct value; discriminate].
  destruct (filter (isMatch toLowerCase w) value) as [|c rest] eqn:F; [discriminate|].
  intros H. exists value, w, c, rest. auto.
Qed.

End WithCollaborators.

End CatalogFacts.

(** X18. An [Id] written in braces loses exactly its braces, and an [Id]
    that neither starts with an opening brace nor ends with a closing one
    is taken as it is. *)
Theorem stripBraces_round_trip :
  forall (s : string),
    Catalog.stripBraces ("{" ++ s ++ "}") = s /\
    ((forall t, s <> String "{"%char t) -> (forall t, s <> (t ++ "}")%string) ->
     Catalog.stripBraces s = s).
Proof.
  intros s. split.
  - unfold Catalog.stripBraces. cbn [append Catalog.dropLeading].
    apply CatalogFacts.dropTrailing_closing.
  - intros Hopen Hclose. unfold Catalog.stripBraces.
    assert (Hlead : Catalog.dropLeading s = s).
    { destruct s as [|a r]; [reflexivity|]. cbn [Catalog.dropLeading].
      destruct (Ascii.eqb_spec a "{"%char) as [->|Hne].
      - exfalso. now apply (Hopen r).
      - destruct a as [[] [] [] [] [] [] [] []]; try reflexivity.
        exfalso. now apply Hne. }
    rewrite Hlead. now apply CatalogFacts.dropTrailing_none.
Qed.

(** X19. [getWebPart] rejects in two situations only: the request for the
    catalogue was rejected (the same error is passed on), or no component
    of the catalogue matches the requested id (the message names that id).
    A component that matches but cannot be instantiated never leads to a
    rejection. *)
Theorem getWebPart_rejects_iff :
  forall (JSON_parse : string -> Result JsValue) (toLowerCase : string -> string)
         (getWebPartId : string -> string)
         (answer : Result (list ClientSidePageComponent)) (id : string)
         (options : Options) (msg : string),
    Catalog.getWebPart JSON_parse toLowerCase getWebPartId answer id options
    = RejectedWith msg
    <->
    answer = Rejected msg \/
    exists value,
      answer = Ok value /\
      msg = Catalog.notAvailable (Catalog.requestedId getWebPartId options) /\
      match Catalog.requestedId getWebPartId options with
      | Some webPartId =>
          forall c, In c value -> Catalog.isMatch toLowerCase webPartId c = false
      | None => value = []
      end.
Proof.
  intros JSON_parse toLowerCase getWebPartId answer id options msg.
  unfold Catalog.getWebPart.
  destruct answer as [e|value].
  { split.
    - intros H. injection H as <-. now left.
    - intros [H|(v & H & _)]; [injection H as <-; reflexivity|discriminate]. }
  destruct (Catalog.requestedId getWebPartId options) as [w|].
  - destruct (filter (Catalog.isMatch toLowerCase w) value) as [|c rest] eqn:F.
    + split.
      * intros H. injection H as <-. right. exists value. repeat split.
        intros c Hc. destruct (Catalog.isMatch toLowerCase w c) eqn:M; [|reflexivity].
        assert (In c (filter (Catalog.isMatch toLowerCase w) value))
          by (apply filter_In; auto).
        rewrite F in H. contradiction.
      * intros [H|(v & Hv & -> & _)]; [discriminate|reflexivity].
    + split.
      * intros H. exfalso. revert H. apply CatalogFacts.instantiate_never_rejects.
      * intros [H|(v & Hv & _ & Hno)]; [discriminate|]. injection Hv as <-.
        assert (Hc : In c (filter (Catalog.isMatch toLowerCase w) value))
          by (rewrite F; left; reflexivity).
        apply filter_In in Hc. destruct Hc as [Hin Hm].
        rewrite (Hno c Hin) in Hm. discriminate.
  - destruct value as [|c rest]; split.
    + intros H. injection H as <-. right. exists []. auto.
    + intros [H|(v & Hv & -> & _)]; [discriminate|reflexivity].
    + discriminate.
    + intros [H|(v & Hv & _ & Hno)]; [discriminate|]. injection Hv as <-. discriminate.
Qed.

(** X20. When the first matching component has a [Manifest] that does not
    parse, or that parses to an object without [preconfiguredEntries], the
    exception is raised inside the [then] callback: [getWebPart] neither
    resolves nor rejects, so the command never reports the failure. *)
Theorem broken_manifest_never_settles :
  forall (JSON_parse : string -> Result JsValue) (toLowerCase : string -> string)
         (getWebPartId : string -> string)
         (value rest : list ClientSidePageComponent) (component : ClientSidePageComponent)
         (id webPartId : string) (options : Options),
    Catalog.requestedId getWebPartId options = Some webPartId ->
    filter (Catalog.isMatch toLowerCase webPartId) value = component :: rest ->
    (exists e, JSON_parse (Manifest component) = Rejected e) \/
    (exists o, JSON_parse (Manifest component) = Ok (JsObj o) /\
               Payload.lookup "preconfiguredEntries" o = None) ->
    Catalog.getWebPart JSON_parse toLowerCase getWebPartId (Ok value) id options
    = Unsettled.
Proof.
  intros JSON_parse toLowerCase getWebPartId value rest component id w options HR HF HM.
  unfold Catalog.getWebPart. cbv iota beta. unfold Ok at 1. rewrite HR, HF.
  unfold Catalog.instantiate.
  destruct HM as [[e ->]|(o & -> & Hno)]; [reflexivity|].
  unfold Ok. cbn [Catalog.get Catalog.orThrow]. rewrite Hno. reflexivity.
Qed.

Lemma broken_manifest_never_settles_witness :
  Catalog.getWebPart CatalogSample.parseManifest Sample.plain CatalogSample.noStandard
    (Ok [CatalogSample.broken; CatalogSample.bingMap]) "new-id" Sample.options
  = Unsettled.
Proof.
  exact (broken_manifest_never_settles CatalogSample.parseManifest Sample.plain
           CatalogSample.noStandard [CatalogSample.broken; CatalogSample.bingMap]
           [CatalogSample.bingMap] CatalogSample.broken "new-id"
           "e377ea37-9047-43b9-8cdb-a761be2f8e09" Sample.options eq_refl eq_refl
           (or_introl (ex_intro _ "SyntaxError: Unexpected token" eq_refl))).
Defined.

(** X21. What [getWebPart] resolves with is made from the first component
    of the catalogue that matches the requested id: its [webPartId] and the
    [id] of its payload are that component's [Id] without braces, in lower
    case, and its [id] and the [instanceId] of its payload are the fresh
    identifier. *)
Theorem getWebPart_resolves_first_match :
  forall (JSON_parse : string -> Result JsValue) (toLowerCase : string -> string)
         (getWebPartId : string -> string)
         (answer : Result (list ClientSidePageComponent)) (id : string)
         (options : Options) (webPart : WebPart),
    Catalog.getWebPart JSON_parse toLowerCase getWebPartId answer id options
    = Resolved webPart ->
    exists webPartId before component after,
      Catalog.requestedId getWebPartId options = Some webPartId /\
      answer = Ok (before ++ component :: after) /\
      Catalog.isMatch toLowerCase webPartId component = true /\
      (forall c, In c before -> Catalog.isMatch toLowerCase webPartId c = false) /\
      wp_webPartId webPart = JsStr (toLowerCase (Catalog.stripBraces (Id component))) /\
      Payload.lookup "id" (wp_webPartData webPart)
      = Some (JsStr (toLowerCase (Catalog.stripBraces (Id component)))) /\
      wp_id webPart = Some (JsStr id) /\
      Payload.lookup "instanceId" (wp_webPartData webPart) = Some (JsStr id) /\
      Payload.lookup "dataVersion" (wp_webPartData webPart) = Some (JsStr "1.0").
Proof.
  intros JSON_parse toLowerCase getWebPartId answer id options webPart H.
  destruct (CatalogFacts.getWebPart_resolved _ _ _ _ _ _ _ H)
    as (value & w & c & rest & -> & HR & HF & HI).
  destruct (CatalogFacts.filter_first _ _ _ _ HF) as (pre & post & -> & Hm & Hpre).
  destruct (CatalogFacts.instantiate_resolved _ _ _ _ _ HI) as (d & p & t & ->).
  exists w, pre, c, post. cbn [wp_webPartId wp_id wp_webPartData].
  repeat split; auto; destruct d; reflexivity.
Qed.

Lemma getWebPart_resolves_first_match_witness :
  exists webPart,
    Catalog.getWebPart CatalogSample.parseManifest Sample.plain CatalogSample.noStandard
      (Ok [CatalogSample.bingMap]) "new-id" Sample.options = Resolved webPart /\
    wp_webPartId webPart = JsStr "e377ea37-9047-43b9-8cdb-a761be2f8e09".
Proof.
  eexists. split; [reflexivity|].
  destruct (getWebPart_resolves_first_match CatalogSample.parseManifest Sample.plain
              CatalogSample.noStandard (Ok [CatalogSample.bingMap]) "new-id"
              Sample.options _ eq_refl)
    as (w & before & c & after & _ & _ & _ & _ & H & _).
  reflexivity.
Defined.

(** X22. For every web part the command builds, the [id] of the control
    put on the page equals the [instanceId] inside its [webPartData]:
    [getWebPart] makes them equal and [setWebPartProperties] keeps them
    equal, whatever the options. *)
Theorem control_id_is_instanceId :
  forall (JSON_parse : string -> Result JsValue) (toLowerCase : string -> string)
         (getWebPartId : string -> string)
         (answer : Result (list ClientSidePageComponent)) (fresh : string)
         (options : Options) (webPart webPart' : WebPart) (anchor : Control)
         (data : JsObject),
    Catalog.getWebPart JSON_parse toLowerCase getWebPartId answer fresh options
    = Resolved webPart ->
    Payload.setWebPartProperties JSON_parse webPart options = Ok webPart' ->
    webPartData (Editor.webPartControl anchor webPart') = Some data ->
    id (Editor.webPartControl anchor webPart') = Payload.lookup "instanceId" data.
Proof.
  intros JSON_parse toLowerCase getWebPartId answer fresh options webPart webPart' anchor
         data HG HS HD.
  destruct (CatalogFacts.getWebPart_resolved _ _ _ _ _ _ _ HG)
    as (value & w & c & rest & _ & _ & _ & HI).
  destruct (CatalogFacts.instantiate_resolved _ _ _ _ _ HI) as (d & p & t & ->).
  assert (Hid : wp_id
                  (mkWebPart (Some (JsStr fresh))
                     (FCons "dataVersion" (JsStr "1.0")
                        (Catalog.field "description" d
                           (FCons "id" (JsStr (Catalog.componentId toLowerCase c))
                              (FCons "instanceId" (JsStr fresh)
                                 (Catalog.field "properties" p
                                    (Catalog.field "title" t FNil))))))
                     (JsStr (Catalog.componentId toLowerCase c)))
                = Payload.lookup "instanceId"
                    (wp_webPartData
                       (mkWebPart (Some (JsStr fresh))
                          (FCons "dataVersion" (JsStr "1.0")
                             (Catalog.field "description" d
                                (FCons "id" (JsStr (Catalog.componentId toLowerCase c))
                                   (FCons "instanceId" (JsStr fresh)
                                      (Catalog.field "properties" p
                                         (Catalog.field "title" t FNil))))))
                          (JsStr (Catalog.componentId toLowerCase c))))).
  { destruct d; reflexivity. }
  assert (Hown : Payload.lookup "instanceId"
                   (wp_webPartData
                      (mkWebPart (Some (JsStr fresh))
                         (FCons "dataVersion" (JsStr "1.0")
                            (Catalog.field "description" d
                               (FCons "id" (JsStr (Catalog.componentId toLowerCase c))
                                  (FCons "instanceId" (JsStr fresh)
                                     (Catalog.field "properties" p
                                        (Catalog.field "title" t FNil))))))
                         (JsStr (Catalog.componentId toLowerCase c))))
                 <> None).
  { rewrite <- Hid. discriminate. }
  destruct (SettingFacts.id_invariant JSON_parse _ _ _ Hid Hown HS) as [H _].
  cbn [Editor.webPartControl webPartData] in HD. injection HD as <-.
  exact H.
Qed.

Lemma control_id_is_instanceId_witness :
  exists webPart',
    Payload.setWebPartProperties CatalogSample.parseManifest
      (mkWebPart (Some (JsStr "new-id"))
         (FCons "dataVersion" (JsStr "1.0")
            (FCons "description" (JsStr "Display a map")
               (FCons "id" (JsStr "e377ea37-9047-43b9-8cdb-a761be2f8e09")
                  (FCons "instanceId" (JsStr "new-id")
                     (FCons "properties" (JsObj (FCons "zoom" (JsNum 12) FNil))
                        (FCons "title" (JsStr "Bing maps") FNil))))))
         (JsStr "e377ea37-9047-43b9-8cdb-a761be2f8e09"))
      Sample.options = Ok webPart' /\
    id (Editor.webPartControl Editor.defaultSection webPart') = Some (JsStr "new-id").
Proof.
  eexists. split; [reflexivity|].
  exact (control_id_is_instanceId CatalogSample.parseManifest Sample.plain
           CatalogSample.noStandard (Ok [CatalogSample.bingMap]) "new-id" Sample.options
           _ _ Editor.defaultSection _ eq_refl eq_refl eq_refl).
Defined.

(** ** Columns that are numbered 1, 2, ... in array order *)

Module NumberedFacts.
Import JsFacts Editor EditorFacts.

Lemma length_countFrom n : forall i, List.length (countFrom i n) = n.
Proof. induction n as [|m IH]; intros i; simpl; [reflexivity|now rewrite IH]. Qed.

Lemma countFrom_split a : forall n i x b,
  countFrom i n = a ++ x :: b ->
  x = i + Z.of_nat (List.length a) /\
  a = countFrom i (List.length a) /\
  b = countFrom (x + 1) (List.length b).
Proof.
  induction a as [|y a IH]; intros n i x b H.
  - destruct n as [|m]; [discriminate|]. simpl in H. injection H as <- <-.
    rewrite length_countFrom. simpl. split; [lia|split; reflexivity].
  - destruct n as [|m]; [discriminate|]. simpl in H. injection H as <- H.
    destruct (IH _ _ _ _ H) as (Hx & Ha & Hb).
    simpl List.length. split; [lia|]. split; [|exact Hb].
    simpl. now rewrite <- Ha.
Qed.

Lemma countFrom_sorted n : forall i, StronglySorted Z.le (countFrom i n).
Proof.
  induction n as [|m IH]; intros i; simpl; constructor; [apply IH|].
  apply Forall_forall. intros v Hv. apply In_countFrom in Hv. lia.
Qed.

Lemma sort_num_sorted_id l : StronglySorted Z.le l -> Js.sort_num l = l.
Proof.
  induction 1 as [|x r S IH Hall]; [reflexivity|].
  simpl. rewrite IH. destruct r as [|y t]; [reflexivity|].
  simpl. inversion Hall as [|? ? Hxy _]; subst.
  destruct (x <=? y) eqn:E; [reflexivity|apply Z.leb_gt in E; lia].
Qed.

Lemma index_countFrom n : forall i k,
  0 <= k < Z.of_nat n -> Js.index (countFrom i n) k = Some (i + k).
Proof.
  intros i k Hk. unfold Js.index.
  destruct (k <? 0) eqn:E; [apply Z.ltb_lt in E; lia|].
  assert (H : forall m j q, (q < m)%nat ->
                nth_error (countFrom j m) q = Some (j + Z.of_nat q)).
  { induction m as [|m IH]; intros j q Hq; [lia|].
    destruct q as [|q]; simpl; [f_equal; lia|].
    rewrite IH by lia. f_equal. lia. }
  rewrite H by lia. f_equal. lia.
Qed.

Lemma setControlIndex_same zone col c :
  inColumn zone col c = true -> setControlIndex (ciOf c) c = c.
Proof.
  unfold inColumn, ciOf, setControlIndex.
  destruct c as [ct dm i pos wid em wd ot]. simpl.
  destruct pos as [[z s f li ci]|]; [reflexivity|discriminate].
Qed.

Lemma renumber_app zone col a b : forall i,
  renumber zone col i (a ++ b)
  = renumber zone col i a
    ++ renumber zone col (i + Z.of_nat (List.length (columnControls zone col a))) b.
Proof.
  unfold columnControls.
  induction a as [|c r IH]; intros i.
  - simpl. now rewrite Z.add_0_r.
  - cbn [app renumber filter]. destruct (inColumn zone col c); cbn [app List.length].
    + rewrite IH. do 3 f_equal. lia.
    + now rewrite IH.
Qed.

Lemma renumber_numbered zone col a : forall i n,
  map ciOf (columnControls zone col a) = countFrom i n ->
  renumber zone col i a = a.
Proof.
  unfold columnControls.
  induction a as [|c r IH]; intros i n H; [reflexivity|].
  cbn [renumber filter] in *. destruct (inColumn zone col c) eqn:E.
  - destruct n as [|m]; [discriminate|]. simpl in H. injection H as Hc Hr.
    rewrite <- Hc, (setControlIndex_same zone col c E). f_equal.
    rewrite Hc. now apply (IH _ m).
  - f_equal. now apply (IH _ n).
Qed.

Lemma renumber_none zone col b : forall i,
  columnControls zone col b = [] -> renumber zone col i b = b.
Proof.
  intros i H. apply (renumber_numbered zone col b i 0). now rewrite H.
Qed.

Lemma renumber_shift zone col b : forall j n,
  map ciOf (columnControls zone col b) = countFrom j n ->
  renumber zone col (j + 1) b = map (shiftInColumn zone col) b.
Proof.
  unfold columnControls, shiftInColumn.
  induction b as [|c r IH]; intros j n H; [reflexivity|].
  cbn [renumber filter map] in *. destruct (inColumn zone col c) eqn:E.
  - destruct n as [|m]; [discriminate|]. simpl in H. injection H as Hc Hr.
    rewrite Hc. f_equal. now apply (IH _ m).
  - f_equal. now apply (IH _ n).
Qed.

Lemma numbered_indices zone col l k :
  map ciOf (columnControls zone col l) = countFrom 1 k ->
  controlIndices zone col l = countFrom 1 k /\
  List.length (columnControls zone col l) = k.
Proof.
  intros H. split.
  - unfold controlIndices. rewrite H. apply sort_num_sorted_id, countFrom_sorted.
  - rewrite <- (length_map ciOf), H. apply length_countFrom.
Qed.

(** Appending to a numbered column. *)
Lemma append_numbered l zone col i anchor order webPart k :
  Js.index l i = Some anchor ->
  inColumn zone col anchor = true ->
  Js.truthy (controlType anchor) = true ->
  map ciOf (columnControls zone col l) = countFrom 1 k ->
  order = None \/ order = Some 0 \/ (exists o, order = Some o /\ Z.of_nat k < o) ->
  exists front last post,
    l = front ++ last :: post /\
    inColumn zone col last = true /\
    ciOf last = Z.of_nat k /\
    columnControls zone col post = [] /\
    insert l zone col i order webPart
    = front ++ last
        :: setControlIndex (Z.of_nat k + 1) (webPartControl anchor webPart) :: post.
Proof.
  intros HI HC HT Hnum Hord.
  destruct (numbered_indices zone col l k Hnum) as [_ Hlen].
  destruct (PlacementFacts.insert_appends l zone col i anchor order webPart HI HC HT)
    as (pre & last & post & Hl & Hlast & Hmax & _ & Hins).
  { rewrite Hlen. exact Hord. }
  assert (Hcol : columnControls zone col l
                 = columnControls zone col pre ++ last :: columnControls zone col post).
  { rewrite Hl, columnControls_app.
    now rewrite (PlacementFacts.columnControls_cons_in zone col last post Hlast). }
  assert (Hsplit := Hnum). rewrite Hcol, map_app in Hsplit. cbn [map] in Hsplit.
  symmetry in Hsplit.
  destruct (countFrom_split _ _ _ _ _ Hsplit) as (Hx & Ha & Hb).
  assert (Hpost : columnControls zone col post = []).
  { destruct (columnControls zone col post) as [|c t] eqn:E; [reflexivity|exfalso].
    simpl in Hb. injection Hb as Hc _.
    assert (Hin : In c (columnControls zone col l)).
    { rewrite Hcol. apply in_or_app. right. right. left. reflexivity. }
    specialize (Hmax c Hin). lia. }
  assert (Hk : ciOf last = Z.of_nat k).
  { assert (Hlen' := f_equal (@List.length Z) Hsplit).
    rewrite length_countFrom, length_app in Hlen'. cbn [List.length] in Hlen'.
    rewrite Hpost in Hlen'. cbn [map List.length] in Hlen'. lia. }
  exists pre, last, post. split; [exact Hl|]. split; [exact Hlast|].
  split; [exact Hk|]. split; [exact Hpost|].
  replace (pre ++ last
             :: setControlIndex (Z.of_nat k + 1) (webPartControl anchor webPart) :: post)
    with ((pre ++ [last])
            ++ setControlIndex (Z.of_nat k + 1) (webPartControl anchor webPart) :: post)
    by (now rewrite <- app_assoc).
  rewrite Hins.
  replace (pre ++ last :: webPartControl anchor webPart :: post)
    with ((pre ++ [last]) ++ webPartControl anchor webPart :: post)
    by (now rewrite <- app_assoc).
  rewrite renumber_app.
  assert (Hfront : columnControls zone col (pre ++ [last]) = columnControls zone col l).
  { rewrite Hcol, Hpost, columnControls_app.
    now rewrite (PlacementFacts.columnControls_cons_in zone col last [] Hlast). }
  rewrite Hfront, Hlen.
  rewrite (renumber_numbered zone col (pre ++ [last]) 1 k) by (now rewrite Hfront).
  cbn [renumber].
  rewrite inColumn_webPartControl, HC, renumber_none by assumption.
  replace (1 + Z.of_nat k) with (Z.of_nat k + 1) by lia.
  reflexivity.
Qed.

(** Inserting at an order into a numbered column. *)
Lemma insert_numbered l zone col i anchor o webPart k :
  Js.index l i = Some anchor ->
  inColumn zone col anchor = true ->
  Js.truthy (controlType anchor) = true ->
  map ciOf (columnControls zone col l) = countFrom 1 k ->
  1 <= o <= Z.of_nat k ->
  exists pre post,
    l = pre ++ post /\
    map ciOf (columnControls zone col pre) = countFrom 1 (Z.to_nat (o - 1)) /\
    insert l zone col i (Some o) webPart
    = pre ++ setControlIndex o (webPartControl anchor webPart)
          :: map (shiftInColumn zone col) post.
Proof.
  intros HI HC HT Hnum Ho.
  destruct (numbered_indices zone col l k Hnum) as [Hcis Hlen].
  destruct (PlacementFacts.insert_before_rank l zone col i anchor o webPart HI HT)
    as (pre & target & post & Hl & Htarget & Hrank & _ & Hins).
  { rewrite Hlen. exact Ho. }
  rewrite Hcis, index_countFrom in Hrank by lia.
  assert (Hci : 1 + (o - 1) = ciOf target) by congruence.
  assert (Hcol : columnControls zone col l
                 = columnControls zone col pre
                   ++ target :: columnControls zone col post).
  { rewrite Hl, columnControls_app.
    now rewrite (PlacementFacts.columnControls_cons_in zone col target post Htarget). }
  assert (Hsplit := Hnum). rewrite Hcol, map_app in Hsplit. cbn [map] in Hsplit.
  symmetry in Hsplit.
  destruct (countFrom_split _ _ _ _ _ Hsplit) as (Hx & Ha & Hb).
  rewrite length_map in Hx, Ha.
  assert (Hpre : List.length (columnControls zone col pre) = Z.to_nat (o - 1)) by lia.
  exists pre, (target :: post). split; [exact Hl|].
  split; [now rewrite <- Hpre|].
  rewrite Hins, renumber_app.
  rewrite (renumber_numbered zone col pre 1 (List.length (columnControls zone col pre)))
    by exact Ha.
  f_equal. cbn [renumber]. rewrite inColumn_webPartControl, HC.
  replace (1 + Z.of_nat (List.length (columnControls zone col pre))) with o by lia.
  f_equal.
  apply (renumber_shift zone col (target :: post) o
           (S (List.length (columnControls zone col post)))).
  rewrite (PlacementFacts.columnControls_cons_in zone col target post Htarget).
  cbn [map countFrom].
  assert (Ht : ciOf target = o) by lia. rewrite Ht in *.
  rewrite length_map in Hb. f_equal. exact Hb.
Qed.

End NumberedFacts.

(** X23. When the column is numbered 1..k in array order and the order is
    unset, 0 or greater than k, the new control is put right after the last
    control of the column, the one with [controlIndex] k, after which the
    layout has no control of the column; the new control gets
    [controlIndex] k + 1, and no other entry of the layout changes. *)
Theorem append_keeps_numbered_column :
  forall (l : Layout) (zone : option Z) (requested : option Z) (i : Z)
         (anchor : Control) (order : option Z) (webPart : WebPart) (k : nat),
    let col := Js.or_default requested 1 in
    Editor.resolveColumn l zone requested = Ok i ->
    Js.index l i = Some anchor ->
    Js.truthy (controlType anchor) = true ->
    map Editor.ciOf (Editor.columnControls zone col l) = countFrom 1 k ->
    order = None \/ order = Some 0 \/ (exists o, order = Some o /\ Z.of_nat k < o) ->
    exists front last post,
      l = front ++ last :: post /\
      Editor.inColumn zone col last = true /\
      Editor.ciOf last = Z.of_nat k /\
      Editor.columnControls zone col post = [] /\
      Editor.insert l zone col i order webPart
      = front ++ last
          :: Editor.setControlIndex (Z.of_nat k + 1)
               (Editor.webPartControl anchor webPart) :: post.
Proof.
  intros l zone requested i anchor order webPart k col HR HI HT Hnum Hord.
  destruct (EditorFacts.resolveColumn_anchor _ _ _ _ _ HR HI) as (_ & _ & _ & _ & HC & _).
  now apply NumberedFacts.append_numbered.
Qed.

Lemma append_keeps_numbered_column_witness :
  exists front last post,
    [Sample.part 1 1 1; Sample.part 1 1 2; Sample.part 2 1 1; Sample.settingsOnly]
    = front ++ last :: post /\
    Editor.inColumn (Some 1) 1 last = true /\
    Editor.ciOf last = 2 /\
    Editor.columnControls (Some 1) 1 post = [] /\
    Editor.insert
      [Sample.part 1 1 1; Sample.part 1 1 2; Sample.part 2 1 1; Sample.settingsOnly]
      (Some 1) 1 0 None Sample.webPart
    = front ++ last
        :: Editor.setControlIndex 3
             (Editor.webPartControl (Sample.part 1 1 1) Sample.webPart) :: post.
Proof.
  exact (append_keeps_numbered_column
           [Sample.part 1 1 1; Sample.part 1 1 2; Sample.part 2 1 1; Sample.settingsOnly]
           (Some 1) None 0 (Sample.part 1 1 1) None Sample.webPart 2
           eq_refl eq_refl eq_refl eq_refl (or_introl eq_refl)).
Defined.

(** X24. When the column is numbered 1..k in array order and an order
    between 1 and k is asked for, the new control gets exactly that
    [controlIndex]; the controls of the column before it keep theirs, the
    ones from that order on move one place down, and the entries outside
    the column are left alone. *)
Theorem insert_into_numbered_column :
  forall (l : Layout) (zone : option Z) (requested : option Z) (i : Z)
         (anchor : Control) (o : Z) (webPart : WebPart) (k : nat),
    let col := Js.or_default requested 1 in
    Editor.resolveColumn l zone requested = Ok i ->
    Js.index l i = Some anchor ->
    Js.truthy (controlType anchor) = true ->
    map Editor.ciOf (Editor.columnControls zone col l) = countFrom 1 k ->
    1 <= o <= Z.of_nat k ->
    exists pre post,
      l = pre ++ post /\
      map Editor.ciOf (Editor.columnControls zone col pre)
      = countFrom 1 (Z.to_nat (o - 1)) /\
      Editor.insert l zone col i (Some o) webPart
      = pre ++ Editor.setControlIndex o (Editor.webPartControl anchor webPart)
            :: map (shiftInColumn zone col) post.
Proof.
  intros l zone requested i anchor o webPart k col HR HI HT Hnum Ho.
  destruct (EditorFacts.resolveColumn_anchor _ _ _ _ _ HR HI) as (_ & _ & _ & _ & HC & _).
  now apply NumberedFacts.insert_numbered with (k := k).
Qed.

Lemma insert_into_numbered_column_witness :
  exists pre post,
    [Sample.part 1 1 1; Sample.part 1 2 1; Sample.part 1 1 2; Sample.settingsOnly]
    = pre ++ post /\
    Editor.insert
      [Sample.part 1 1 1; Sample.part 1 2 1; Sample.part 1 1 2; Sample.settingsOnly]
      (Some 1) 1 0 (Some 2) Sample.webPart
    = pre ++ Editor.setControlIndex 2
               (Editor.webPartControl (Sample.part 1 1 1) Sample.webPart)
          :: map (shiftInColumn (Some 1) 1) post.
Proof.
  assert (Ho : 1 <= 2 <= Z.of_nat 2) by (simpl; lia).
  destruct (insert_into_numbered_column
              [Sample.part 1 1 1; Sample.part 1 2 1; Sample.part 1 1 2; Sample.settingsOnly]
              (Some 1) None 0 (Sample.part 1 1 1) 2 Sample.webPart 2
              eq_refl eq_refl eq_refl eq_refl Ho)
    as (pre & post & H1 & _ & H2).
  exists pre, post. split; [exact H1|exact H2].
Defined.
